(** * Escrow: operation ledger and custody state machine

    A shallow embedding of [sc/src/Escrow.sol] (Solidity 0.8.28) together
    with the parts of OpenZeppelin it inherits or calls ([Ownable],
    [ReentrancyGuard], [SafeERC20] over an [IERC20] token), followed by the
    properties of the ledger.

    Conventions.
    - [uint256] and [address] values are binary naturals ([N]); the only
      checked arithmetic in the contract, [operationCounter++], has its
      overflow panic written out.
    - A Solidity [mapping] is a [gmap] read with the type's zero value as
      default.
    - Contract code is written in a state-and-revert monad [M].  A revert
      stops the computation and keeps the store as it was at the point of
      failure; the message-call frame [call] is what rolls the store back. *)

From Stdlib Require Import NArith Lia List String Bool.
From stdpp Require Import base option list gmap fin_maps.

Local Open Scope string_scope.
Local Open Scope list_scope.
Local Open Scope N_scope.

(** ** Value types *)

Abbreviation address := N (only parsing).
Abbreviation uint256 := N (only parsing).

Definition MAX_UINT256 : uint256 := 2 ^ 256 - 1.

(** [enum OperationStatus { Active, Completed, Cancelled }] *)
Inductive OperationStatus := Active | Completed | Cancelled.

#[global] Instance OperationStatus_eq_dec : EqDecision OperationStatus.
Proof. solve_decision. Defined.

(** [struct Operation] *)
Record Operation := mkOperation {
  id : uint256;
  creator : address;
  tokenA : address;
  tokenB : address;
  amountA : uint256;
  amountB : uint256;
  status : OperationStatus;
  completer : address
}.

(** The value a [mapping(uint256 => Operation)] holds at a key never written. *)
Definition zeroOperation : Operation :=
  mkOperation 0 0 0 0 0 0 Active 0.

Definition setStatus (st : OperationStatus) (op : Operation) : Operation :=
  mkOperation (id op) (creator op) (tokenA op) (tokenB op)
              (amountA op) (amountB op) st (completer op).

Definition setCompleter (a : address) (op : Operation) : Operation :=
  mkOperation (id op) (creator op) (tokenA op) (tokenB op)
              (amountA op) (amountB op) (status op) a.

(** ** Errors and events *)

(** The ways a call can revert: the custom errors of [Ownable],
    [ReentrancyGuard], [SafeERC20] and [ERC20] (the latter reach the caller
    of the contract because [SafeERC20] passes on the revert data of the
    token), [require(cond, reason)] and the arithmetic panic of checked
    [uint256] arithmetic. *)
Inductive Error :=
  | OwnableUnauthorizedAccount (account : address)
  | OwnableInvalidOwner (owner : address)
  | ReentrancyGuardReentrantCall
  | ErrorString (reason : string)
  | SafeERC20FailedOperation (token : address)
  | ERC20InsufficientBalance (sender : address) (balance needed : uint256)
  | ERC20InsufficientAllowance (spender : address) (allowance needed : uint256)
  | ERC20InvalidSender (sender : address)
  | ERC20InvalidReceiver (receiver : address)
  | ERC20InvalidApprover (approver : address)
  | ERC20InvalidSpender (spender : address)
  | Panic (code : N).

(** The error classes of the specification. *)
Inductive ErrorKind :=
  | ValidationError
  | AuthorizationError
  | StateError
  | TransferError
  | ReentrancyError
  | ArithmeticError.

Definition stateReasons : list string :=
  [ "Operation does not exist"; "Operation not active"; "Token already allowed" ].

Definition authorizationReasons : list string :=
  [ "Creator cannot complete own operation"; "Only creator can cancel" ].

Definition mem_string (s : string) (l : list string) : bool :=
  existsb (String.eqb s) l.

(** Classification of a revert into the specification's taxonomy: missing
    record, wrong status and duplicate registration are state errors, a wrong
    caller is an authorization error, every other failed [require] is a
    validation error, and whatever a token answers when it declines a
    transfer is a transfer error. *)
Definition kind (e : Error) : ErrorKind :=
  match e with
  | OwnableUnauthorizedAccount _ => AuthorizationError
  | OwnableInvalidOwner _ => ValidationError
  | ReentrancyGuardReentrantCall => ReentrancyError
  | SafeERC20FailedOperation _
  | ERC20InsufficientBalance _ _ _
  | ERC20InsufficientAllowance _ _ _
  | ERC20InvalidSender _
  | ERC20InvalidReceiver _
  | ERC20InvalidApprover _
  | ERC20InvalidSpender _ => TransferError
  | Panic _ => ArithmeticError
  | ErrorString r =>
      if mem_string r stateReasons then StateError
      else if mem_string r authorizationReasons then AuthorizationError
      else ValidationError
  end.

(** The events of [Escrow], and [OwnershipTransferred] of [Ownable]. *)
Inductive Event :=
  | OwnershipTransferred (previousOwner newOwner : address)
  | TokenAdded (token : address)
  | OperationCreated (operationId : uint256) (creator tokenA tokenB : address)
                     (amountA amountB : uint256)
  | OperationCompleted (operationId : uint256) (completer : address)
  | OperationCancelled (operationId : uint256).

(** ** Stores *)

(** Storage of the [Escrow] contract.  [_owner] is [Ownable]'s slot and
    [_entered] is [ReentrancyGuard]'s [_status == ENTERED]. *)
Record Escrow := mkEscrow {
  _owner : address;
  _entered : bool;
  operationCounter : uint256;
  operations : gmap N Operation;
  allowedTokens : gmap N bool;
  allowedTokensList : list address;
  operationIds : list uint256
}.

(** Storage of the token contracts: [_balances] is keyed by (token, account)
    and [_allowances] by (token, owner, spender). *)
Record Tokens := mkTokens {
  _balances : gmap (N * N) N;
  _allowances : gmap (N * N * N) N
}.

(** An outgoing call of the escrow contract, kept in the order it is made. *)
Inductive ExternalCall :=
  | CallTransferFrom (token from to : address) (value : uint256)
  | CallTransfer (token to : address) (value : uint256).

(** Everything a call can read or change: the contract's storage, the token
    contracts, the contract's event log and, as instrumentation, the outgoing
    calls made so far. *)
Record World := mkWorld {
  escrow : Escrow;
  tokens : Tokens;
  logs : list Event;
  interactions : list ExternalCall
}.

Definition withEscrow (f : Escrow -> Escrow) (w : World) : World :=
  mkWorld (f (escrow w)) (tokens w) (logs w) (interactions w).

Definition withTokens (t : Tokens) (w : World) : World :=
  mkWorld (escrow w) t (logs w) (interactions w).

Definition setOwner (a : address) (e : Escrow) : Escrow :=
  mkEscrow a (_entered e) (operationCounter e) (operations e)
           (allowedTokens e) (allowedTokensList e) (operationIds e).

Definition setEntered (b : bool) (e : Escrow) : Escrow :=
  mkEscrow (_owner e) b (operationCounter e) (operations e)
           (allowedTokens e) (allowedTokensList e) (operationIds e).

Definition setOperationCounter (n : uint256) (e : Escrow) : Escrow :=
  mkEscrow (_owner e) (_entered e) n (operations e)
           (allowedTokens e) (allowedTokensList e) (operationIds e).

Definition setOperations (m : gmap N Operation) (e : Escrow) : Escrow :=
  mkEscrow (_owner e) (_entered e) (operationCounter e) m
           (allowedTokens e) (allowedTokensList e) (operationIds e).

Definition setAllowedTokens (m : gmap N bool) (e : Escrow) : Escrow :=
  mkEscrow (_owner e) (_entered e) (operationCounter e) (operations e)
           m (allowedTokensList e) (operationIds e).

Definition setAllowedTokensList (l : list address) (e : Escrow) : Escrow :=
  mkEscrow (_owner e) (_entered e) (operationCounter e) (operations e)
           (allowedTokens e) l (operationIds e).

Definition setOperationIds (l : list uint256) (e : Escrow) : Escrow :=
  mkEscrow (_owner e) (_entered e) (operationCounter e) (operations e)
           (allowedTokens e) (allowedTokensList e) l.

(** [operations[k]] and [allowedTokens[t]] as Solidity reads them. *)
Definition operationAt (e : Escrow) (k : uint256) : Operation :=
  default zeroOperation (operations e !! k).

Definition isAllowed (e : Escrow) (t : address) : bool :=
  default false (allowedTokens e !! t).

(** ** The state-and-revert monad *)

Inductive Outcome (A : Type) :=
  | Done (a : A)
  | Reverted (e : Error).
Arguments Done {A} a.
Arguments Reverted {A} e.

Definition M (A : Type) : Type := World -> Outcome A * World.

Definition ret {A} (a : A) : M A := fun w => (Done a, w).

Definition bind {A B} (m : M A) (k : A -> M B) : M B :=
  fun w =>
    match m w with
    | (Done a, w') => k a w'
    | (Reverted e, w') => (Reverted e, w')
    end.

Definition revert {A} (e : Error) : M A := fun w => (Reverted e, w).

Definition gets {A} (f : World -> A) : M A := fun w => (Done (f w), w).

Definition modify (f : World -> World) : M unit := fun w => (Done tt, f w).

Declare Scope sol_scope.
Delimit Scope sol_scope with sol.
Notation "'let!' x ':=' m 'in' k" := (bind m (fun x => k))
  (at level 10, x name, m at level 200, k at level 200) : sol_scope.
Notation "m >> k" := (bind m (fun _ => k))
  (at level 90, right associativity) : sol_scope.
Local Open Scope sol_scope.

(** [require(cond, reason)] *)
Definition require (cond : bool) (reason : string) : M unit :=
  if cond then ret tt else revert (ErrorString reason).

(** [emit ev] *)
Definition emit (ev : Event) : M unit :=
  modify (fun w => mkWorld (escrow w) (tokens w) (logs w ++ [ev]) (interactions w)).

Definition sstore (f : Escrow -> Escrow) : M unit := modify (withEscrow f).

Definition note (c : ExternalCall) (w : World) : World :=
  mkWorld (escrow w) (tokens w) (logs w) (interactions w ++ [c]).

(** A message-call frame: when the callee reverts, every effect it had on
    the store is undone and the caller sees only the error. *)
Definition call {A} (m : M A) : M A :=
  fun w =>
    match m w with
    | (Done a, w') => (Done a, w')
    | (Reverted e, _) => (Reverted e, w)
    end.

(** ** The asset transfer provider *)

(** What the token contracts do when the escrow contract (the caller,
    [spender]) invokes [transferFrom] or [transfer] on the token at address
    [token].  The call ends in one of three ways, which [SafeERC20] tells
    apart:
    - [Done true]: the call returns [true], or returns no data from an
      address that has code;
    - [Done false]: the call returns anything else ([false], or no data from
      an address without code);
    - [Reverted e]: the call reverts with revert data [e].
    The provider acts on the whole store because a token may run any code
    during the call, calls back into the escrow contract included. *)
Record Provider := mkProvider {
  transferFrom : address -> address -> address -> address -> uint256 -> M bool;
  transfer : address -> address -> address -> uint256 -> M bool
}.

(** *** Conforming tokens

    The behaviour of OpenZeppelin's [ERC20], which [MockToken] extends.
    Balances are not wrapped: [ERC20] keeps every balance below the total
    supply, itself a [uint256]. *)

Definition balanceOf (t : Tokens) (token account : address) : uint256 :=
  default 0 (_balances t !! (token, account)).

Definition allowance (t : Tokens) (token owner spender : address) : uint256 :=
  default 0 (_allowances t !! (token, owner, spender)).

Definition setBalance (token account : address) (v : uint256) (t : Tokens) : Tokens :=
  mkTokens (<[(token, account) := v]> (_balances t)) (_allowances t).

Definition setAllowance (token owner spender : address) (v : uint256) (t : Tokens) : Tokens :=
  mkTokens (_balances t) (<[(token, owner, spender) := v]> (_allowances t)).

(** [ERC20._approve] *)
Definition _approve (token owner spender : address) (value : uint256)
    (t : Tokens) : Outcome Tokens :=
  if owner =? 0 then Reverted (ERC20InvalidApprover 0)
  else if spender =? 0 then Reverted (ERC20InvalidSpender 0)
  else Done (setAllowance token owner spender value t).

(** [ERC20._spendAllowance]: an allowance of [type(uint256).max] is never
    consumed. *)
Definition _spendAllowance (token owner spender : address) (value : uint256)
    (t : Tokens) : Outcome Tokens :=
  let currentAllowance := allowance t token owner spender in
  if currentAllowance <? MAX_UINT256 then
    if currentAllowance <? value
    then Reverted (ERC20InsufficientAllowance spender currentAllowance value)
    else _approve token owner spender (currentAllowance - value) t
  else Done t.

(** [ERC20._transfer] followed by [ERC20._update]. *)
Definition _transfer (token from to : address) (value : uint256)
    (t : Tokens) : Outcome Tokens :=
  if from =? 0 then Reverted (ERC20InvalidSender 0)
  else if to =? 0 then Reverted (ERC20InvalidReceiver 0)
  else
    let fromBalance := balanceOf t token from in
    if fromBalance <? value
    then Reverted (ERC20InsufficientBalance from fromBalance value)
    else
      let t1 := setBalance token from (fromBalance - value) t in
      Done (setBalance token to (balanceOf t1 token to + value) t1).

(** [ERC20.transferFrom], called by [spender]. *)
Definition ERC20_transferFrom (token spender from to : address) (value : uint256)
    (t : Tokens) : Outcome Tokens :=
  match _spendAllowance token from spender value t with
  | Done t1 => _transfer token from to value t1
  | Reverted e => Reverted e
  end.

(** [ERC20.transfer], called by [sender]. *)
Definition ERC20_transfer (token sender to : address) (value : uint256)
    (t : Tokens) : Outcome Tokens :=
  _transfer token sender to value t.

(** [ERC20.approve], called by [owner]. *)
Definition ERC20_approve (token owner spender : address) (value : uint256)
    (t : Tokens) : Outcome Tokens :=
  _approve token owner spender value t.

(** A call that touches the token storage only and returns [true]. *)
Definition onTokens (f : Tokens -> Outcome Tokens) : M bool :=
  fun w =>
    match f (tokens w) with
    | Done t => (Done true, withTokens t w)
    | Reverted e => (Reverted e, w)
    end.

(** The provider made of conforming tokens only: a transfer touches the
    token storage and nothing else. *)
Definition ERC20 : Provider :=
  mkProvider
    (fun token spender from to value => onTokens (ERC20_transferFrom token spender from to value))
    (fun token sender to value => onTokens (ERC20_transfer token sender to value)).

(** ** The contract *)

Section Contract.

(** [address(this)] and the tokens the contract talks to. *)
Variable this : address.
Variable P : Provider.

(** [Ownable.onlyOwner] *)
Definition onlyOwner (sender : address) : M unit :=
  let! o := gets (fun w => _owner (escrow w)) in
  if o =? sender then ret tt else revert (OwnableUnauthorizedAccount sender).

(** [Ownable._transferOwnership] *)
Definition _transferOwnership (newOwner : address) : M unit :=
  let! oldOwner := gets (fun w => _owner (escrow w)) in
  sstore (setOwner newOwner) >>
  emit (OwnershipTransferred oldOwner newOwner).

(** [Ownable.transferOwnership] and [Ownable.renounceOwnership], which
    [Escrow] inherits as public functions. *)
Definition transferOwnership (sender newOwner : address) : M unit :=
  onlyOwner sender >>
  if newOwner =? 0 then revert (OwnableInvalidOwner 0)
  else _transferOwnership newOwner.

Definition renounceOwnership (sender : address) : M unit :=
  onlyOwner sender >>
  _transferOwnership 0.

(** [ReentrancyGuard.nonReentrant] *)
Definition nonReentrant {A} (body : M A) : M A :=
  let! entered := gets (fun w => _entered (escrow w)) in
  if entered then revert ReentrancyGuardReentrantCall
  else
    sstore (setEntered true) >>
    let! r := body in
    sstore (setEntered false) >>
    ret r.

(** [SafeERC20.safeTransferFrom] and [SafeERC20.safeTransfer]: the token is
    called in a frame of its own; when it reverts its revert data is passed
    on, and when it returns without success the call reverts with
    [SafeERC20FailedOperation]. *)
Definition safeTransferFrom (token from to : address) (value : uint256) : M unit :=
  modify (note (CallTransferFrom token from to value)) >>
  let! ok := call (transferFrom P token this from to value) in
  if ok then ret tt else revert (SafeERC20FailedOperation token).

Definition safeTransfer (token to : address) (value : uint256) : M unit :=
  modify (note (CallTransfer token to value)) >>
  let! ok := call (transfer P token this to value) in
  if ok then ret tt else revert (SafeERC20FailedOperation token).

(** [operations[k]] read from storage. *)
Definition sload (k : uint256) : M Operation :=
  gets (fun w => operationAt (escrow w) k).

(** A write through the storage reference [operations[k]]. *)
Definition supdate (k : uint256) (f : Operation -> Operation) : M unit :=
  sstore (fun e => setOperations (<[k := f (operationAt e k)]> (operations e)) e).

(** [constructor() Ownable(msg.sender)]: [operationCounter = 0] writes the
    value the slot already has. *)
Definition Escrow_constructor (sender : address) : M unit :=
  (if sender =? 0 then revert (OwnableInvalidOwner 0)
   else _transferOwnership sender) >>
  sstore (setOperationCounter 0).

Definition addToken (sender _token : address) : M unit :=
  onlyOwner sender >>
  require (negb (_token =? 0)) "Invalid token address" >>
  let! allowed := gets (fun w => isAllowed (escrow w) _token) in
  require (negb allowed) "Token already allowed" >>
  sstore (fun e => setAllowedTokens (<[_token := true]> (allowedTokens e)) e) >>
  sstore (fun e => setAllowedTokensList (allowedTokensList e ++ [_token]) e) >>
  emit (TokenAdded _token).

Definition createOperation (sender _tokenA _tokenB : address)
    (_amountA _amountB : uint256) : M unit :=
  nonReentrant (
    let! allowedA := gets (fun w => isAllowed (escrow w) _tokenA) in
    require allowedA "TokenA not allowed" >>
    let! allowedB := gets (fun w => isAllowed (escrow w) _tokenB) in
    require allowedB "TokenB not allowed" >>
    require (negb (_tokenA =? _tokenB)) "Tokens must be different" >>
    require (0 <? _amountA) "AmountA must be greater than 0" >>
    require (0 <? _amountB) "AmountB must be greater than 0" >>
    safeTransferFrom _tokenA sender this _amountA >>
    let! newOperationId := gets (fun w => operationCounter (escrow w)) in
    sstore (fun e => setOperations
              (<[newOperationId :=
                   mkOperation newOperationId sender _tokenA _tokenB
                               _amountA _amountB Active 0]> (operations e)) e) >>
    sstore (fun e => setOperationIds (operationIds e ++ [newOperationId]) e) >>
    let! c := gets (fun w => operationCounter (escrow w)) in
    (if c <? MAX_UINT256 then sstore (setOperationCounter (c + 1))
     else revert (Panic 17)) >>
    emit (OperationCreated newOperationId sender _tokenA _tokenB _amountA _amountB)).

Definition completeOperation (sender : address) (_operationId : uint256) : M unit :=
  nonReentrant (
    let! operation := sload _operationId in
    require (negb (creator operation =? 0)) "Operation does not exist" >>
    require (bool_decide (status operation = Active)) "Operation not active" >>
    require (negb (sender =? creator operation)) "Creator cannot complete own operation" >>
    supdate _operationId (setStatus Completed) >>
    supdate _operationId (setCompleter sender) >>
    let! operation := sload _operationId in
    safeTransferFrom (tokenB operation) sender (creator operation) (amountB operation) >>
    let! operation := sload _operationId in
    safeTransfer (tokenA operation) sender (amountA operation) >>
    emit (OperationCompleted _operationId sender)).

Definition cancelOperation (sender : address) (_operationId : uint256) : M unit :=
  nonReentrant (
    let! operation := sload _operationId in
    require (negb (creator operation =? 0)) "Operation does not exist" >>
    require (bool_decide (status operation = Active)) "Operation not active" >>
    require (sender =? creator operation) "Only creator can cancel" >>
    supdate _operationId (setStatus Cancelled) >>
    let! operation := sload _operationId in
    safeTransfer (tokenA operation) (creator operation) (amountA operation) >>
    emit (OperationCancelled _operationId)).

(** *** Views *)

Definition getAllowedTokens (e : Escrow) : list address := allowedTokensList e.

Definition getAllOperations (e : Escrow) : list Operation :=
  map (operationAt e) (operationIds e).

Definition getOperation (e : Escrow) (_operationId : uint256) : Outcome Operation :=
  if negb (creator (operationAt e _operationId) =? 0)
  then Done (operationAt e _operationId)
  else Reverted (ErrorString "Operation does not exist").

Definition getOperationCount (e : Escrow) : uint256 := operationCounter e.

(** *** Transactions *)

(** The calldata of the state-changing entry points: the four functions of
    [Escrow] and the two it inherits from [Ownable]. *)
Inductive Request :=
  | AddToken (_token : address)
  | CreateOperation (_tokenA _tokenB : address) (_amountA _amountB : uint256)
  | CompleteOperation (_operationId : uint256)
  | CancelOperation (_operationId : uint256)
  | TransferOwnership (newOwner : address)
  | RenounceOwnership.

(** Dispatch on the calldata.  The result is the return data as a list of
    words; none of the six functions declares a return value. *)
Definition dispatch (sender : address) (r : Request) : M (list uint256) :=
  match r with
  | AddToken t => addToken sender t >> ret []
  | CreateOperation a b x y => createOperation sender a b x y >> ret []
  | CompleteOperation k => completeOperation sender k >> ret []
  | CancelOperation k => cancelOperation sender k >> ret []
  | TransferOwnership n => transferOwnership sender n >> ret []
  | RenounceOwnership => renounceOwnership sender >> ret []
  end.

(** A message call from [sender] with calldata [r]. *)
Definition exec (tx : address * Request) : M (list uint256) :=
  call (dispatch (fst tx) (snd tx)).

Definition step (w : World) (tx : address * Request) : World :=
  snd (exec tx w).

Definition run (txs : list (address * Request)) (w : World) : World :=
  fold_left step txs w.

End Contract.

(** Storage before the constructor runs: every slot is zero. *)
Definition blank (t : Tokens) : World :=
  mkWorld (mkEscrow 0 false 0 ∅ ∅ [] []) t [] [].

(** The store right after [new Escrow()] sent by [deployer], next to token
    storage [t].  For the zero address, which is never [msg.sender], the
    constructor reverts and the store stays blank. *)
Definition deploy (deployer : address) (t : Tokens) : World :=
  snd (Escrow_constructor deployer (blank t)).

(** * Specification-level definitions *)

(** ** Intermediate stores of the entry points *)

(** The store in which [completeOperation] makes its transfers: the guard
    is engaged and the record already says [Completed]. *)
Definition completeStaged (sender k : uint256) (w : World) : World :=
  withEscrow (fun e => setOperations
     (<[k := setCompleter sender (setStatus Completed (operationAt e k))]> (operations e))
     (setEntered true e)) w.

(** The store in which [cancelOperation] makes its transfer. *)
Definition cancelStaged (k : uint256) (w : World) : World :=
  withEscrow (fun e => setOperations
     (<[k := setStatus Cancelled (operationAt e k)]> (operations e))
     (setEntered true e)) w.

(** The end of a guarded function: the event is logged and the guard is
    released. *)
Definition finish (ev : Event) (w : World) : World :=
  mkWorld (setEntered false (escrow w)) (tokens w) (logs w ++ [ev]) (interactions w).

(** The record [createOperation] writes, and the storage after its writes. *)
Definition newOperation (c : uint256) (sender a b : address) (x y : uint256) : Operation :=
  mkOperation c sender a b x y Active 0.

Definition recorded (op : Operation) (e : Escrow) : Escrow :=
  setOperationIds (operationIds e ++ [id op])
    (setOperations (<[id op := op]> (operations e)) e).

(** ** Custody *)

(** What one record contributes to the custody of asset [X]: its [amountA]
    when it is [Active] and deposits [X], nothing otherwise. *)
Definition custodyOf (X : address) (op : Operation) : uint256 :=
  if bool_decide (status op = Active) && (tokenA op =? X) then amountA op else 0.

(** The sum of [amountA] over all [Active] records whose [tokenA] is [X]. *)
Definition activeSum (X : address) (ops : gmap N Operation) : uint256 :=
  map_fold (fun _ op acc => custodyOf X op + acc) 0 ops.

(** The contract holds no token in token storage [t]. *)
Definition holdsNothing (this : address) (t : Tokens) : bool :=
  bool_decide (map_Forall (fun k v => k.2 = this -> v = 0) (_balances t)).

(** No transaction of [txs] is sent by the contract itself: the contract
    never calls its own entry points. *)
Definition external (this : address) (txs : list (address * Request)) : bool :=
  forallb (fun tx => negb (fst tx =? this)) txs.

(** ** Runs and their outcomes *)

Definition isDone {A} (o : Outcome A) : bool :=
  match o with Done _ => true | Reverted _ => false end.

(** The transactions of [txs] that did not revert, in order, when [txs] is
    run from [w]. *)
Fixpoint succeeded (this : address) (P : Provider)
    (txs : list (address * Request)) (w : World) : list (address * Request) :=
  match txs with
  | [] => []
  | tx :: rest =>
      let r := exec this P tx w in
      (if isDone (fst r) then [tx] else []) ++ succeeded this P rest (snd r)
  end.

(** [r] asks for a terminal transition of operation [k]. *)
Definition terminalOn (k : uint256) (r : Request) : bool :=
  match r with
  | CompleteOperation j | CancelOperation j => j =? k
  | _ => false
  end.

Definition isCreate (r : Request) : bool :=
  match r with CreateOperation _ _ _ _ => true | _ => false end.

(** The entry points that carry the [nonReentrant] modifier. *)
Definition guarded (r : Request) : bool :=
  match r with
  | CreateOperation _ _ _ _ | CompleteOperation _ | CancelOperation _ => true
  | AddToken _ | TransferOwnership _ | RenounceOwnership => false
  end.

(** The ids [0, 1, ..., c - 1]. *)
Definition idsUpTo (c : uint256) : list uint256 :=
  map N.of_nat (seq 0 (N.to_nat c)).

(** The ids announced by the [OperationCreated] events of a log. *)
Definition createdIds (l : list Event) : list uint256 :=
  flat_map (fun ev => match ev with
                      | OperationCreated k _ _ _ _ _ => [k]
                      | _ => []
                      end) l.

(** ** A token that calls back *)

(** A provider whose tokens, before moving the funds, send the requests
    [attack] to the escrow contract ([msg.sender] is the token) and swallow
    the failures.  The nested calls themselves meet conforming tokens. *)
Definition Reentrant (this : address) (attack : list Request) : Provider :=
  mkProvider
    (fun token spender from to value w =>
       transferFrom ERC20 token spender from to value
         (run this ERC20 (map (pair token) attack) w))
    (fun token sender to value w =>
       transfer ERC20 token sender to value
         (run this ERC20 (map (pair token) attack) w)).

(** A provider whose [transferFrom] is that of a conforming token and
    whose [transfer] returns [false] and moves nothing. *)
Definition Refusing : Provider :=
  mkProvider (transferFrom ERC20) (fun _ _ _ _ => ret false).

(** ** Well-formed storage *)

Record WellFormed (e : Escrow) : Prop := mkWellFormed {
  wf_guard : _entered e = false;
  wf_ids : operationIds e = idsUpTo (operationCounter e);
  wf_dom : forall k, is_Some (operations e !! k) <-> k < operationCounter e;
  wf_rec : forall k op, operations e !! k = Some op ->
             id op = k /\ creator op <> 0 /\
             (status op = Active -> completer op = 0)
}.

(** ** Balances after a transfer *)

(** The balances after a transfer of [v] from [from] to [to], in terms of
    the balances [bal] before. *)
Definition moved (token from to : address) (v : uint256)
    (bal : address -> address -> uint256) (tok a : address) : uint256 :=
  if bool_decide (tok = token) then
    if bool_decide (a = to) then
      (if bool_decide (a = from) then bal tok a - v + v else bal tok a + v)
    else if bool_decide (a = from) then bal tok a - v
    else bal tok a
  else bal tok a.

(** ** Conservation of custody *)

(** The contract's balance of every asset is the custody its [Active]
    records account for, and no record was created by the contract itself. *)
Definition Conserved (this : address) (w : World) : Prop :=
  (forall X, balanceOf (tokens w) X this = activeSum X (operations (escrow w))) /\
  (forall k op, operations (escrow w) !! k = Some op -> creator op <> this).

(** ** Frames *)


(** The fields of a record that no terminal transition touches. *)
Definition terms (op : Operation) : uint256 * address * address * address * uint256 * uint256 :=
  (id op, creator op, tokenA op, tokenB op, amountA op, amountB op).

(** ** Sample data

    Token [7] and token [8], the contract at address [100], deployed by
    account [9]; accounts [1] and [2] hold tokens and have approved the
    contract. *)

Definition sampleTokens : Tokens :=
  mkTokens (list_to_map [((7, 1), 1000); ((8, 2), 1000)])
           (list_to_map [((7, 1, 100), 500); ((8, 2, 100), 500)]).

Definition sampleSetup : list (address * Request) :=
  [(9, AddToken 7); (9, AddToken 8); (1, CreateOperation 7 8 100 50)].

Definition sampleTxs : list (address * Request) :=
  sampleSetup ++ [(1, CreateOperation 7 8 20 5); (2, CompleteOperation 0)].

(** ** The allowlist over a run *)

(** The tokens named by the [addToken] calls of [txs], in order. *)
Definition addedTokens (txs : list (address * Request)) : list address :=
  flat_map (fun tx => match snd tx with AddToken t => [t] | _ => [] end) txs.

(** No transaction of [txs] is sent by [o]. *)
Definition noneSentBy (o : address) (txs : list (address * Request)) : bool :=
  forallb (fun tx => negb (fst tx =? o)) txs.

(** The list and the mapping of the allowlist tell the same story. *)
Definition AllowlistConsistent (e : Escrow) : Prop :=
  NoDup (allowedTokensList e) /\
  (forall a, a ∈ allowedTokensList e <-> isAllowed e a = true) /\
  isAllowed e 0 = false.

(** ** Sound records *)

(** What every stored record satisfies: the terms [createOperation] checked,
    a creator, and a completer that is set exactly when the record is
    [Completed] and is never the creator. *)
Definition ValidRecord (e : Escrow) (op : Operation) : Prop :=
  tokenA op <> tokenB op /\
  0 < amountA op /\ 0 < amountB op /\
  isAllowed e (tokenA op) = true /\ isAllowed e (tokenB op) = true /\
  creator op <> 0 /\
  completer op <> creator op /\
  (status op = Completed <-> completer op <> 0).

(** ** Events and the calls they report *)

(** Event [ev] is the one transaction [tx] logs when it goes through. *)
Definition announces (ev : Event) (tx : address * Request) : Prop :=
  match ev, snd tx with
  | TokenAdded tk, AddToken tk' => tk = tk'
  | OperationCreated _ c a b x y, CreateOperation a' b' x' y' =>
      c = fst tx /\ a = a' /\ b = b' /\ x = x' /\ y = y'
  | OperationCompleted k c, CompleteOperation k' => k = k' /\ c = fst tx
  | OperationCancelled k, CancelOperation k' => k = k'
  | OwnershipTransferred o n, TransferOwnership n' => o = fst tx /\ n = n'
  | OwnershipTransferred o n, RenounceOwnership => o = fst tx /\ n = 0
  | _, _ => False
  end.

(** ** Token holdings *)

(** All of token [token] that the accounts of [t] hold together. *)
Definition heldInTotal (token : address) (t : Tokens) : uint256 :=
  map_fold (fun k v acc => if fst k =? token then v + acc else acc) 0 (_balances t).

(** ** MockToken

    [sc/src/MockToken.sol]: an OpenZeppelin [ERC20] that is [Ownable], with
    a constructor that mints the initial supply to the deployer, [mint] for
    the owner and [burn] for every holder, next to the public functions it
    inherits: [transfer], [transferFrom] and [approve] of [ERC20],
    [transferOwnership] and [renounceOwnership] of [Ownable].  [unchecked]
    arithmetic of [ERC20._update] is written with its wrap-around.  The
    model keeps the storage of the token; its events are left out. *)

Record MockToken := mkMockToken {
  tokenOwner : address;
  _totalSupply : uint256;
  holdings : gmap N N;
  approvals : gmap (N * N) N
}.

Inductive TokenResult :=
  | TokenOk (s : MockToken)
  | TokenReverted (e : Error).

Definition held (s : MockToken) (account : address) : uint256 :=
  default 0 (holdings s !! account).

Definition approved (s : MockToken) (owner spender : address) : uint256 :=
  default 0 (approvals s !! (owner, spender)).

Definition setSupply (v : uint256) (s : MockToken) : MockToken :=
  mkMockToken (tokenOwner s) v (holdings s) (approvals s).

Definition setHeld (account : address) (v : uint256) (s : MockToken) : MockToken :=
  mkMockToken (tokenOwner s) (_totalSupply s) (<[account := v]> (holdings s)) (approvals s).

Definition setApproved (owner spender : address) (v : uint256) (s : MockToken) : MockToken :=
  mkMockToken (tokenOwner s) (_totalSupply s) (holdings s)
              (<[(owner, spender) := v]> (approvals s)).

Definition setTokenOwner (a : address) (s : MockToken) : MockToken :=
  mkMockToken a (_totalSupply s) (holdings s) (approvals s).

(** [ERC20._update]: the debit of [from] (of the supply, checked, when
    [from] is the zero address), then the credit of [to] (of the supply when
    [to] is the zero address), both [unchecked]. *)
Definition _update (from to : address) (value : uint256) (s : MockToken) : TokenResult :=
  let debited :=
    if from =? 0 then
      if MAX_UINT256 <? _totalSupply s + value then TokenReverted (Panic 17)
      else TokenOk (setSupply (_totalSupply s + value) s)
    else
      if held s from <? value
      then TokenReverted (ERC20InsufficientBalance from (held s from) value)
      else TokenOk (setHeld from (held s from - value) s) in
  match debited with
  | TokenReverted e => TokenReverted e
  | TokenOk s1 =>
      if to =? 0
      then TokenOk (setSupply ((_totalSupply s1 + 2 ^ 256 - value) mod 2 ^ 256) s1)
      else TokenOk (setHeld to ((held s1 to + value) mod 2 ^ 256) s1)
  end.

(** [ERC20._mint] and [ERC20._burn] *)
Definition _mint (account : address) (value : uint256) (s : MockToken) : TokenResult :=
  if account =? 0 then TokenReverted (ERC20InvalidReceiver 0)
  else _update 0 account value s.

Definition _burn (account : address) (value : uint256) (s : MockToken) : TokenResult :=
  if account =? 0 then TokenReverted (ERC20InvalidSender 0)
  else _update account 0 value s.

(** [constructor(name, symbol, initialSupply)], sent by [sender]. *)
Definition MockToken_constructor (sender : address) (initialSupply : uint256) : TokenResult :=
  if sender =? 0 then TokenReverted (OwnableInvalidOwner 0)
  else _mint sender initialSupply (mkMockToken sender 0 ∅ ∅).

(** [mint(to, amount)], sent by [sender]. *)
Definition mint (sender to : address) (amount : uint256) (s : MockToken) : TokenResult :=
  if tokenOwner s =? sender then _mint to amount s
  else TokenReverted (OwnableUnauthorizedAccount sender).

(** [burn(amount)], sent by [sender]. *)
Definition burn (sender : address) (amount : uint256) (s : MockToken) : TokenResult :=
  _burn sender amount s.

(** The inherited [ERC20.transfer], sent by [sender]. *)
Definition tokenTransfer (sender to : address) (value : uint256) (s : MockToken) : TokenResult :=
  if sender =? 0 then TokenReverted (ERC20InvalidSender 0)
  else if to =? 0 then TokenReverted (ERC20InvalidReceiver 0)
  else _update sender to value s.

(** The inherited [ERC20.approve], sent by [sender]. *)
Definition tokenApprove (sender spender : address) (value : uint256) (s : MockToken) : TokenResult :=
  if sender =? 0 then TokenReverted (ERC20InvalidApprover 0)
  else if spender =? 0 then TokenReverted (ERC20InvalidSpender 0)
  else TokenOk (setApproved sender spender value s).

(** The inherited [ERC20.transferFrom], sent by [sender]: the allowance
    [from] gave [sender] is spent unless it is [type(uint256).max], then the
    tokens move. *)
Definition tokenTransferFrom (sender from to : address) (value : uint256)
    (s : MockToken) : TokenResult :=
  let currentAllowance := approved s from sender in
  let spent :=
    if currentAllowance <? MAX_UINT256 then
      if currentAllowance <? value
      then TokenReverted (ERC20InsufficientAllowance sender currentAllowance value)
      else tokenApprove from sender (currentAllowance - value) s
    else TokenOk s in
  match spent with
  | TokenReverted e => TokenReverted e
  | TokenOk s1 => tokenTransfer from to value s1
  end.

(** The inherited [Ownable.transferOwnership] and
    [Ownable.renounceOwnership], sent by [sender]. *)
Definition tokenTransferOwnership (sender newOwner : address) (s : MockToken) : TokenResult :=
  if tokenOwner s =? sender then
    if newOwner =? 0 then TokenReverted (OwnableInvalidOwner 0)
    else TokenOk (setTokenOwner newOwner s)
  else TokenReverted (OwnableUnauthorizedAccount sender).

Definition tokenRenounceOwnership (sender : address) (s : MockToken) : TokenResult :=
  if tokenOwner s =? sender then TokenOk (setTokenOwner 0 s)
  else TokenReverted (OwnableUnauthorizedAccount sender).

(** The calldata of the state-changing functions of [MockToken]. *)
Inductive TokenRequest :=
  | Mint (to : address) (amount : uint256)
  | Burn (amount : uint256)
  | Transfer (to : address) (value : uint256)
  | TransferFrom (from to : address) (value : uint256)
  | Approve (spender : address) (value : uint256)
  | TokenTransferOwnership (newOwner : address)
  | TokenRenounceOwnership.

Definition tokenExec (tx : address * TokenRequest) (s : MockToken) : TokenResult :=
  match snd tx with
  | Mint to amount => mint (fst tx) to amount s
  | Burn amount => burn (fst tx) amount s
  | Transfer to value => tokenTransfer (fst tx) to value s
  | TransferFrom from to value => tokenTransferFrom (fst tx) from to value s
  | Approve spender value => tokenApprove (fst tx) spender value s
  | TokenTransferOwnership newOwner => tokenTransferOwnership (fst tx) newOwner s
  | TokenRenounceOwnership => tokenRenounceOwnership (fst tx) s
  end.

(** A reverted call leaves the token as it was. *)
Definition tokenStep (s : MockToken) (tx : address * TokenRequest) : MockToken :=
  match tokenExec tx s with
  | TokenOk s' => s'
  | TokenReverted _ => s
  end.

Definition tokenRun (txs : list (address * TokenRequest)) (s : MockToken) : MockToken :=
  fold_left tokenStep txs s.

(** The sum of all balances of the token. *)
Definition circulating (s : MockToken) : uint256 :=
  map_fold (fun _ v acc => v + acc) 0 (holdings s).

(** The books of a token balance. *)
Definition Balanced (s : MockToken) : Prop :=
  circulating s = _totalSupply s /\ _totalSupply s <= MAX_UINT256.

(** [tx] is a call by which [o] gives the ownership of the token away. *)
Definition givesAway (o : address) (tx : address * TokenRequest) : bool :=
  match snd tx with
  | TokenTransferOwnership _ | TokenRenounceOwnership => fst tx =? o
  | _ => false
  end.

(** ** What a callback cannot reach *)

(** Stores [w1] and [w2] agree on the ledger: guard, counter, records, id
    index, token storage and outgoing calls.  They may differ in the
    allowlist, the owner and the event log, which the entry points outside
    the reentrancy guard write. *)
Definition SameLedger (w1 w2 : World) : Prop :=
  _entered (escrow w2) = _entered (escrow w1) /\
  operationCounter (escrow w2) = operationCounter (escrow w1) /\
  operations (escrow w2) = operations (escrow w1) /\
  operationIds (escrow w2) = operationIds (escrow w1) /\
  tokens w2 = tokens w1 /\
  interactions w2 = interactions w1.

(** Store [w'] has the events and the allowed tokens of [w], in the same
    order, and possibly more of both. *)
Definition Extends (w w' : World) : Prop :=
  (exists l, logs w' = logs w ++ l) /\
  (exists l, allowedTokensList (escrow w') = allowedTokensList (escrow w) ++ l) /\
  (forall a, isAllowed (escrow w) a = true -> isAllowed (escrow w') a = true).

(** * Reasoning about runs *)

(** ** Laws of the monad, oriented for symbolic execution *)

Section MonadLaws.
Context {A B : Type}.

Lemma bind_ret (a : A) (k : A -> M B) w : bind (ret a) k w = k a w.
Proof. reflexivity. Qed.

Lemma bind_revert e (k : A -> M B) w : bind (revert e) k w = (Reverted e, w).
Proof. reflexivity. Qed.

Lemma bind_gets (f : World -> A) (k : A -> M B) w : bind (gets f) k w = k (f w) w.
Proof. reflexivity. Qed.

Lemma bind_sstore f (k : unit -> M B) w :
  bind (sstore f) k w = k tt (withEscrow f w).
Proof. reflexivity. Qed.

Lemma bind_require c r (k : unit -> M B) w :
  bind (require c r) k w = if c then k tt w else (Reverted (ErrorString r), w).
Proof. destruct c; reflexivity. Qed.

Lemma bind_if (c : bool) (m1 m2 : M A) (k : A -> M B) w :
  bind (if c then m1 else m2) k w = if c then bind m1 k w else bind m2 k w.
Proof. destruct c; reflexivity. Qed.

Lemma bind_sload k0 (k : Operation -> M B) w :
  bind (sload k0) k w = k (operationAt (escrow w) k0) w.
Proof. reflexivity. Qed.

Lemma bind_supdate k0 f (k : unit -> M B) w :
  bind (supdate k0 f) k w =
  k tt (withEscrow (fun e => setOperations (<[k0 := f (operationAt e k0)]> (operations e)) e) w).
Proof. reflexivity. Qed.

Lemma bind_emit ev (k : unit -> M B) w :
  bind (emit ev) k w =
  k tt (mkWorld (escrow w) (tokens w) (logs w ++ [ev]) (interactions w)).
Proof. reflexivity. Qed.
End MonadLaws.

Lemma bind_bind {A B C} (m : M A) (k1 : A -> M B) (k2 : B -> M C) w :
  bind (bind m k1) k2 w = bind m (fun a => bind (k1 a) k2) w.
Proof. unfold bind. destruct (m w) as [[a|e] w']; reflexivity. Qed.

(** The three ways a token call can end, as [SafeERC20] reads them. *)
Lemma bind_safeTransferFrom {B} this P token from to value (k : unit -> M B) w :
  bind (safeTransferFrom this P token from to value) k w =
  match transferFrom P token this from to value
          (note (CallTransferFrom token from to value) w) with
  | (Done ok, w') =>
      if ok then k tt w' else (Reverted (SafeERC20FailedOperation token), w')
  | (Reverted e, _) => (Reverted e, note (CallTransferFrom token from to value) w)
  end.
Proof.
  cbv beta iota delta [bind safeTransferFrom modify call ret revert].
  destruct (transferFrom _ _ _ _ _ _ _) as [[[|]|e] w']; reflexivity.
Qed.

Lemma bind_safeTransfer {B} this P token to value (k : unit -> M B) w :
  bind (safeTransfer this P token to value) k w =
  match transfer P token this to value (note (CallTransfer token to value) w) with
  | (Done ok, w') =>
      if ok then k tt w' else (Reverted (SafeERC20FailedOperation token), w')
  | (Reverted e, _) => (Reverted e, note (CallTransfer token to value) w)
  end.
Proof.
  cbv beta iota delta [bind safeTransfer modify call ret revert].
  destruct (transfer _ _ _ _ _ _) as [[[|]|e] w']; reflexivity.
Qed.

Lemma safeTransferFrom_run this P token from to value w :
  safeTransferFrom this P token from to value w =
  match transferFrom P token this from to value
          (note (CallTransferFrom token from to value) w) with
  | (Done ok, w') =>
      if ok then (Done tt, w') else (Reverted (SafeERC20FailedOperation token), w')
  | (Reverted e, _) => (Reverted e, note (CallTransferFrom token from to value) w)
  end.
Proof.
  cbv beta iota delta [bind safeTransferFrom modify call ret revert].
  destruct (transferFrom _ _ _ _ _ _ _) as [[[|]|e] w']; reflexivity.
Qed.

Lemma safeTransfer_run this P token to value w :
  safeTransfer this P token to value w =
  match transfer P token this to value (note (CallTransfer token to value) w) with
  | (Done ok, w') =>
      if ok then (Done tt, w') else (Reverted (SafeERC20FailedOperation token), w')
  | (Reverted e, _) => (Reverted e, note (CallTransfer token to value) w)
  end.
Proof.
  cbv beta iota delta [bind safeTransfer modify call ret revert].
  destruct (transfer _ _ _ _ _ _) as [[[|]|e] w']; reflexivity.
Qed.

Lemma nonReentrant_run {A} (body : M A) w :
  nonReentrant body w =
  if _entered (escrow w) then (Reverted ReentrancyGuardReentrantCall, w)
  else bind body (fun r => sstore (setEntered false) >> ret r)
            (withEscrow (setEntered true) w).
Proof.
  unfold nonReentrant. rewrite bind_gets.
  destruct (_entered (escrow w)); reflexivity.
Qed.

Lemma operationAt_setEntered b e k : operationAt (setEntered b e) k = operationAt e k.
Proof. reflexivity. Qed.

Lemma operationAt_written e m k op :
  operationAt (setOperations (<[k := op]> m) e) k = op.
Proof. unfold operationAt. cbn. rewrite lookup_insert_eq. reflexivity. Qed.

Ltac run_head :=
  repeat first
    [ rewrite bind_bind | rewrite bind_gets | rewrite bind_sload
    | rewrite bind_supdate | rewrite bind_sstore | rewrite bind_emit
    | rewrite bind_ret | rewrite bind_revert | rewrite bind_require
    | rewrite bind_if | rewrite bind_safeTransferFrom
    | rewrite bind_safeTransfer ];
  cbv beta.

Ltac norm_store :=
  cbn [escrow tokens logs interactions withEscrow withTokens note
       tokenA tokenB creator amountA amountB status completer id
       setStatus setCompleter] in *;
  repeat first
    [ rewrite operationAt_written in *
    | rewrite operationAt_setEntered in * ].

(** ** The entry points in normal form *)

Section Runs.
Variable this : address.
Variable P : Provider.

Lemma completeStaged_eq sender k w :
  withEscrow
    (fun e => setOperations (<[k := setCompleter sender (operationAt e k)]> (operations e)) e)
    (withEscrow
       (fun e => setOperations (<[k := setStatus Completed (operationAt e k)]> (operations e)) e)
       (withEscrow (setEntered true) w))
  = completeStaged sender k w.
Proof.
  unfold completeStaged, withEscrow. cbn [escrow tokens logs interactions].
  f_equal. rewrite operationAt_written. cbn [operations setOperations setEntered].
  rewrite operationAt_setEntered.
  unfold setOperations. cbn. rewrite insert_insert_eq. reflexivity.
Qed.

Lemma completeOperation_run sender k w :
  completeOperation this P sender k w =
  if _entered (escrow w) then (Reverted ReentrancyGuardReentrantCall, w) else
  let w0 := withEscrow (setEntered true) w in
  let op := operationAt (escrow w) k in
  if negb (creator op =? 0) then
    if bool_decide (status op = Active) then
      if negb (sender =? creator op) then
        let w1 := note (CallTransferFrom (tokenB op) sender (creator op) (amountB op))
                       (completeStaged sender k w) in
        match transferFrom P (tokenB op) this sender (creator op) (amountB op) w1 with
        | (Done ok, w2) =>
            if ok then
              let op2 := operationAt (escrow w2) k in
              let w2' := note (CallTransfer (tokenA op2) sender (amountA op2)) w2 in
              match transfer P (tokenA op2) this sender (amountA op2) w2' with
              | (Done ok', w3) =>
                  if ok' then (Done tt, finish (OperationCompleted k sender) w3)
                  else (Reverted (SafeERC20FailedOperation (tokenA op2)), w3)
              | (Reverted e, _) => (Reverted e, w2')
              end
            else (Reverted (SafeERC20FailedOperation (tokenB op)), w2)
        | (Reverted e, _) => (Reverted e, w1)
        end
      else (Reverted (ErrorString "Creator cannot complete own operation"), w0)
    else (Reverted (ErrorString "Operation not active"), w0)
  else (Reverted (ErrorString "Operation does not exist"), w0).
Proof.
  unfold completeOperation. rewrite nonReentrant_run.
  destruct (_entered (escrow w)); [reflexivity|].
  run_head. cbv zeta. norm_store.
  repeat match goal with |- (if ?c then _ else _) = _ => destruct c; [|reflexivity] end.
  rewrite completeStaged_eq.
  destruct (transferFrom _ _ _ _ _ _ _) as [[[|]|e] w2]; [|reflexivity|reflexivity].
  run_head.
  destruct (transfer _ _ _ _ _ _) as [[[|]|e] w3]; reflexivity.
Qed.

Lemma cancelOperation_run sender k w :
  cancelOperation this P sender k w =
  if _entered (escrow w) then (Reverted ReentrancyGuardReentrantCall, w) else
  let w0 := withEscrow (setEntered true) w in
  let op := operationAt (escrow w) k in
  if negb (creator op =? 0) then
    if bool_decide (status op = Active) then
      if sender =? creator op then
        let w1 := note (CallTransfer (tokenA op) (creator op) (amountA op))
                       (cancelStaged k w) in
        match transfer P (tokenA op) this (creator op) (amountA op) w1 with
        | (Done ok, w2) =>
            if ok then (Done tt, finish (OperationCancelled k) w2)
            else (Reverted (SafeERC20FailedOperation (tokenA op)), w2)
        | (Reverted e, _) => (Reverted e, w1)
        end
      else (Reverted (ErrorString "Only creator can cancel"), w0)
    else (Reverted (ErrorString "Operation not active"), w0)
  else (Reverted (ErrorString "Operation does not exist"), w0).
Proof.
  unfold cancelOperation. rewrite nonReentrant_run.
  destruct (_entered (escrow w)); [reflexivity|].
  run_head. cbv zeta. norm_store.
  repeat match goal with |- (if ?c then _ else _) = _ => destruct c; [|reflexivity] end.
  change (withEscrow _ (withEscrow (setEntered true) w)) with (cancelStaged k w).
  destruct (transfer _ _ _ _ _ _) as [[[|]|e] w2]; reflexivity.
Qed.

Lemma createOperation_run sender a b x y w :
  createOperation this P sender a b x y w =
  if _entered (escrow w) then (Reverted ReentrancyGuardReentrantCall, w) else
  let w0 := withEscrow (setEntered true) w in
  if isAllowed (escrow w) a then
    if isAllowed (escrow w) b then
      if negb (a =? b) then
        if 0 <? x then
          if 0 <? y then
            let w1 := note (CallTransferFrom a sender this x) w0 in
            match transferFrom P a this sender this x w1 with
            | (Done ok, w2) =>
                if ok then
                  let c := operationCounter (escrow w2) in
                  let w3 := withEscrow (recorded (newOperation c sender a b x y)) w2 in
                  if c <? MAX_UINT256 then
                    (Done tt, finish (OperationCreated c sender a b x y)
                                (withEscrow (setOperationCounter (c + 1)) w3))
                  else (Reverted (Panic 17), w3)
                else (Reverted (SafeERC20FailedOperation a), w2)
            | (Reverted e, _) => (Reverted e, w1)
            end
          else (Reverted (ErrorString "AmountB must be greater than 0"), w0)
        else (Reverted (ErrorString "AmountA must be greater than 0"), w0)
      else (Reverted (ErrorString "Tokens must be different"), w0)
    else (Reverted (ErrorString "TokenB not allowed"), w0)
  else (Reverted (ErrorString "TokenA not allowed"), w0).
Proof.
  unfold createOperation. rewrite nonReentrant_run.
  destruct (_entered (escrow w)); [reflexivity|].
  run_head. cbv zeta. norm_store.
  repeat match goal with |- (if ?c then _ else _) = _ => destruct c; [|reflexivity] end.
  destruct (transferFrom _ _ _ _ _ _ _) as [[[|]|e] w2]; [|reflexivity|reflexivity].
  run_head. norm_store.
  destruct (_ <? MAX_UINT256); reflexivity.
Qed.

End Runs.

Lemma addToken_run sender t w :
  addToken sender t w =
  if _owner (escrow w) =? sender then
    if negb (t =? 0) then
      if negb (isAllowed (escrow w) t) then
        (Done tt,
         mkWorld (setAllowedTokensList (allowedTokensList (escrow w) ++ [t])
                    (setAllowedTokens (<[t := true]> (allowedTokens (escrow w))) (escrow w)))
                 (tokens w) (logs w ++ [TokenAdded t]) (interactions w))
      else (Reverted (ErrorString "Token already allowed"), w)
    else (Reverted (ErrorString "Invalid token address"), w)
  else (Reverted (OwnableUnauthorizedAccount sender), w).
Proof.
  unfold addToken, onlyOwner. run_head.
  repeat match goal with |- (if ?c then _ else _) = _ => destruct c; [|reflexivity] end.
  reflexivity.
Qed.

Lemma transferOwnership_run sender n w :
  transferOwnership sender n w =
  if _owner (escrow w) =? sender then
    if n =? 0 then (Reverted (OwnableInvalidOwner 0), w)
    else (Done tt,
          mkWorld (setOwner n (escrow w)) (tokens w)
                  (logs w ++ [OwnershipTransferred (_owner (escrow w)) n]) (interactions w))
  else (Reverted (OwnableUnauthorizedAccount sender), w).
Proof.
  unfold transferOwnership, _transferOwnership, onlyOwner. run_head.
  destruct (_ =? sender); [|reflexivity].
  destruct (n =? 0); reflexivity.
Qed.

Lemma renounceOwnership_run sender w :
  renounceOwnership sender w =
  if _owner (escrow w) =? sender then
    (Done tt,
     mkWorld (setOwner 0 (escrow w)) (tokens w)
             (logs w ++ [OwnershipTransferred (_owner (escrow w)) 0]) (interactions w))
  else (Reverted (OwnableUnauthorizedAccount sender), w).
Proof.
  unfold renounceOwnership, _transferOwnership, onlyOwner. run_head.
  destruct (_ =? sender); reflexivity.
Qed.

(** ** Deployment *)

Lemma deploy_store deployer t :
  escrow (deploy deployer t) = mkEscrow deployer false 0 ∅ ∅ [] [] /\
  tokens (deploy deployer t) = t /\
  interactions (deploy deployer t) = [] /\
  logs (deploy deployer t)
    = if deployer =? 0 then [] else [OwnershipTransferred 0 deployer].
Proof.
  unfold deploy, Escrow_constructor, _transferOwnership.
  destruct (N.eqb_spec deployer 0) as [->|Hd]; cbn; auto.
Qed.

Lemma escrow_deploy deployer t :
  escrow (deploy deployer t) = mkEscrow deployer false 0 ∅ ∅ [] [].
Proof. apply deploy_store. Qed.

Lemma tokens_deploy deployer t : tokens (deploy deployer t) = t.
Proof. apply deploy_store. Qed.

(** ** Message calls *)

Lemma exec_run this P sender r w :
  exec this P (sender, r) w =
  match
    match r with
    | AddToken t => addToken sender t w
    | CreateOperation a b x y => createOperation this P sender a b x y w
    | CompleteOperation k => completeOperation this P sender k w
    | CancelOperation k => cancelOperation this P sender k w
    | TransferOwnership n => transferOwnership sender n w
    | RenounceOwnership => renounceOwnership sender w
    end
  with
  | (Done _, w') => (Done [], w')
  | (Reverted e, _) => (Reverted e, w)
  end.
Proof.
  unfold exec, call, dispatch, bind, ret. cbn [fst snd].
  destruct r;
    match goal with |- _ = (let (_, _) := ?m in _) =>
      destruct m as [[[]|e] w'] end; reflexivity.
Qed.

Lemma exec_reverted this P tx w e w' :
  exec this P tx w = (Reverted e, w') -> w' = w.
Proof.
  unfold exec, call. destruct (dispatch _ _ _ _ _) as [[ret|e'] w1]; congruence.
Qed.

Lemma exec_done_returns this P tx w ret w' :
  exec this P tx w = (Done ret, w') -> ret = [].
Proof.
  destruct tx as [sender r]. rewrite exec_run.
  destruct r;
    match goal with |- (let (_, _) := ?m in _) = _ -> _ =>
      destruct m as [[[]|?] ?] end; congruence.
Qed.

Lemma step_cases this P w tx :
  (exists e, exec this P tx w = (Reverted e, w) /\ step this P w tx = w) \/
  (exec this P tx w = (Done [], step this P w tx)).
Proof.
  unfold step. destruct (exec this P tx w) as [[ret|e] w'] eqn:E; cbn [snd].
  - right. rewrite (exec_done_returns _ _ _ _ _ _ E). reflexivity.
  - left. exists e. rewrite (exec_reverted _ _ _ _ _ _ E). auto.
Qed.

(** A property of stores that holds after deployment and that every
    transaction preserves holds after every run. *)
Lemma run_invariant this P (I : World -> Prop) txs w :
  I w ->
  (forall w tx, In tx txs -> I w -> I (step this P w tx)) ->
  I (run this P txs w).
Proof.
  revert w. induction txs as [|tx txs IH]; intros w Hw Hstep; cbn.
  - exact Hw.
  - apply IH.
    + apply Hstep; [left; reflexivity | exact Hw].
    + intros w1 tx1 Hin. apply Hstep. right. exact Hin.
Qed.

(** ** Conforming tokens *)

Lemma balanceOf_setBalance token a v t tok b :
  balanceOf (setBalance token a v t) tok b =
  if bool_decide (tok = token /\ b = a) then v else balanceOf t tok b.
Proof.
  unfold balanceOf, setBalance. cbn [_balances].
  rewrite lookup_insert. case_decide as Hk; case_bool_decide as Hb; try reflexivity.
  - exfalso. apply Hb. inversion Hk. auto.
  - exfalso. apply Hk. destruct Hb; subst. reflexivity.
Qed.

Lemma _transfer_done token from to v t t' :
  _transfer token from to v t = Done t' ->
  from <> 0 /\ to <> 0 /\ v <= balanceOf t token from /\
  _allowances t' = _allowances t /\
  forall tok a, balanceOf t' tok a = moved token from to v (balanceOf t) tok a.
Proof.
  unfold _transfer.
  destruct (N.eqb_spec from 0) as [|Hf]; [discriminate|].
  destruct (N.eqb_spec to 0) as [|Ht]; [discriminate|].
  destruct (N.ltb_spec (balanceOf t token from) v) as [|Hv]; [discriminate|].
  intros [= <-]. repeat split; try assumption.
  intros tok a. unfold moved.
  rewrite !balanceOf_setBalance.
  repeat case_bool_decide; subst; try reflexivity; try tauto;
    try (exfalso; intuition congruence).
Qed.

Lemma _spendAllowance_done token owner spender v t t' :
  _spendAllowance token owner spender v t = Done t' ->
  _balances t' = _balances t.
Proof.
  unfold _spendAllowance, _approve.
  repeat match goal with |- context [if ?c then _ else _] => destruct c end;
    intros [= <-]; reflexivity.
Qed.

Lemma ERC20_transferFrom_done token spender from to v t t' :
  ERC20_transferFrom token spender from to v t = Done t' ->
  from <> 0 /\ to <> 0 /\ v <= balanceOf t token from /\
  forall tok a, balanceOf t' tok a = moved token from to v (balanceOf t) tok a.
Proof.
  unfold ERC20_transferFrom.
  destruct (_spendAllowance _ _ _ _ _) as [t1|] eqn:Hs; [|discriminate].
  intros Ht. apply _transfer_done in Ht as (Hf & Hto & Hv & _ & Hb).
  apply _spendAllowance_done in Hs.
  assert (Heq : forall tok a, balanceOf t1 tok a = balanceOf t tok a)
    by (intros; unfold balanceOf; rewrite Hs; reflexivity).
  rewrite Heq in Hv. repeat split; try assumption.
  intros tok a. rewrite Hb. unfold moved. rewrite !Heq. reflexivity.
Qed.

Lemma ERC20_transfer_done token sender to v t t' :
  ERC20_transfer token sender to v t = Done t' ->
  sender <> 0 /\ to <> 0 /\ v <= balanceOf t token sender /\
  forall tok a, balanceOf t' tok a = moved token sender to v (balanceOf t) tok a.
Proof.
  unfold ERC20_transfer. intros Ht.
  apply _transfer_done in Ht as (Hf & Hto & Hv & _ & Hb). auto.
Qed.

(** Whatever a conforming token answers when it declines is a transfer
    error. *)
Lemma _transfer_error token from to v t e :
  _transfer token from to v t = Reverted e -> kind e = TransferError.
Proof.
  unfold _transfer.
  repeat match goal with |- context [if ?c then _ else _] => destruct c end;
    intros [= <-]; reflexivity.
Qed.

Lemma ERC20_transferFrom_error token spender from to v t e :
  ERC20_transferFrom token spender from to v t = Reverted e -> kind e = TransferError.
Proof.
  unfold ERC20_transferFrom.
  destruct (_spendAllowance _ _ _ _ _) as [t1|e1] eqn:Hs.
  - apply _transfer_error.
  - intros [= <-]. revert Hs. unfold _spendAllowance, _approve.
    repeat match goal with |- context [if ?c then _ else _] => destruct c end;
      intros [= <-]; reflexivity.
Qed.

(** The calls of the conforming provider, in terms of the token storage. *)
Lemma ERC20_transferFrom_run token spender from to v w :
  transferFrom ERC20 token spender from to v w =
  match ERC20_transferFrom token spender from to v (tokens w) with
  | Done t => (Done true, withTokens t w)
  | Reverted e => (Reverted e, w)
  end.
Proof. reflexivity. Qed.

Lemma ERC20_transfer_run token sender to v w :
  transfer ERC20 token sender to v w =
  match ERC20_transfer token sender to v (tokens w) with
  | Done t => (Done true, withTokens t w)
  | Reverted e => (Reverted e, w)
  end.
Proof. reflexivity. Qed.

(** ** Successful calls against conforming tokens *)

Ltac concrete_store w :=
  destruct w as [[? ? ? ? ? ? ?] ? ? ?];
  cbn [escrow tokens logs interactions _owner _entered operationCounter
       operations allowedTokens allowedTokensList operationIds] in *.

Lemma create_done this sender a b x y w w' :
  exec this ERC20 (sender, CreateOperation a b x y) w = (Done [], w') ->
  let c := operationCounter (escrow w) in
  _entered (escrow w) = false /\
  isAllowed (escrow w) a = true /\ isAllowed (escrow w) b = true /\
  a <> b /\ 0 < x /\ 0 < y /\ c < MAX_UINT256 /\
  exists t',
    ERC20_transferFrom a this sender this x (tokens w) = Done t' /\
    w' = mkWorld
           (setOperationCounter (c + 1)
              (recorded (newOperation c sender a b x y) (escrow w)))
           t' (logs w ++ [OperationCreated c sender a b x y])
           (interactions w ++ [CallTransferFrom a sender this x]).
Proof.
  rewrite exec_run, createOperation_run. cbv zeta.
  rewrite ERC20_transferFrom_run. norm_store.
  destruct (_entered (escrow w)) eqn:Hg; [discriminate|].
  destruct (isAllowed (escrow w) a); [|discriminate].
  destruct (isAllowed (escrow w) b); [|discriminate].
  destruct (N.eqb_spec a b) as [|Hab]; [discriminate|]. cbn [negb].
  destruct (N.ltb_spec 0 x) as [Hx|]; [|discriminate].
  destruct (N.ltb_spec 0 y) as [Hy|]; [|discriminate].
  destruct (ERC20_transferFrom a this sender this x (tokens w)) as [t'|] eqn:Ht;
    [|discriminate].
  norm_store.
  destruct (N.ltb_spec (operationCounter (setEntered true (escrow w))) MAX_UINT256)
    as [Hc|]; [|discriminate].
  intros [= <-]. repeat split; try assumption.
  exists t'. split; [reflexivity|].
  concrete_store w. subst. reflexivity.
Qed.

Lemma complete_done this sender k w w' :
  exec this ERC20 (sender, CompleteOperation k) w = (Done [], w') ->
  let op := operationAt (escrow w) k in
  _entered (escrow w) = false /\
  creator op <> 0 /\ status op = Active /\ sender <> creator op /\
  exists t1 t2,
    ERC20_transferFrom (tokenB op) this sender (creator op) (amountB op) (tokens w) = Done t1 /\
    ERC20_transfer (tokenA op) this sender (amountA op) t1 = Done t2 /\
    w' = mkWorld
           (setOperations
              (<[k := setCompleter sender (setStatus Completed op)]> (operations (escrow w)))
              (escrow w))
           t2 (logs w ++ [OperationCompleted k sender])
           (interactions w ++ [CallTransferFrom (tokenB op) sender (creator op) (amountB op);
                               CallTransfer (tokenA op) sender (amountA op)]).
Proof.
  rewrite exec_run, completeOperation_run. cbv zeta.
  rewrite ERC20_transferFrom_run. norm_store.
  destruct (_entered (escrow w)) eqn:Hg; [discriminate|].
  destruct (N.eqb_spec (creator (operationAt (escrow w) k)) 0) as [|Hc]; [discriminate|].
  cbn [negb].
  case_bool_decide as Hst; [|discriminate].
  destruct (N.eqb_spec sender (creator (operationAt (escrow w) k))) as [|Hs]; [discriminate|].
  cbn [negb]. unfold completeStaged. norm_store.
  destruct (ERC20_transferFrom _ _ _ _ _ _) as [t1|] eqn:Ht1; [|discriminate].
  rewrite ERC20_transfer_run. norm_store.
  destruct (ERC20_transfer _ _ _ _ _) as [t2|] eqn:Ht2; [|discriminate].
  intros [= <-]. repeat split; try assumption.
  exists t1, t2. repeat split; try assumption.
  concrete_store w. subst. unfold finish. norm_store.
  rewrite <- app_assoc. reflexivity.
Qed.

Lemma cancel_done this sender k w w' :
  exec this ERC20 (sender, CancelOperation k) w = (Done [], w') ->
  let op := operationAt (escrow w) k in
  _entered (escrow w) = false /\
  creator op <> 0 /\ status op = Active /\ sender = creator op /\
  exists t1,
    ERC20_transfer (tokenA op) this (creator op) (amountA op) (tokens w) = Done t1 /\
    w' = mkWorld
           (setOperations
              (<[k := setStatus Cancelled op]> (operations (escrow w)))
              (escrow w))
           t1 (logs w ++ [OperationCancelled k])
           (interactions w ++ [CallTransfer (tokenA op) (creator op) (amountA op)]).
Proof.
  rewrite exec_run, cancelOperation_run. cbv zeta.
  rewrite ERC20_transfer_run. norm_store.
  destruct (_entered (escrow w)) eqn:Hg; [discriminate|].
  destruct (N.eqb_spec (creator (operationAt (escrow w) k)) 0) as [|Hc]; [discriminate|].
  cbn [negb].
  case_bool_decide as Hst; [|discriminate].
  destruct (N.eqb_spec sender (creator (operationAt (escrow w) k))) as [Hs|]; [|discriminate].
  unfold cancelStaged. norm_store.
  destruct (ERC20_transfer _ _ _ _ _) as [t1|] eqn:Ht1; [|discriminate].
  intros [= <-]. repeat split; try assumption.
  exists t1. repeat split; try assumption.
  concrete_store w. subst. reflexivity.
Qed.

Lemma addToken_done this P sender t w w' :
  exec this P (sender, AddToken t) w = (Done [], w') ->
  _owner (escrow w) = sender /\ t <> 0 /\ isAllowed (escrow w) t = false /\
  w' = mkWorld
         (setAllowedTokensList (allowedTokensList (escrow w) ++ [t])
            (setAllowedTokens (<[t := true]> (allowedTokens (escrow w))) (escrow w)))
         (tokens w) (logs w ++ [TokenAdded t]) (interactions w).
Proof.
  rewrite exec_run, addToken_run.
  destruct (N.eqb_spec (_owner (escrow w)) sender) as [Ho|]; [|discriminate].
  destruct (N.eqb_spec t 0) as [|Ht]; [discriminate|]. cbn [negb].
  destruct (isAllowed (escrow w) t); [discriminate|]. cbn [negb].
  intros [= <-]. auto.
Qed.

Lemma transferOwnership_done this P sender n w w' :
  exec this P (sender, TransferOwnership n) w = (Done [], w') ->
  _owner (escrow w) = sender /\ n <> 0 /\
  w' = mkWorld (setOwner n (escrow w)) (tokens w)
               (logs w ++ [OwnershipTransferred sender n]) (interactions w).
Proof.
  rewrite exec_run, transferOwnership_run.
  destruct (N.eqb_spec (_owner (escrow w)) sender) as [Ho|]; [|discriminate].
  destruct (N.eqb_spec n 0) as [|Hn]; [discriminate|].
  intros [= <-]. rewrite Ho. auto.
Qed.

Lemma renounceOwnership_done this P sender w w' :
  exec this P (sender, RenounceOwnership) w = (Done [], w') ->
  _owner (escrow w) = sender /\
  w' = mkWorld (setOwner 0 (escrow w)) (tokens w)
               (logs w ++ [OwnershipTransferred sender 0]) (interactions w).
Proof.
  rewrite exec_run, renounceOwnership_run.
  destruct (N.eqb_spec (_owner (escrow w)) sender) as [Ho|]; [|discriminate].
  intros [= <-]. rewrite Ho. auto.
Qed.

(** ** Well-formed storage is an invariant *)

Lemma idsUpTo_succ c : idsUpTo (c + 1) = idsUpTo c ++ [c].
Proof.
  unfold idsUpTo. replace (N.to_nat (c + 1)) with (S (N.to_nat c)) by lia.
  rewrite seq_S, map_app. cbn [map Nat.add]. rewrite N2Nat.id. reflexivity.
Qed.

Lemma length_idsUpTo c : length (idsUpTo c) = N.to_nat c.
Proof. unfold idsUpTo. rewrite length_map, length_seq. reflexivity. Qed.

Lemma lookup_idsUpTo c i :
  (i < N.to_nat c)%nat -> idsUpTo c !! i = Some (N.of_nat i).
Proof.
  intros Hi. unfold idsUpTo. rewrite list_lookup_fmap.
  rewrite lookup_seq_lt by exact Hi. reflexivity.
Qed.

(** A record whose [creator] is set has been written. *)
Lemma operationAt_exists e k :
  creator (operationAt e k) <> 0 -> operations e !! k = Some (operationAt e k).
Proof.
  unfold operationAt. destruct (operations e !! k) as [op|]; cbn; [reflexivity|].
  intros H. exfalso. apply H. reflexivity.
Qed.

Lemma operationAt_lookup e k op :
  operations e !! k = Some op -> operationAt e k = op.
Proof. unfold operationAt. intros ->. reflexivity. Qed.

Lemma wf_deploy deployer t : WellFormed (escrow (deploy deployer t)).
Proof.
  rewrite escrow_deploy. split; cbn.
  - reflexivity.
  - reflexivity.
  - intros k. rewrite lookup_empty. split; [intros [? ?]; discriminate | lia].
  - intros k op. rewrite lookup_empty. discriminate.
Qed.

Lemma wf_update e k f :
  WellFormed e ->
  creator (operationAt e k) <> 0 ->
  id (f (operationAt e k)) = id (operationAt e k) ->
  creator (f (operationAt e k)) = creator (operationAt e k) ->
  status (f (operationAt e k)) <> Active ->
  WellFormed (setOperations (<[k := f (operationAt e k)]> (operations e)) e).
Proof.
  intros [Hg Hids Hdom Hrec] Hc Hid Hcr Hst.
  pose proof (operationAt_exists e k Hc) as Hk.
  split; cbn [_entered operationIds operationCounter operations setOperations].
  - exact Hg.
  - exact Hids.
  - intros j. rewrite lookup_insert. case_decide; subst.
    + split; [intros _; apply Hdom; eauto | eauto].
    + apply Hdom.
  - intros j op. rewrite lookup_insert. case_decide; subst.
    + intros [= <-]. destruct (Hrec _ _ Hk) as (H1 & H2 & _).
      rewrite Hid, Hcr. repeat split; try assumption. intros; contradiction.
    + apply Hrec.
Qed.

Lemma wf_step this w tx :
  WellFormed (escrow w) -> WellFormed (escrow (step this ERC20 w tx)).
Proof.
  intros Hwf.
  destruct (step_cases this ERC20 w tx) as [(e & _ & ->)|Hdone]; [exact Hwf|].
  destruct tx as [sender [t|a b x y|k|k|n|]].
  - apply addToken_done in Hdone as (_ & _ & _ & ->).
    destruct Hwf. split; assumption.
  - apply create_done in Hdone as (_ & _ & _ & _ & _ & _ & Hc & t' & Ht & ->).
    apply ERC20_transferFrom_done in Ht as (Hs & _).
    destruct Hwf as [Hg Hids Hdom Hrec].
    split; cbn [escrow _entered operationIds operationCounter operations
                setOperationCounter recorded setOperationIds setOperations
                newOperation id].
    + exact Hg.
    + rewrite idsUpTo_succ, Hids. reflexivity.
    + intros j. rewrite lookup_insert. case_decide; subst.
      * split; [lia | eauto].
      * rewrite Hdom. lia.
    + intros j op. rewrite lookup_insert. case_decide; subst.
      * intros [= <-]. cbn. auto.
      * apply Hrec.
  - apply complete_done in Hdone as (_ & Hc & _ & _ & t1 & t2 & _ & _ & ->).
    cbn [escrow]. apply (wf_update _ _ (fun op => setCompleter sender (setStatus Completed op)));
      try assumption; try reflexivity. cbn. discriminate.
  - apply cancel_done in Hdone as (_ & Hc & _ & _ & t1 & _ & ->).
    cbn [escrow]. apply (wf_update _ _ (setStatus Cancelled));
      try assumption; try reflexivity. cbn. discriminate.
  - apply transferOwnership_done in Hdone as (_ & _ & ->).
    destruct Hwf. split; assumption.
  - apply renounceOwnership_done in Hdone as (_ & ->).
    destruct Hwf. split; assumption.
Qed.

Lemma wf_run this deployer t txs :
  WellFormed (escrow (run this ERC20 txs (deploy deployer t))).
Proof.
  apply (run_invariant this ERC20 (fun w => WellFormed (escrow w))).
  - apply wf_deploy.
  - intros w tx _. apply wf_step.
Qed.

(** ** Existence and the counter *)

(** C10. In every store reached from deployment, the record of [k] exists
    (its [creator] is set, so [getOperation k] returns it) exactly when
    [k < getOperationCount()]; [getAllOperations()] has [getOperationCount()]
    entries, in creation order, and the entry at position [i] is the record
    of id [i]. *)
Theorem C10_existence_coincides_with_counter this deployer t txs :
  let e := escrow (run this ERC20 txs (deploy deployer t)) in
  (forall k, creator (operationAt e k) <> 0 <-> k < getOperationCount e) /\
  (forall k, getOperation e k = Done (operationAt e k) <-> k < getOperationCount e) /\
  length (getAllOperations e) = N.to_nat (getOperationCount e) /\
  (forall i, i < getOperationCount e ->
     getAllOperations e !! N.to_nat i = Some (operationAt e i) /\
     id (operationAt e i) = i).
Proof.
  intros e. destruct (wf_run this deployer t txs) as [Hg Hids Hdom Hrec].
  fold e in Hg, Hids, Hdom, Hrec. unfold getOperationCount.
  assert (Hex : forall k, creator (operationAt e k) <> 0 <-> k < operationCounter e).
  { intros k. split.
    - intros Hc. apply Hdom. rewrite (operationAt_exists e k Hc). eauto.
    - intros Hk. apply Hdom in Hk as [op Hop].
      rewrite (operationAt_lookup _ _ _ Hop). apply (Hrec _ _ Hop). }
  repeat split.
  - apply Hex.
  - apply Hex.
  - unfold getOperation. intros Hd.
    destruct (N.eqb_spec (creator (operationAt e k)) 0) as [|Hc]; [discriminate|].
    apply Hex. exact Hc.
  - unfold getOperation. intros Hk. apply Hex in Hk.
    destruct (N.eqb_spec (creator (operationAt e k)) 0); [contradiction|reflexivity].
  - unfold getAllOperations. rewrite length_map, Hids, length_idsUpTo. reflexivity.
  - unfold getAllOperations. rewrite list_lookup_fmap, Hids.
    rewrite lookup_idsUpTo by lia. rewrite N2Nat.id. reflexivity.
  - apply Hdom in H as [op Hop]. rewrite (operationAt_lookup _ _ _ Hop).
    apply (Hrec _ _ Hop).
Qed.

(** ** Conservation of custody *)

Lemma activeSum_empty X : activeSum X ∅ = 0.
Proof. unfold activeSum. apply map_fold_empty. Qed.

Lemma activeSum_insert_fresh X k op (ops : gmap N Operation) :
  ops !! k = None ->
  activeSum X (<[k := op]> ops) = custodyOf X op + activeSum X ops.
Proof.
  intros Hk. unfold activeSum.
  apply (map_fold_insert_L (fun _ o acc => custodyOf X o + acc)); [|exact Hk].
  intros. lia.
Qed.

Lemma activeSum_insert_existing X k old new (ops : gmap N Operation) :
  ops !! k = Some old ->
  activeSum X (<[k := new]> ops) + custodyOf X old = custodyOf X new + activeSum X ops.
Proof.
  intros Hk.
  rewrite <- (insert_delete_eq ops k new).
  rewrite <- (insert_delete_id ops k old Hk) at 2.
  rewrite !activeSum_insert_fresh by apply lookup_delete_eq. lia.
Qed.

Lemma holdsNothing_spec this t :
  holdsNothing this t = true -> forall X, balanceOf t X this = 0.
Proof.
  unfold holdsNothing. intros H X. apply bool_decide_eq_true in H.
  unfold balanceOf. destruct (_balances t !! (X, this)) as [v|] eqn:Hv; [|reflexivity].
  cbn. apply (H _ _ Hv). reflexivity.
Qed.

Lemma external_spec this txs tx :
  external this txs = true -> In tx txs -> fst tx <> this.
Proof.
  unfold external. rewrite forallb_forall. intros H Hin.
  specialize (H tx Hin). destruct (N.eqb_spec (fst tx) this); [discriminate|assumption].
Qed.

Lemma conserved_deploy this deployer t :
  holdsNothing this t = true -> Conserved this (deploy deployer t).
Proof.
  intros H. split; rewrite ?escrow_deploy, ?tokens_deploy; cbn.
  - intros X. rewrite activeSum_empty. apply holdsNothing_spec. exact H.
  - intros k op. rewrite lookup_empty. discriminate.
Qed.

Lemma custodyOf_active X op :
  status op = Active -> custodyOf X op = if tokenA op =? X then amountA op else 0.
Proof. unfold custodyOf. intros ->. reflexivity. Qed.

Lemma custodyOf_inactive X op : status op <> Active -> custodyOf X op = 0.
Proof. unfold custodyOf. intros H. case_bool_decide; [contradiction|reflexivity]. Qed.

Lemma conserved_step this w tx :
  fst tx <> this ->
  WellFormed (escrow w) -> Conserved this w ->
  Conserved this (step this ERC20 w tx).
Proof.
  intros Hext Hwf [Hbal Hcr].
  destruct (step_cases this ERC20 w tx) as [(e & _ & ->)|Hdone]; [split; assumption|].
  destruct tx as [sender [t|a b x y|k|k|n|]]; cbn [fst] in Hext.
  - apply addToken_done in Hdone as (_ & _ & _ & ->). split; assumption.
  - apply create_done in Hdone as (_ & _ & _ & _ & _ & _ & _ & t' & Ht & ->).
    apply ERC20_transferFrom_done in Ht as (_ & _ & _ & Hmv).
    assert (Hfresh : operations (escrow w) !! operationCounter (escrow w) = None).
    { destruct (operations (escrow w) !! operationCounter (escrow w)) eqn:Hl; [|reflexivity].
      assert (Hs : is_Some (operations (escrow w) !! operationCounter (escrow w))) by eauto.
      apply (wf_dom _ Hwf) in Hs. lia. }
    split; cbn [escrow tokens operations setOperationCounter recorded
                setOperationIds setOperations newOperation id].
    + intros X. rewrite activeSum_insert_fresh by exact Hfresh.
      rewrite Hmv, <- Hbal. rewrite custodyOf_active by reflexivity.
      unfold moved. cbn [tokenA amountA newOperation].
      destruct (N.eqb_spec a X); repeat case_bool_decide; subst; try congruence; lia.
    + intros j op. rewrite lookup_insert. case_decide; subst.
      * intros [= <-]. exact Hext.
      * apply Hcr.
  - apply complete_done in Hdone as (_ & Hc & Hst & _ & t1 & t2 & Ht1 & Ht2 & ->).
    pose proof (operationAt_exists _ _ Hc) as Hk.
    set (op := operationAt (escrow w) k) in *.
    pose proof (Hcr _ _ Hk) as Hcthis.
    apply ERC20_transferFrom_done in Ht1 as (_ & _ & _ & Hmv1).
    apply ERC20_transfer_done in Ht2 as (_ & _ & Hle & Hmv2).
    split; cbn [escrow tokens operations setOperations].
    + intros X.
      pose proof (activeSum_insert_existing X k op
                    (setCompleter sender (setStatus Completed op)) _ Hk) as Hsum.
      rewrite custodyOf_active in Hsum by exact Hst.
      rewrite (custodyOf_inactive X (setCompleter _ _)) in Hsum by (cbn; discriminate).
      rewrite Hmv2. rewrite Hmv1 in Hle. unfold moved in *. rewrite Hmv1.
      pose proof (Hbal X) as HbX. pose proof (Hbal (tokenA op)) as HbA.
      unfold moved.
      destruct (N.eqb_spec (tokenA op) X); repeat case_bool_decide; subst;
        try congruence; lia.
    + intros j o. rewrite lookup_insert. case_decide; subst.
      * intros [= <-]. exact Hcthis.
      * apply Hcr.
  - apply cancel_done in Hdone as (_ & Hc & Hst & _ & t1 & Ht1 & ->).
    pose proof (operationAt_exists _ _ Hc) as Hk.
    set (op := operationAt (escrow w) k) in *.
    pose proof (Hcr _ _ Hk) as Hcthis.
    apply ERC20_transfer_done in Ht1 as (_ & _ & Hle & Hmv1).
    split; cbn [escrow tokens operations setOperations].
    + intros X.
      pose proof (activeSum_insert_existing X k op (setStatus Cancelled op) _ Hk) as Hsum.
      rewrite custodyOf_active in Hsum by exact Hst.
      rewrite (custodyOf_inactive X (setStatus _ _)) in Hsum by (cbn; discriminate).
      rewrite Hmv1. unfold moved.
      pose proof (Hbal X) as HbX. pose proof (Hbal (tokenA op)) as HbA.
      destruct (N.eqb_spec (tokenA op) X); repeat case_bool_decide; subst;
        try congruence; lia.
    + intros j o. rewrite lookup_insert. case_decide; subst.
      * intros [= <-]. exact Hcthis.
      * apply Hcr.
  - apply transferOwnership_done in Hdone as (_ & _ & ->). split; assumption.
  - apply renounceOwnership_done in Hdone as (_ & ->). split; assumption.
Qed.

(** C1. Conservation of custody: when the contract starts with no tokens
    and is only called from outside, then after any sequence of [addToken],
    [createOperation], [completeOperation] and [cancelOperation] calls against
    conforming tokens its balance of each asset [X] is the sum of [amountA]
    over the [Active] operations whose [tokenA] is [X]. *)
Theorem C1_conservation_of_custody this deployer t txs :
  holdsNothing this t = true ->
  external this txs = true ->
  forall X,
    let w := run this ERC20 txs (deploy deployer t) in
    balanceOf (tokens w) X this = activeSum X (operations (escrow w)).
Proof.
  intros Hzero Hext X w.
  assert (H : WellFormed (escrow w) /\ Conserved this w).
  { apply (run_invariant this ERC20 (fun w => WellFormed (escrow w) /\ Conserved this w)).
    - split; [apply wf_deploy | apply conserved_deploy; exact Hzero].
    - intros w1 tx Hin [Hwf Hc]. split.
      + apply wf_step. exact Hwf.
      + apply conserved_step; try assumption.
        apply (external_spec this txs); assumption. }
  destruct H as [_ [Hbal _]]. apply Hbal.
Qed.

(** C1 at the sample run: two operations are created and the first is
    completed; the contract is left holding the 20 units of the second. *)
Lemma C1_conservation_of_custody_witness :
  holdsNothing 100 sampleTokens = true /\
  external 100 sampleTxs = true /\
  let w := run 100 ERC20 sampleTxs (deploy 9 sampleTokens) in
  balanceOf (tokens w) 7 100 = activeSum 7 (operations (escrow w)).
Proof.
  split; [vm_compute; reflexivity|]. split; [vm_compute; reflexivity|].
  apply (C1_conservation_of_custody 100 9 sampleTokens sampleTxs);
    vm_compute; reflexivity.
Defined.

(** ** Authorization *)

(** C4. For every existing [Active] operation of a store reached from
    deployment, [completeOperation] sent by the operation's creator and
    [cancelOperation] sent by anyone else both revert with an authorization
    error and leave the store as it was, whatever the tokens do. *)
Theorem C4_authorization this P deployer t txs k other :
  let w := run this ERC20 txs (deploy deployer t) in
  let op := operationAt (escrow w) k in
  creator op <> 0 ->
  status op = Active ->
  other <> creator op ->
  exec this P (creator op, CompleteOperation k) w
    = (Reverted (ErrorString "Creator cannot complete own operation"), w) /\
  exec this P (other, CancelOperation k) w
    = (Reverted (ErrorString "Only creator can cancel"), w) /\
  kind (ErrorString "Creator cannot complete own operation") = AuthorizationError /\
  kind (ErrorString "Only creator can cancel") = AuthorizationError.
Proof.
  intros w op Hc Hst Ho.
  pose proof (wf_guard _ (wf_run this deployer t txs)) as Hg. fold w in Hg.
  repeat split.
  - rewrite exec_run, completeOperation_run, Hg. cbv zeta. fold op.
    destruct (N.eqb_spec (creator op) 0); [contradiction|]. cbn [negb].
    rewrite bool_decide_eq_true_2 by exact Hst.
    rewrite N.eqb_refl. reflexivity.
  - rewrite exec_run, cancelOperation_run, Hg. cbv zeta. fold op.
    destruct (N.eqb_spec (creator op) 0); [contradiction|]. cbn [negb].
    rewrite bool_decide_eq_true_2 by exact Hst.
    destruct (N.eqb_spec other (creator op)); [contradiction|]. reflexivity.
Qed.

(** C4 at the sample: operation [0] was created by account [1]. *)
Lemma C4_authorization_witness :
  let w := run 100 ERC20 sampleSetup (deploy 9 sampleTokens) in
  creator (operationAt (escrow w) 0) = 1 /\
  exec 100 ERC20 (1, CompleteOperation 0) w
    = (Reverted (ErrorString "Creator cannot complete own operation"), w) /\
  exec 100 ERC20 (2, CancelOperation 0) w
    = (Reverted (ErrorString "Only creator can cancel"), w).
Proof.
  split; [vm_compute; reflexivity|].
  pose proof (C4_authorization 100 ERC20 9 sampleTokens sampleSetup 0 2) as H.
  cbv zeta in H.
  destruct H as (H1 & H2 & _); [vm_compute; discriminate | vm_compute; reflexivity
                               | vm_compute; discriminate | ].
  split; [exact H1 | exact H2].
Defined.

(** ** Validation *)

(** C7. In a store reached from deployment, a [createOperation] whose
    [tokenA] or [tokenB] is not allowlisted, whose tokens are equal, or one
    of whose amounts is zero reverts with a validation error and the store is
    as before.  At the point of failure nothing but the guard's own flag has
    been written: no outgoing call was made and no record, id or counter
    value was stored, whatever the tokens would have done. *)
Theorem C7_validation_precedes_effects this P deployer t txs sender a b x y :
  let w := run this ERC20 txs (deploy deployer t) in
  isAllowed (escrow w) a = false \/ isAllowed (escrow w) b = false \/
  a = b \/ x = 0 \/ y = 0 ->
  exists e,
    kind e = ValidationError /\
    exec this P (sender, CreateOperation a b x y) w = (Reverted e, w) /\
    createOperation this P sender a b x y w
      = (Reverted e, withEscrow (setEntered true) w) /\
    interactions (snd (createOperation this P sender a b x y w)) = interactions w /\
    operations (escrow (snd (createOperation this P sender a b x y w)))
      = operations (escrow w).
Proof.
  intros w Hbad.
  pose proof (wf_guard _ (wf_run this deployer t txs)) as Hg. fold w in Hg.
  rewrite exec_run, createOperation_run, Hg. cbv zeta.
  destruct (isAllowed (escrow w) a);
    [|eexists; repeat split; reflexivity].
  destruct (isAllowed (escrow w) b);
    [|eexists; repeat split; reflexivity].
  destruct (N.eqb_spec a b) as [|Hab];
    [eexists; repeat split; reflexivity|]. cbn [negb].
  destruct (N.ltb_spec 0 x) as [Hx|];
    [|eexists; repeat split; reflexivity].
  destruct (N.ltb_spec 0 y) as [Hy|];
    [|eexists; repeat split; reflexivity].
  exfalso. destruct Hbad as [H|[H|[H|[H|H]]]]; try discriminate; try contradiction; lia.
Qed.

(** C7 at the sample: token [5] is not allowlisted. *)
Lemma C7_validation_precedes_effects_witness :
  let w := run 100 ERC20 sampleSetup (deploy 9 sampleTokens) in
  isAllowed (escrow w) 5 = false /\
  exists e,
    kind e = ValidationError /\
    exec 100 ERC20 (1, CreateOperation 5 8 10 10) w = (Reverted e, w) /\
    createOperation 100 ERC20 1 5 8 10 10 w
      = (Reverted e, withEscrow (setEntered true) w) /\
    interactions (snd (createOperation 100 ERC20 1 5 8 10 10 w)) = interactions w /\
    operations (escrow (snd (createOperation 100 ERC20 1 5 8 10 10 w)))
      = operations (escrow w).
Proof.
  split; [vm_compute; reflexivity|].
  apply (C7_validation_precedes_effects 100 ERC20 9 sampleTokens sampleSetup 1 5 8 10 10).
  left. vm_compute. reflexivity.
Defined.

(** ** Reentrancy *)

(** With the guard engaged, the three [nonReentrant] entry points revert at
    once, whatever the tokens are. *)
Lemma guard_rejects this P sender r w :
  _entered (escrow w) = true ->
  guarded r = true ->
  exec this P (sender, r) w = (Reverted ReentrancyGuardReentrantCall, w).
Proof.
  intros Hg Hr. rewrite exec_run. destruct r; try discriminate.
  - rewrite createOperation_run, Hg. reflexivity.
  - rewrite completeOperation_run, Hg. reflexivity.
  - rewrite cancelOperation_run, Hg. reflexivity.
Qed.







(** There the outer [completeOperation] goes through: operation [0] ends
    [Completed] by account [2]. *)
Example reentrant_complete_succeeds :
  let w0 := run 100 ERC20 sampleSetup (deploy 9 sampleTokens) in
  let r := exec 100 (Reentrant 100 [CompleteOperation 0; CancelOperation 0])
                (2, CompleteOperation 0) w0 in
  fst r = Done [] /\
  status (operationAt (escrow (snd r)) 0) = Completed /\
  completer (operationAt (escrow (snd r)) 0) = 2.
Proof. cbv zeta. repeat split; vm_compute; reflexivity. Qed.


(** ** Atomicity of [completeOperation] *)

(** Once its checks have passed, [completeOperation] ends as its two
    transfers end: both are made in a store where the record already says
    [Completed], and the first failure is the failure of the call. *)
Lemma completeOperation_transfers this P sender k w :
  let op := operationAt (escrow w) k in
  _entered (escrow w) = false ->
  creator op <> 0 -> status op = Active -> sender <> creator op ->
  completeOperation this P sender k w =
  match safeTransferFrom this P (tokenB op) sender (creator op) (amountB op)
          (completeStaged sender k w) with
  | (Done _, w2) =>
      let op2 := operationAt (escrow w2) k in
      match safeTransfer this P (tokenA op2) sender (amountA op2) w2 with
      | (Done _, w3) => (Done tt, finish (OperationCompleted k sender) w3)
      | (Reverted e, w3) => (Reverted e, w3)
      end
  | (Reverted e, w2) => (Reverted e, w2)
  end.
Proof.
  intros op Hg Hc Hst Hs.
  rewrite completeOperation_run, safeTransferFrom_run, Hg. cbv zeta. fold op.
  destruct (N.eqb_spec (creator op) 0); [contradiction|]. cbn [negb].
  rewrite bool_decide_eq_true_2 by exact Hst.
  destruct (N.eqb_spec sender (creator op)); [contradiction|]. cbn [negb].
  destruct (transferFrom P _ _ _ _ _ _) as [[[|]|e] w2]; [|reflexivity|reflexivity].
  rewrite safeTransfer_run.
  destruct (transfer P _ _ _ _ _) as [[[|]|e] w3]; reflexivity.
Qed.

(** With conforming tokens the record says [Completed] at the point where
    a transfer of [completeOperation] is declined. *)
Lemma complete_failure_point this sender k w e :
  let op := operationAt (escrow w) k in
  _entered (escrow w) = false ->
  creator op <> 0 -> status op = Active -> sender <> creator op ->
  fst (completeOperation this ERC20 sender k w) = Reverted e ->
  kind e = TransferError /\
  let failed := snd (completeOperation this ERC20 sender k w) in
  status (operationAt (escrow failed) k) = Completed /\
  completer (operationAt (escrow failed) k) = sender.
Proof.
  intros op Hg Hc Hst Hs.
  rewrite completeOperation_run, Hg. cbv zeta. fold op.
  destruct (N.eqb_spec (creator op) 0); [contradiction|]. cbn [negb].
  rewrite bool_decide_eq_true_2 by exact Hst.
  destruct (N.eqb_spec sender (creator op)); [contradiction|]. cbn [negb].
  rewrite ERC20_transferFrom_run. norm_store.
  destruct (ERC20_transferFrom _ _ _ _ _ _) as [t1|e1] eqn:Ht1.
  - rewrite ERC20_transfer_run. norm_store.
    destruct (ERC20_transfer _ _ _ _ _) as [t2|e2] eqn:Ht2; [discriminate|].
    cbn [fst snd]. intros [= <-]. split; [apply (_transfer_error _ _ _ _ _ _ Ht2)|].
    unfold completeStaged. norm_store. auto.
  - cbn [fst snd]. intros [= <-].
    split; [apply (ERC20_transferFrom_error _ _ _ _ _ _ _ Ht1)|].
    unfold completeStaged. norm_store. auto.
Qed.

(** C2. In a store reached from deployment, take a [completeOperation]
    whose checks pass.  When the payment of [tokenB] or, after it, the
    payout of [tokenA] fails with [e] (the token reverts with [e], or returns
    without success and [e] is [SafeERC20FailedOperation]), the call reverts
    with [e] and the store is exactly as before the call, whatever the
    tokens did until then: the record is [Active] with no completer and no
    balance has moved.  Yet both transfers are made in a store where the
    record says [Completed] with the caller as completer: the write comes
    first and is undone with the call.  With conforming tokens every such
    failure is a transfer error. *)
Theorem C2_atomicity_of_completeOperation this P deployer t txs sender k e :
  let w := run this ERC20 txs (deploy deployer t) in
  let op := operationAt (escrow w) k in
  let staged := completeStaged sender k w in
  let pay := safeTransferFrom this P (tokenB op) sender (creator op) (amountB op) staged in
  let payout :=
    safeTransfer this P (tokenA (operationAt (escrow (snd pay)) k)) sender
                 (amountA (operationAt (escrow (snd pay)) k)) (snd pay) in
  let w' := step this P w (sender, CompleteOperation k) in
  creator op <> 0 -> status op = Active -> sender <> creator op ->
  fst pay = Reverted e \/ (fst pay = Done tt /\ fst payout = Reverted e) ->
  exec this P (sender, CompleteOperation k) w = (Reverted e, w) /\
  w' = w /\
  status (operationAt (escrow w') k) = Active /\
  completer (operationAt (escrow w') k) = 0 /\
  (forall tok a, balanceOf (tokens w') tok a = balanceOf (tokens w) tok a) /\
  status (operationAt (escrow staged) k) = Completed /\
  completer (operationAt (escrow staged) k) = sender /\
  (forall e',
     fst (completeOperation this ERC20 sender k w) = Reverted e' ->
     kind e' = TransferError /\
     let failed := snd (completeOperation this ERC20 sender k w) in
     status (operationAt (escrow failed) k) = Completed /\
     completer (operationAt (escrow failed) k) = sender).
Proof.
  intros w op staged pay payout w' Hc Hst Hs Hfail.
  pose proof (wf_run this deployer t txs) as Hwf. fold w in Hwf.
  pose proof (wf_guard _ Hwf) as Hg.
  assert (Hexec : exec this P (sender, CompleteOperation k) w = (Reverted e, w)).
  { rewrite exec_run, (completeOperation_transfers this P sender k w Hg Hc Hst Hs).
    cbv zeta. fold op staged pay.
    destruct Hfail as [H1|[H1 H2]].
    - destruct pay as [[[]|e1] w2]; cbn [fst] in H1; [discriminate|].
      injection H1 as ->. reflexivity.
    - unfold payout in H2. destruct pay as [[[]|e1] w2]; cbn [fst snd] in H1, H2;
        [|discriminate].
      destruct (safeTransfer this P _ _ _ w2) as [[[]|e2] w3]; cbn [fst] in H2;
        [discriminate|].
      injection H2 as ->. reflexivity. }
  assert (Hstep : w' = w) by (unfold w', step; rewrite Hexec; reflexivity).
  split; [exact Hexec|]. split; [exact Hstep|]. rewrite Hstep.
  split; [exact Hst|].
  split; [apply (wf_rec _ Hwf k); [apply operationAt_exists; exact Hc | exact Hst]|].
  split; [reflexivity|].
  unfold staged, completeStaged. norm_store.
  split; [reflexivity|]. split; [reflexivity|].
  intros e'. apply complete_failure_point; assumption.
Qed.

(** C2 at the sample.  Account [3] has neither tokens nor allowance, so
    token [8] reverts on the payment; and with a token [7] that returns
    [false] on the payout, the payment account [2] has made is undone. *)
Lemma C2_atomicity_of_completeOperation_witness :
  let w := run 100 ERC20 sampleSetup (deploy 9 sampleTokens) in
  exec 100 ERC20 (3, CompleteOperation 0) w
    = (Reverted (ERC20InsufficientAllowance 100 0 50), w) /\
  exec 100 Refusing (2, CompleteOperation 0) w
    = (Reverted (SafeERC20FailedOperation 7), w) /\
  status (operationAt (escrow (step 100 Refusing w (2, CompleteOperation 0))) 0) = Active /\
  completer (operationAt (escrow (step 100 Refusing w (2, CompleteOperation 0))) 0) = 0.
Proof.
  cbv zeta.
  destruct (C2_atomicity_of_completeOperation 100 ERC20 9 sampleTokens sampleSetup 3 0
              (ERC20InsufficientAllowance 100 0 50)) as (H1 & _);
    [vm_compute; discriminate | vm_compute; reflexivity | vm_compute; discriminate
    | left; vm_compute; reflexivity |].
  destruct (C2_atomicity_of_completeOperation 100 Refusing 9 sampleTokens sampleSetup 2 0
              (SafeERC20FailedOperation 7)) as (H2 & _ & H3 & H4 & _);
    [vm_compute; discriminate | vm_compute; reflexivity | vm_compute; discriminate
    | right; split; vm_compute; reflexivity |].
  split; [exact H1|]. split; [exact H2|]. split; [exact H3 | exact H4].
Defined.

(** The same failed calls seen from inside: the record said [Completed]
    when the transfer was declined, and the payment of 50 had reached
    account [1] when the payout was refused. *)
Example declined_complete_had_written :
  let w := run 100 ERC20 sampleSetup (deploy 9 sampleTokens) in
  let failed := snd (completeOperation 100 ERC20 3 0 w) in
  let refused := snd (completeOperation 100 Refusing 2 0 w) in
  status (operationAt (escrow failed) 0) = Completed /\
  completer (operationAt (escrow failed) 0) = 3 /\
  status (operationAt (escrow (step 100 ERC20 w (3, CompleteOperation 0))) 0) = Active /\
  status (operationAt (escrow refused) 0) = Completed /\
  balanceOf (tokens refused) 8 1 = 50 /\
  balanceOf (tokens (step 100 Refusing w (2, CompleteOperation 0))) 8 1 = 0.
Proof. cbv zeta. repeat split; vm_compute; reflexivity. Qed.

(** ** Single terminal transition *)

(** In well-formed storage a record that is not [Active] has been created. *)
Lemma inactive_exists e k :
  WellFormed e ->
  status (operationAt e k) <> Active ->
  operations e !! k = Some (operationAt e k) /\ creator (operationAt e k) <> 0.
Proof.
  intros Hwf Hst. unfold operationAt in *.
  destruct (operations e !! k) as [op|] eqn:Hk; cbn in *.
  - split; [reflexivity|]. apply (wf_rec _ Hwf k op Hk).
  - exfalso. apply Hst. reflexivity.
Qed.

(** A record that has left [Active] rejects both terminal transitions. *)
Lemma terminal_rejected this P sender k w :
  WellFormed (escrow w) ->
  status (operationAt (escrow w) k) <> Active ->
  exec this P (sender, CompleteOperation k) w
    = (Reverted (ErrorString "Operation not active"), w) /\
  exec this P (sender, CancelOperation k) w
    = (Reverted (ErrorString "Operation not active"), w).
Proof.
  intros Hwf Hst.
  destruct (inactive_exists _ _ Hwf Hst) as [_ Hc].
  pose proof (wf_guard _ Hwf) as Hg.
  rewrite !exec_run, completeOperation_run, cancelOperation_run, Hg. cbv zeta.
  destruct (N.eqb_spec (creator (operationAt (escrow w) k)) 0); [contradiction|].
  cbn [negb]. rewrite bool_decide_eq_false_2 by exact Hst. split; reflexivity.
Qed.

(** No transaction brings a record back to [Active]. *)
Lemma inactive_stable this w tx k :
  WellFormed (escrow w) ->
  status (operationAt (escrow w) k) <> Active ->
  status (operationAt (escrow (step this ERC20 w tx)) k) <> Active.
Proof.
  intros Hwf Hst.
  destruct (inactive_exists _ _ Hwf Hst) as [Hk _].
  destruct (step_cases this ERC20 w tx) as [(e & _ & ->)|Hdone]; [exact Hst|].
  destruct tx as [sender [tk|a b x y|j|j|n|]].
  - apply addToken_done in Hdone as (_ & _ & _ & ->). exact Hst.
  - apply create_done in Hdone as (_ & _ & _ & _ & _ & _ & _ & t' & _ & ->).
    assert (Hlt : k < operationCounter (escrow w)) by (apply (wf_dom _ Hwf); eauto).
    unfold operationAt.
    cbn [escrow operations setOperationCounter recorded setOperationIds
         setOperations newOperation id].
    rewrite lookup_insert_ne by lia. exact Hst.
  - apply complete_done in Hdone as (_ & _ & Hact & _ & t1 & t2 & _ & _ & ->).
    unfold operationAt at 1. cbn [escrow operations setOperations].
    rewrite lookup_insert. case_decide; subst; [cbn; discriminate | exact Hst].
  - apply cancel_done in Hdone as (_ & _ & Hact & _ & t1 & _ & ->).
    unfold operationAt at 1. cbn [escrow operations setOperations].
    rewrite lookup_insert. case_decide; subst; [cbn; discriminate | exact Hst].
  - apply transferOwnership_done in Hdone as (_ & _ & ->). exact Hst.
  - apply renounceOwnership_done in Hdone as (_ & ->). exact Hst.
Qed.

(** A terminal transition that goes through leaves the record not [Active]. *)
Lemma terminal_done_inactive this w sender r k w' :
  terminalOn k r = true ->
  exec this ERC20 (sender, r) w = (Done [], w') ->
  status (operationAt (escrow w') k) <> Active.
Proof.
  intros Hr Hdone. destruct r as [tk|a b x y|j|j|n|]; try discriminate;
    cbn in Hr; apply N.eqb_eq in Hr; subst j.
  - apply complete_done in Hdone as (_ & _ & _ & _ & t1 & t2 & _ & _ & ->).
    cbn [escrow]. rewrite operationAt_written. cbn. discriminate.
  - apply cancel_done in Hdone as (_ & _ & _ & _ & t1 & _ & ->).
    cbn [escrow]. rewrite operationAt_written. cbn. discriminate.
Qed.

Lemma succeeded_cons this P tx txs w :
  succeeded this P (tx :: txs) w =
  (if isDone (fst (exec this P tx w)) then [tx] else [])
    ++ succeeded this P txs (step this P w tx).
Proof. reflexivity. Qed.

(** Once the record is not [Active], no later terminal transition succeeds. *)
Lemma no_terminal_after this k txs : forall w,
  WellFormed (escrow w) ->
  status (operationAt (escrow w) k) <> Active ->
  List.filter (fun tx => terminalOn k (snd tx)) (succeeded this ERC20 txs w) = [].
Proof.
  induction txs as [|[sender r] txs IH]; intros w Hwf Hst; [reflexivity|].
  rewrite succeeded_cons, List.filter_app.
  rewrite (IH _ (wf_step this w _ Hwf) (inactive_stable this w _ k Hwf Hst)).
  rewrite app_nil_r.
  destruct (isDone (fst (exec this ERC20 (sender, r) w))) eqn:Hd; [|reflexivity].
  destruct (terminalOn k r) eqn:Hr;
    [|cbn [List.filter snd]; rewrite Hr; reflexivity].
  exfalso.
  destruct (terminal_rejected this ERC20 sender k w Hwf Hst) as [H1 H2].
  destruct r as [tk|a b x y|j|j|n|]; try discriminate;
    cbn in Hr; apply N.eqb_eq in Hr; subst j.
  - rewrite H1 in Hd. discriminate.
  - rewrite H2 in Hd. discriminate.
Qed.

(** At most one terminal transition of [k] succeeds in any run. *)
Lemma at_most_one_terminal this k txs : forall w,
  WellFormed (escrow w) ->
  (length (List.filter (fun tx => terminalOn k (snd tx)) (succeeded this ERC20 txs w)) <= 1)%nat.
Proof.
  induction txs as [|[sender r] txs IH]; intros w Hwf; [cbn; lia|].
  rewrite succeeded_cons, List.filter_app, length_app.
  pose proof (IH _ (wf_step this w (sender, r) Hwf)) as Hrest.
  destruct (isDone (fst (exec this ERC20 (sender, r) w))) eqn:Hd; [|cbn; lia].
  destruct (terminalOn k r) eqn:Hr.
  - destruct (step_cases this ERC20 w (sender, r)) as [(e & He & _)|Hdone];
      [rewrite He in Hd; discriminate|].
    rewrite (no_terminal_after this k txs _ (wf_step this w _ Hwf)
               (terminal_done_inactive this w sender r k _ Hr Hdone)).
    cbn [List.filter snd]. rewrite Hr. cbn. lia.
  - cbn [List.filter snd]. rewrite Hr. cbn. lia.
Qed.

(** C3. Over any sequence of transactions from deployment, at most one of
    the calls [completeOperation k] and [cancelOperation k] succeeds; and in
    any store reached, once operation [k] is [Completed] or [Cancelled] every
    [completeOperation k] and [cancelOperation k], by any caller and with any
    tokens, reverts with the state error [Operation not active] and changes
    nothing. *)
Theorem C3_single_terminal_transition this deployer t txs k :
  (length (List.filter (fun tx => terminalOn k (snd tx))
                  (succeeded this ERC20 txs (deploy deployer t))) <= 1)%nat /\
  (let w := run this ERC20 txs (deploy deployer t) in
   forall P sender,
     status (operationAt (escrow w) k) = Completed \/
     status (operationAt (escrow w) k) = Cancelled ->
     exec this P (sender, CompleteOperation k) w
       = (Reverted (ErrorString "Operation not active"), w) /\
     exec this P (sender, CancelOperation k) w
       = (Reverted (ErrorString "Operation not active"), w)) /\
  kind (ErrorString "Operation not active") = StateError.
Proof.
  split; [|split; [|reflexivity]].
  - apply at_most_one_terminal. apply wf_deploy.
  - intros w P sender Hst. apply terminal_rejected.
    + apply wf_run.
    + destruct Hst as [-> | ->]; discriminate.
Qed.

(** C3 on the two scenarios of the specification: operation [0] completed
    by account [2], operation [1] cancelled by its creator. *)
Example single_transition_scenarios :
  let txs := sampleTxs ++ [(1, CancelOperation 1)] in
  let w := run 100 ERC20 txs (deploy 9 sampleTokens) in
  status (operationAt (escrow w) 0) = Completed /\
  status (operationAt (escrow w) 1) = Cancelled /\
  fst (exec 100 ERC20 (1, CancelOperation 0) w) = Reverted (ErrorString "Operation not active") /\
  fst (exec 100 ERC20 (2, CompleteOperation 1) w) = Reverted (ErrorString "Operation not active") /\
  succeeded 100 ERC20 (txs ++ [(1, CancelOperation 0); (2, CompleteOperation 1)])
            (deploy 9 sampleTokens) = txs.
Proof. cbv zeta. repeat split; vm_compute; reflexivity. Qed.

(** ** Id allocation *)

(** The counter counts the [createOperation] calls that went through. *)
Lemma counter_counts_creations this txs : forall w,
  operationCounter (escrow (run this ERC20 txs w)) =
  operationCounter (escrow w) +
  N.of_nat (length (List.filter (fun tx => isCreate (snd tx))
                                (succeeded this ERC20 txs w))).
Proof.
  induction txs as [|[sender r] txs IH]; intros w; [cbn; lia|].
  change (run this ERC20 ((sender, r) :: txs) w)
    with (run this ERC20 txs (step this ERC20 w (sender, r))).
  rewrite IH, succeeded_cons, List.filter_app, length_app.
  destruct (step_cases this ERC20 w (sender, r)) as [(e & He & ->)|Hdone].
  - rewrite He. cbn. lia.
  - rewrite Hdone. cbn [fst isDone List.filter snd].
    destruct r as [tk|a b x y|j|j|n|]; cbn [isCreate length].
    + apply addToken_done in Hdone as (_ & _ & _ & ->). cbn. lia.
    + apply create_done in Hdone as (_ & _ & _ & _ & _ & _ & _ & t' & _ & ->).
      cbn [escrow operationCounter setOperationCounter]. lia.
    + apply complete_done in Hdone as (_ & _ & _ & _ & t1 & t2 & _ & _ & ->).
      cbn. lia.
    + apply cancel_done in Hdone as (_ & _ & _ & _ & t1 & _ & ->). cbn. lia.
    + apply transferOwnership_done in Hdone as (_ & _ & ->). cbn. lia.
    + apply renounceOwnership_done in Hdone as (_ & ->). cbn. lia.
Qed.

Lemma createdIds_app l1 l2 : createdIds (l1 ++ l2) = createdIds l1 ++ createdIds l2.
Proof. unfold createdIds. apply flat_map_app. Qed.

(** The [OperationCreated] events announce the ids [0, 1, 2, ...] in order. *)
Lemma createdIds_run this deployer t txs :
  let w := run this ERC20 txs (deploy deployer t) in
  createdIds (logs w) = idsUpTo (operationCounter (escrow w)).
Proof.
  apply (run_invariant this ERC20
           (fun w => createdIds (logs w) = idsUpTo (operationCounter (escrow w)))).
  - destruct (deploy_store deployer t) as (-> & _ & _ & ->).
    destruct (deployer =? 0); reflexivity.
  - intros w tx _ Hinv.
    destruct (step_cases this ERC20 w tx) as [(e & _ & ->)|Hdone]; [exact Hinv|].
    destruct tx as [sender [tk|a b x y|j|j|n|]].
    + apply addToken_done in Hdone as (_ & _ & _ & ->).
      cbn [logs escrow]. rewrite createdIds_app, Hinv. cbn. apply app_nil_r.
    + apply create_done in Hdone as (_ & _ & _ & _ & _ & _ & _ & t' & _ & ->).
      cbn [logs escrow operationCounter setOperationCounter].
      rewrite createdIds_app, Hinv, idsUpTo_succ. reflexivity.
    + apply complete_done in Hdone as (_ & _ & _ & _ & t1 & t2 & _ & _ & ->).
      cbn [logs escrow]. rewrite createdIds_app, Hinv. cbn. apply app_nil_r.
    + apply cancel_done in Hdone as (_ & _ & _ & _ & t1 & _ & ->).
      cbn [logs escrow]. rewrite createdIds_app, Hinv. cbn. apply app_nil_r.
    + apply transferOwnership_done in Hdone as (_ & _ & ->).
      cbn [logs escrow]. rewrite createdIds_app, Hinv. cbn. apply app_nil_r.
    + apply renounceOwnership_done in Hdone as (_ & ->).
      cbn [logs escrow]. rewrite createdIds_app, Hinv. cbn. apply app_nil_r.
Qed.

(** C6, as the code has it. A [createOperation] that goes through in a
    store reached from deployment gives the new record the counter's value
    [c], which is the number of creations so far (so ids are 0, 1, 2, ...
    with no gap) and was never used, stores the record under [c], appends [c]
    to [operationIds] and increments the counter.  The function returns
    nothing: the id is announced by the [OperationCreated] event. *)
Theorem C6_id_allocation this deployer t txs sender a b x y ret w' :
  let w0 := deploy deployer t in
  let w := run this ERC20 txs w0 in
  let c := operationCounter (escrow w) in
  exec this ERC20 (sender, CreateOperation a b x y) w = (Done ret, w') ->
  ret = [] /\
  c = N.of_nat (length (List.filter (fun tx => isCreate (snd tx))
                                    (succeeded this ERC20 txs w0))) /\
  operations (escrow w) !! c = None /\
  operations (escrow w') !! c = Some (newOperation c sender a b x y) /\
  operationCounter (escrow w') = c + 1 /\
  operationIds (escrow w) = idsUpTo c /\
  operationIds (escrow w') = idsUpTo c ++ [c] /\
  createdIds (logs w) = idsUpTo c /\
  logs w' = logs w ++ [OperationCreated c sender a b x y].
Proof.
  intros w0 w c Hdone.
  pose proof (exec_done_returns _ _ _ _ _ _ Hdone) as ->.
  pose proof (wf_run this deployer t txs) as Hwf. fold w0 w in Hwf.
  apply create_done in Hdone as (_ & _ & _ & _ & _ & _ & _ & t' & _ & ->).
  fold c. cbn [escrow logs operations operationCounter operationIds
               setOperationCounter recorded setOperationIds setOperations
               newOperation id].
  repeat split.
  - unfold c, w, w0. rewrite counter_counts_creations, escrow_deploy.
    cbn [operationCounter]. lia.
  - destruct (operations (escrow w) !! c) eqn:Hl; [|reflexivity].
    assert (Hs : is_Some (operations (escrow w) !! c)) by eauto.
    apply (wf_dom _ Hwf) in Hs. unfold c in Hs. lia.
  - apply lookup_insert_eq.
  - apply (wf_ids _ Hwf).
  - rewrite (wf_ids _ Hwf). reflexivity.
  - apply createdIds_run.
Qed.

(** C6 at the sample: the second creation gets id [1]. *)
Lemma C6_id_allocation_witness :
  let w := run 100 ERC20 sampleSetup (deploy 9 sampleTokens) in
  let w' := step 100 ERC20 w (1, CreateOperation 7 8 20 5) in
  exec 100 ERC20 (1, CreateOperation 7 8 20 5) w = (Done [], w') /\
  operationCounter (escrow w) = 1 /\
  operations (escrow w') !! 1 = Some (newOperation 1 1 7 8 20 5) /\
  operationCounter (escrow w') = 2 /\
  operationIds (escrow w') = [0; 1] /\
  logs w' = logs w ++ [OperationCreated 1 1 7 8 20 5].
Proof.
  cbv zeta.
  assert (H : exec 100 ERC20 (1, CreateOperation 7 8 20 5)
                (run 100 ERC20 sampleSetup (deploy 9 sampleTokens))
              = (Done [], step 100 ERC20 (run 100 ERC20 sampleSetup (deploy 9 sampleTokens))
                            (1, CreateOperation 7 8 20 5)))
    by (vm_compute; reflexivity).
  split; [exact H|].
  destruct (C6_id_allocation 100 9 sampleTokens sampleSetup 1 7 8 20 5 _ _ H)
    as (_ & _ & _ & H4 & H5 & _ & H7 & _ & H9).
  split; [vm_compute; reflexivity|].
  split; [exact H4|]. split; [exact H5|]. split; [exact H7 | exact H9].
Defined.

(** C6 as stated fails on the return value: the first creation gets id [0]
    and the call returns no data. *)
Lemma C6_counterexample_no_return_value :
  let w := run 100 ERC20 [(9, AddToken 7); (9, AddToken 8)] (deploy 9 sampleTokens) in
  let r := exec 100 ERC20 (1, CreateOperation 7 8 100 50) w in
  fst r = Done [] /\
  fst r <> Done [0] /\
  operations (escrow (snd r)) !! 0 = Some (newOperation 0 1 7 8 100 50) /\
  logs (snd r) = logs w ++ [OperationCreated 0 1 7 8 100 50].
Proof.
  cbv zeta.
  split; [vm_compute; reflexivity|].
  split; [vm_compute; discriminate|].
  split; vm_compute; reflexivity.
Qed.

(** ** Round trip *)

(** C8. When a [createOperation] goes through and its sender then cancels
    the new operation, the sender's balance of [tokenA] is what it was before
    the creation (and so is the contract's). *)
Theorem C8_create_cancel_round_trip this w sender a b x y ret1 w1 ret2 w2 :
  exec this ERC20 (sender, CreateOperation a b x y) w = (Done ret1, w1) ->
  exec this ERC20 (sender, CancelOperation (operationCounter (escrow w))) w1
    = (Done ret2, w2) ->
  balanceOf (tokens w2) a sender = balanceOf (tokens w) a sender /\
  balanceOf (tokens w2) a this = balanceOf (tokens w) a this /\
  isAllowed (escrow w) a = true /\ isAllowed (escrow w) b = true /\
  a <> b /\ 0 < x /\ 0 < y.
Proof.
  intros H1 H2.
  pose proof (exec_done_returns _ _ _ _ _ _ H1) as ->.
  pose proof (exec_done_returns _ _ _ _ _ _ H2) as ->.
  apply create_done in H1 as (_ & Ha & Hb & Hab & Hx & Hy & _ & t1 & Ht1 & ->).
  apply cancel_done in H2 as (_ & _ & _ & _ & t2 & Ht2 & ->).
  cbn [escrow tokens setOperationCounter] in Ht2.
  unfold recorded in Ht2. cbn [id newOperation] in Ht2.
  change (operationAt _ (operationCounter (escrow w)))
    with (operationAt
            (setOperations
               (<[operationCounter (escrow w) :=
                    mkOperation (operationCounter (escrow w)) sender a b x y Active 0]>
                  (operations (escrow w))) (escrow w))
            (operationCounter (escrow w))) in Ht2.
  rewrite operationAt_written in Ht2. cbn [tokenA creator amountA] in Ht2.
  apply ERC20_transferFrom_done in Ht1 as (_ & _ & Hle1 & Hmv1).
  apply ERC20_transfer_done in Ht2 as (_ & _ & Hle2 & Hmv2).
  cbn [tokens]. rewrite !Hmv2. rewrite Hmv1 in Hle2. unfold moved in *.
  rewrite !Hmv1. unfold moved.
  repeat split; try assumption;
    repeat case_bool_decide; subst; try congruence; lia.
Qed.

(** C8 at the sample: account [1] creates operation [1] and cancels it. *)
Lemma C8_create_cancel_round_trip_witness :
  let w := run 100 ERC20 sampleSetup (deploy 9 sampleTokens) in
  let w1 := step 100 ERC20 w (1, CreateOperation 7 8 20 5) in
  let w2 := step 100 ERC20 w1 (1, CancelOperation 1) in
  balanceOf (tokens w) 7 1 = 900 /\
  balanceOf (tokens w1) 7 1 = 880 /\
  balanceOf (tokens w2) 7 1 = balanceOf (tokens w) 7 1.
Proof.
  cbv zeta.
  split; [vm_compute; reflexivity|]. split; [vm_compute; reflexivity|].
  apply (C8_create_cancel_round_trip 100
           (run 100 ERC20 sampleSetup (deploy 9 sampleTokens))
           1 7 8 20 5 []
           (step 100 ERC20 (run 100 ERC20 sampleSetup (deploy 9 sampleTokens))
                 (1, CreateOperation 7 8 20 5))
           []
           (step 100 ERC20
              (step 100 ERC20 (run 100 ERC20 sampleSetup (deploy 9 sampleTokens))
                    (1, CreateOperation 7 8 20 5))
              (1, CancelOperation 1)));
    vm_compute; reflexivity.
Defined.

(** ** Tokens that call back *)

Lemma isAllowed_insert e tk a :
  default false (<[tk := true]> (allowedTokens e) !! a)
  = if bool_decide (a = tk) then true else isAllowed e a.
Proof.
  unfold isAllowed. rewrite lookup_insert.
  case_decide; case_bool_decide; subst; try reflexivity; congruence.
Qed.

Lemma SameLedger_refl w : SameLedger w w.
Proof. unfold SameLedger. auto 10. Qed.

Lemma SameLedger_trans w1 w2 w3 :
  SameLedger w1 w2 -> SameLedger w2 w3 -> SameLedger w1 w3.
Proof.
  unfold SameLedger.
  intros (A1 & A2 & A3 & A4 & A5 & A6) (B1 & B2 & B3 & B4 & B5 & B6).
  repeat split; congruence.
Qed.

Lemma Extends_refl w : Extends w w.
Proof.
  unfold Extends. split; [exists []; symmetry; apply app_nil_r|].
  split; [exists []; symmetry; apply app_nil_r|]. auto.
Qed.

Lemma Extends_trans w1 w2 w3 : Extends w1 w2 -> Extends w2 w3 -> Extends w1 w3.
Proof.
  intros ([l1 H1] & [m1 H2] & H3) ([l2 H4] & [m2 H5] & H6).
  split; [exists (l1 ++ l2); rewrite H4, H1; symmetry; apply app_assoc|].
  split; [exists (m1 ++ m2); rewrite H5, H2; symmetry; apply app_assoc|].
  auto.
Qed.

(** What a transaction outside the guard does to the store. *)
Lemma unguarded_step this P s r w :
  guarded r = false ->
  SameLedger w (step this P w (s, r)) /\ Extends w (step this P w (s, r)).
Proof.
  intros Hr.
  destruct (step_cases this P w (s, r)) as [(e & _ & ->)|Hdone];
    [split; [apply SameLedger_refl | apply Extends_refl]|].
  destruct r as [tk|a b x y|k|k|n|]; try discriminate.
  - apply addToken_done in Hdone as (_ & _ & _ & ->).
    split; [unfold SameLedger; cbn; auto 10|].
    unfold Extends. cbn [escrow logs allowedTokensList setAllowedTokensList].
    split; [eauto|]. split; [eauto|].
    intros a Ha. unfold isAllowed at 1.
    cbn [allowedTokens setAllowedTokensList setAllowedTokens].
    rewrite isAllowed_insert. case_bool_decide; [reflexivity|exact Ha].
  - apply transferOwnership_done in Hdone as (_ & _ & ->).
    split; [unfold SameLedger; cbn; auto 10|].
    unfold Extends. cbn [escrow logs allowedTokensList setOwner].
    split; [eauto|]. split; [exists []; symmetry; apply app_nil_r|]. auto.
  - apply renounceOwnership_done in Hdone as (_ & ->).
    split; [unfold SameLedger; cbn; auto 10|].
    unfold Extends. cbn [escrow logs allowedTokensList setOwner].
    split; [eauto|]. split; [exists []; symmetry; apply app_nil_r|]. auto.
Qed.

(** While the guard is engaged no transaction touches the ledger. *)
Lemma nested_step this P s r w :
  _entered (escrow w) = true ->
  SameLedger w (step this P w (s, r)) /\ Extends w (step this P w (s, r)).
Proof.
  intros Hg. destruct (guarded r) eqn:Hr; [|apply unguarded_step; exact Hr].
  unfold step. rewrite (guard_rejects this P s r w Hg Hr). cbn [snd].
  split; [apply SameLedger_refl | apply Extends_refl].
Qed.

Lemma nested_run this P s attack : forall w,
  _entered (escrow w) = true ->
  SameLedger w (run this P (map (pair s) attack) w) /\
  Extends w (run this P (map (pair s) attack) w).
Proof.
  induction attack as [|r attack IH]; intros w Hg;
    [split; [apply SameLedger_refl | apply Extends_refl]|].
  cbn [map].
  change (run this P ((s, r) :: map (pair s) attack) w)
    with (run this P (map (pair s) attack) (step this P w (s, r))).
  destruct (nested_step this P s r w Hg) as [Hs He].
  destruct (IH (step this P w (s, r))) as [Hs' He'].
  { destruct Hs as (-> & _). exact Hg. }
  split; [apply (SameLedger_trans _ _ _ Hs Hs') | apply (Extends_trans _ _ _ He He')].
Qed.

(** A transfer by a token that calls back first: the callbacks leave a
    store [w'] with the same ledger, in which the token then acts as a
    conforming one. *)
Lemma Reentrant_transferFrom_cases this attack token from to v w :
  _entered (escrow w) = true ->
  exists w', SameLedger w w' /\ Extends w w' /\
    transferFrom (Reentrant this attack) token this from to v w =
    match ERC20_transferFrom token this from to v (tokens w) with
    | Done t => (Done true, withTokens t w')
    | Reverted e => (Reverted e, w')
    end.
Proof.
  intros Hg. exists (run this ERC20 (map (pair token) attack) w).
  destruct (nested_run this ERC20 token attack w Hg) as [Hs He].
  split; [exact Hs|]. split; [exact He|].
  cbn [transferFrom Reentrant]. rewrite ERC20_transferFrom_run.
  destruct Hs as (_ & _ & _ & _ & -> & _). reflexivity.
Qed.

Lemma Reentrant_transfer_cases this attack token to v w :
  _entered (escrow w) = true ->
  exists w', SameLedger w w' /\ Extends w w' /\
    transfer (Reentrant this attack) token this to v w =
    match ERC20_transfer token this to v (tokens w) with
    | Done t => (Done true, withTokens t w')
    | Reverted e => (Reverted e, w')
    end.
Proof.
  intros Hg. exists (run this ERC20 (map (pair token) attack) w).
  destruct (nested_run this ERC20 token attack w Hg) as [Hs He].
  split; [exact Hs|]. split; [exact He|].
  cbn [transfer Reentrant]. rewrite ERC20_transfer_run.
  destruct Hs as (_ & _ & _ & _ & -> & _). reflexivity.
Qed.

Ltac same_revert :=
  split; [reflexivity|]; split; [apply SameLedger_refl|];
  split; [apply Extends_refl|]; intros; discriminate.

Ltac ledger_fields :=
  cbn [escrow tokens logs interactions withEscrow withTokens note finish
       _owner _entered operationCounter operations operationIds
       allowedTokens allowedTokensList
       setEntered setOperationCounter setOperationIds setOperations recorded
       newOperation id fst snd] in *.

(** An unguarded call makes no outgoing call, so the tokens play no part. *)
Lemma unguarded_exec this P Q sender r w :
  guarded r = false -> exec this P (sender, r) w = exec this Q (sender, r) w.
Proof. intros Hr. rewrite !exec_run. destruct r; try discriminate; reflexivity. Qed.

Lemma unguarded_logs this P sender r w :
  guarded r = false ->
  isDone (fst (exec this P (sender, r) w)) = true ->
  exists ev, logs (snd (exec this P (sender, r) w)) = logs w ++ [ev] /\
             announces ev (sender, r).
Proof.
  intros Hr Hd.
  destruct (step_cases this P w (sender, r)) as [(e & He & _)|Hdone];
    [rewrite He in Hd; discriminate|].
  rewrite Hdone. cbn [snd].
  destruct r as [tk|a b x y|k|k|n|]; try discriminate.
  - apply addToken_done in Hdone as (_ & _ & _ & ->).
    exists (TokenAdded tk). split; reflexivity.
  - apply transferOwnership_done in Hdone as (_ & _ & ->).
    exists (OwnershipTransferred sender n). split; [reflexivity|]. cbn. auto.
  - apply renounceOwnership_done in Hdone as (_ & ->).
    exists (OwnershipTransferred sender 0). split; [reflexivity|]. cbn. auto.
Qed.

(** The outcome of a call against a token that calls back, next to its
    outcome against a conforming token: the same result and the same ledger;
    the callbacks can only have added events and allowed tokens, and changed
    the owner. *)
Lemma callback_exec this attack tx w :
  let r := exec this (Reentrant this attack) tx w in
  let r0 := exec this ERC20 tx w in
  fst r = fst r0 /\ SameLedger (snd r0) (snd r) /\ Extends w (snd r) /\
  (isDone (fst r) = true ->
   exists l ev, logs (snd r) = logs w ++ l ++ [ev] /\ announces ev tx /\
                logs (snd r0) = logs w ++ [ev]).
Proof.
  cbv zeta. destruct tx as [sender r].
  destruct (guarded r) eqn:Hr.
  2:{ rewrite (unguarded_exec this (Reentrant this attack) ERC20 sender r w Hr).
      split; [reflexivity|]. split; [apply SameLedger_refl|].
      split; [apply (unguarded_step this ERC20 sender r w Hr)|].
      intros Hd. destruct (unguarded_logs this ERC20 sender r w Hr Hd) as (ev & Hl & Ha).
      exists [], ev. rewrite Hl. auto. }
  rewrite !exec_run. destruct r as [tk|a b x y|k|k|n|]; try discriminate.
  - rewrite !createOperation_run. cbv zeta.
    destruct (_entered (escrow w)) eqn:Hg; [same_revert|].
    destruct (isAllowed (escrow w) a); [|same_revert].
    destruct (isAllowed (escrow w) b); [|same_revert].
    destruct (negb (a =? b)); [|same_revert].
    destruct (0 <? x); [|same_revert].
    destruct (0 <? y); [|same_revert].
    set (w1 := note _ (withEscrow (setEntered true) w)).
    destruct (Reentrant_transferFrom_cases this attack a sender this x w1 eq_refl)
      as (w1' & HS & HE & ->).
    rewrite ERC20_transferFrom_run.
    destruct (ERC20_transferFrom a this sender this x (tokens w1)) as [t'|e]; [|same_revert].
    destruct HS as (S1 & S2 & S3 & S4 & S5 & S6).
    destruct HE as ([l Hl] & [m Hm] & Hmono).
    cbn [escrow withTokens]. rewrite S2.
    destruct (operationCounter (escrow w1) <? MAX_UINT256); [|same_revert].
    cbn [fst snd]. split; [reflexivity|].
    split.
    { unfold SameLedger. ledger_fields. rewrite ?S2, ?S3, ?S4, ?S6. auto 10. }
    split.
    { unfold Extends, isAllowed in *. ledger_fields. rewrite Hl, Hm.
      split; [eexists; rewrite <- app_assoc; reflexivity|].
      split; [eexists; reflexivity|]. exact Hmono. }
    intros _. exists l. eexists. ledger_fields. rewrite Hl.
    split; [rewrite <- app_assoc; reflexivity|]. split; [|reflexivity].
    cbn. auto 10.
  - rewrite !completeOperation_run. cbv zeta.
    destruct (_entered (escrow w)) eqn:Hg; [same_revert|].
    destruct (negb (creator (operationAt (escrow w) k) =? 0)); [|same_revert].
    destruct (bool_decide (status (operationAt (escrow w) k) = Active)); [|same_revert].
    destruct (negb (sender =? creator (operationAt (escrow w) k))); [|same_revert].
    set (op := operationAt (escrow w) k).
    set (w1 := note _ (completeStaged sender k w)).
    destruct (Reentrant_transferFrom_cases this attack (tokenB op) sender (creator op)
                (amountB op) w1 eq_refl) as (w1' & HS & HE & ->).
    rewrite ERC20_transferFrom_run.
    destruct (ERC20_transferFrom (tokenB op) this sender (creator op) (amountB op) (tokens w1))
      as [t1|e]; [|same_revert].
    destruct HS as (S1 & S2 & S3 & S4 & S5 & S6).
    destruct HE as ([l Hl] & [m Hm] & Hmono).
    assert (Hop : operationAt (escrow (withTokens t1 w1')) k
                  = operationAt (escrow (withTokens t1 w1)) k).
    { unfold operationAt. cbn [escrow withTokens]. rewrite S3. reflexivity. }
    rewrite Hop.
    set (op2 := operationAt (escrow (withTokens t1 w1)) k).
    set (w2 := note _ (withTokens t1 w1)).
    set (w2r := note _ (withTokens t1 w1')).
    assert (Hg2 : _entered (escrow w2r) = true).
    { unfold w2r. cbn [escrow note withTokens]. rewrite S1. reflexivity. }
    destruct (Reentrant_transfer_cases this attack (tokenA op2) sender (amountA op2) w2r Hg2)
      as (w2' & HS2 & HE2 & ->).
    rewrite ERC20_transfer_run.
    change (tokens w2r) with t1. change (tokens w2) with t1.
    destruct (ERC20_transfer (tokenA op2) this sender (amountA op2) t1) as [t2|e];
      [|same_revert].
    destruct HS2 as (T1 & T2 & T3 & T4 & T5 & T6).
    destruct HE2 as ([l2 Hl2] & [m2 Hm2] & Hmono2).
    cbn [fst snd]. split; [reflexivity|].
    unfold w2r, w2 in *. clear Hop.
    split.
    { unfold SameLedger. ledger_fields. rewrite ?T2, ?T3, ?T4, ?T6, ?S2, ?S3, ?S4, ?S6.
      auto 10. }
    split.
    { unfold Extends, isAllowed in *. ledger_fields. rewrite Hl2, Hm2, Hl, Hm.
      split; [eexists; rewrite <- !app_assoc; reflexivity|].
      split; [eexists; rewrite <- !app_assoc; reflexivity|].
      intros a Ha. apply Hmono2, Hmono, Ha. }
    intros _. exists (l ++ l2). eexists. ledger_fields. rewrite Hl2, Hl.
    split; [rewrite <- !app_assoc; reflexivity|]. split; [|reflexivity].
    cbn. auto.
  - rewrite !cancelOperation_run. cbv zeta.
    destruct (_entered (escrow w)) eqn:Hg; [same_revert|].
    destruct (negb (creator (operationAt (escrow w) k) =? 0)); [|same_revert].
    destruct (bool_decide (status (operationAt (escrow w) k) = Active)); [|same_revert].
    destruct (sender =? creator (operationAt (escrow w) k)); [|same_revert].
    set (op := operationAt (escrow w) k).
    set (w1 := note _ (cancelStaged k w)).
    destruct (Reentrant_transfer_cases this attack (tokenA op) (creator op) (amountA op)
                w1 eq_refl) as (w1' & HS & HE & ->).
    rewrite ERC20_transfer_run.
    destruct (ERC20_transfer (tokenA op) this (creator op) (amountA op) (tokens w1))
      as [t1|e]; [|same_revert].
    destruct HS as (S1 & S2 & S3 & S4 & S5 & S6).
    destruct HE as ([l Hl] & [m Hm] & Hmono).
    cbn [fst snd]. split; [reflexivity|].
    split.
    { unfold SameLedger. ledger_fields. rewrite ?S2, ?S3, ?S4, ?S6. auto 10. }
    split.
    { unfold Extends, isAllowed in *. ledger_fields. rewrite Hl, Hm.
      split; [eexists; rewrite <- app_assoc; reflexivity|].
      split; [eexists; reflexivity|]. exact Hmono. }
    intros _. exists l. eexists. ledger_fields. rewrite Hl.
    split; [rewrite <- app_assoc; reflexivity|]. split; reflexivity.
Qed.

(** ** Frame of the terminal transitions *)






(** * Further properties of the contract *)

(** ** The allowlist *)

(** X1. What [addToken] answers, in the order the function checks: a
    sender that is not the owner is turned away whatever the token is, then
    the zero address, then a token already on the list; a failed call
    changes nothing.  Otherwise the token is appended to the list, marked
    in the mapping, and [TokenAdded] is logged. *)
Theorem addToken_outcomes this P sender tk w :
  let r := exec this P (sender, AddToken tk) w in
  (sender <> _owner (escrow w) ->
     r = (Reverted (OwnableUnauthorizedAccount sender), w)) /\
  (sender = _owner (escrow w) -> tk = 0 ->
     r = (Reverted (ErrorString "Invalid token address"), w)) /\
  (sender = _owner (escrow w) -> tk <> 0 -> isAllowed (escrow w) tk = true ->
     r = (Reverted (ErrorString "Token already allowed"), w)) /\
  (sender = _owner (escrow w) -> tk <> 0 -> isAllowed (escrow w) tk = false ->
     fst r = Done [] /\
     isAllowed (escrow (snd r)) tk = true /\
     getAllowedTokens (escrow (snd r)) = getAllowedTokens (escrow w) ++ [tk] /\
     logs (snd r) = logs w ++ [TokenAdded tk] /\
     tokens (snd r) = tokens w /\
     operations (escrow (snd r)) = operations (escrow w)) /\
  kind (OwnableUnauthorizedAccount sender) = AuthorizationError /\
  kind (ErrorString "Invalid token address") = ValidationError /\
  kind (ErrorString "Token already allowed") = StateError.
Proof.
  intros r. subst r. rewrite exec_run, addToken_run.
  repeat split.
  - intros Hs. destruct (N.eqb_spec (_owner (escrow w)) sender); [congruence|reflexivity].
  - intros -> ->. rewrite N.eqb_refl. reflexivity.
  - intros -> Ht Ha. rewrite N.eqb_refl, Ha.
    destruct (N.eqb_spec tk 0); [contradiction|reflexivity].
  - revert H H0 H1. intros -> Ht Ha. rewrite N.eqb_refl, Ha.
    destruct (N.eqb_spec tk 0); [contradiction|reflexivity].
  - revert H H0 H1. intros -> Ht Ha. rewrite N.eqb_refl, Ha.
    destruct (N.eqb_spec tk 0); [contradiction|]. cbn.
    unfold isAllowed. cbn. rewrite lookup_insert_eq. reflexivity.
  - revert H H0 H1. intros -> Ht Ha. rewrite N.eqb_refl, Ha.
    destruct (N.eqb_spec tk 0); [contradiction|reflexivity].
  - revert H H0 H1. intros -> Ht Ha. rewrite N.eqb_refl, Ha.
    destruct (N.eqb_spec tk 0); [contradiction|reflexivity].
  - revert H H0 H1. intros -> Ht Ha. rewrite N.eqb_refl, Ha.
    destruct (N.eqb_spec tk 0); [contradiction|reflexivity].
  - revert H H0 H1. intros -> Ht Ha. rewrite N.eqb_refl, Ha.
    destruct (N.eqb_spec tk 0); [contradiction|reflexivity].
Qed.

(** What a transaction does to the allowlist. *)
Lemma allowlist_step this w tx :
  let e := escrow w in
  let e' := escrow (step this ERC20 w tx) in
  (allowedTokens e' = allowedTokens e /\ allowedTokensList e' = allowedTokensList e /\
   addedTokens (succeeded this ERC20 [tx] w) = []) \/
  (exists tk, tx = (_owner e, AddToken tk) /\ tk <> 0 /\ isAllowed e tk = false /\
     allowedTokens e' = <[tk := true]> (allowedTokens e) /\
     allowedTokensList e' = allowedTokensList e ++ [tk] /\
     succeeded this ERC20 [tx] w = [tx]).
Proof.
  cbv zeta. cbn [succeeded]. rewrite app_nil_r.
  destruct (step_cases this ERC20 w tx) as [(e & He & ->)|Hdone].
  - rewrite He. cbn. auto.
  - rewrite Hdone. cbn [fst isDone].
    destruct tx as [sender [tk|a b x y|k|k|n|]].
    + pose proof Hdone as Hd.
      apply addToken_done in Hd as (Ho & Ht & Ha & ->). cbn [escrow _owner].
      right. exists tk. subst sender. repeat split; assumption.
    + apply create_done in Hdone as (_ & _ & _ & _ & _ & _ & _ & t' & _ & ->).
      cbn. auto.
    + apply complete_done in Hdone as (_ & _ & _ & _ & t1 & t2 & _ & _ & ->).
      cbn. auto.
    + apply cancel_done in Hdone as (_ & _ & _ & _ & t1 & _ & ->). cbn. auto.
    + apply transferOwnership_done in Hdone as (_ & _ & ->). cbn. auto.
    + apply renounceOwnership_done in Hdone as (_ & ->). cbn. auto.
Qed.

(** A transaction that is not sent by the owner changes neither the owner
    nor the allowlist. *)
Lemma outsider_step this w tx :
  fst tx <> _owner (escrow w) ->
  _owner (escrow (step this ERC20 w tx)) = _owner (escrow w) /\
  allowedTokensList (escrow (step this ERC20 w tx)) = allowedTokensList (escrow w).
Proof.
  intros Hs.
  destruct (step_cases this ERC20 w tx) as [(e & _ & ->)|Hdone]; [auto|].
  destruct tx as [sender [tk|a b x y|k|k|n|]]; cbn [fst] in Hs.
  - apply addToken_done in Hdone as (Ho & _). congruence.
  - apply create_done in Hdone as (_ & _ & _ & _ & _ & _ & _ & t' & _ & ->).
    cbn. auto.
  - apply complete_done in Hdone as (_ & _ & _ & _ & t1 & t2 & _ & _ & ->).
    cbn. auto.
  - apply cancel_done in Hdone as (_ & _ & _ & _ & t1 & _ & ->). cbn. auto.
  - apply transferOwnership_done in Hdone as (Ho & _). congruence.
  - apply renounceOwnership_done in Hdone as (Ho & _). congruence.
Qed.

Lemma succeeded_step this P tx txs w :
  succeeded this P (tx :: txs) w
  = succeeded this P [tx] w ++ succeeded this P txs (step this P w tx).
Proof. cbn [succeeded]. rewrite app_nil_r. reflexivity. Qed.

Lemma addedTokens_app l1 l2 : addedTokens (l1 ++ l2) = addedTokens l1 ++ addedTokens l2.
Proof. unfold addedTokens. apply flat_map_app. Qed.

(** Whatever the tokens send back, a run only adds events and allowed
    tokens. *)
Lemma extends_run this attack txs : forall w,
  Extends w (run this (Reentrant this attack) txs w).
Proof.
  induction txs as [|tx txs IH]; intros w; [apply Extends_refl|].
  change (run this (Reentrant this attack) (tx :: txs) w)
    with (run this (Reentrant this attack) txs (step this (Reentrant this attack) w tx)).
  apply (Extends_trans _ (step this (Reentrant this attack) w tx)); [|apply IH].
  apply (callback_exec this attack tx w).
Qed.

(** X2. The allowlist is append-only, whatever the tokens do: after any
    calls of the six entry points, from any store and also with tokens that
    call back into the contract, [getAllowedTokens()] starts with the former
    list and a token once allowed is still allowed.  With tokens that do not
    call back, what was appended is exactly the tokens of the [addToken]
    calls that went through, in order; and calls of which none is sent by the
    owner leave both the list and the owner as they were. *)
Theorem allowlist_append_only this attack txs : forall w,
  let w' := run this (Reentrant this attack) txs w in
  let u := run this ERC20 txs w in
  (exists l, getAllowedTokens (escrow w') = getAllowedTokens (escrow w) ++ l) /\
  (forall a, isAllowed (escrow w) a = true -> isAllowed (escrow w') a = true) /\
  getAllowedTokens (escrow u)
    = getAllowedTokens (escrow w) ++ addedTokens (succeeded this ERC20 txs w) /\
  (noneSentBy (_owner (escrow w)) txs = true ->
   getAllowedTokens (escrow u) = getAllowedTokens (escrow w) /\
   _owner (escrow u) = _owner (escrow w)).
Proof.
  unfold getAllowedTokens. intros w. cbv zeta.
  destruct (extends_run this attack txs w) as (_ & Hl & Hm).
  split; [exact Hl|]. split; [exact Hm|]. clear Hl Hm.
  revert w. induction txs as [|tx txs IH]; intros w.
  - cbn. rewrite app_nil_r. auto.
  - change (run this ERC20 (tx :: txs) w)
      with (run this ERC20 txs (step this ERC20 w tx)).
    rewrite succeeded_step, addedTokens_app.
    destruct (IH (step this ERC20 w tx)) as (Hl & Hq).
    split.
    + rewrite Hl.
      destruct (allowlist_step this w tx)
        as [(_ & Hlist & Hnone)|(tk & -> & _ & _ & _ & Hlist & Hone)].
      * rewrite Hlist, Hnone. reflexivity.
      * rewrite Hlist, Hone. cbn [addedTokens flat_map snd app].
        rewrite <- app_assoc. reflexivity.
    + unfold noneSentBy. cbn [forallb]. intros Hall.
      apply andb_true_iff in Hall as [Hs Hall].
      destruct (N.eqb_spec (fst tx) (_owner (escrow w))) as [|Hne]; [discriminate|].
      destruct (outsider_step this w tx Hne) as (Ho & Hlist).
      unfold noneSentBy in Hq. rewrite Ho in Hq.
      destruct (Hq Hall) as (Hq1 & Hq2). split; congruence.
Qed.

Lemma allowlist_consistent_step this w tx :
  AllowlistConsistent (escrow w) ->
  AllowlistConsistent (escrow (step this ERC20 w tx)).
Proof.
  intros (Hnd & Hin & Hz).
  destruct (allowlist_step this w tx)
    as [(Hmap & Hlist & _)|(tk & _ & Ht & Ha & Hmap & Hlist & _)];
    unfold AllowlistConsistent, isAllowed in *; rewrite Hmap, Hlist.
  - auto.
  - repeat split.
    + apply NoDup_app. split; [exact Hnd|]. split; [|apply NoDup_singleton].
      intros a Hal Hs. apply list_elem_of_singleton in Hs. subst a.
      apply Hin in Hal. unfold isAllowed in Ha. congruence.
    + rewrite elem_of_app, list_elem_of_singleton, isAllowed_insert.
      case_bool_decide; [auto|]. intros [Hl|Hl]; [apply Hin; exact Hl|contradiction].
    + rewrite elem_of_app, list_elem_of_singleton, isAllowed_insert.
      case_bool_decide; [auto|]. intros Hl. left. apply Hin. exact Hl.
    + rewrite isAllowed_insert. case_bool_decide; [congruence|exact Hz].
Qed.

(** X3. In every store reached from deployment the allowlist's list and
    mapping agree: [getAllowedTokens()] has no duplicates, a token is in it
    exactly when [allowedTokens] maps it to [true], and the zero address is
    never allowed; so the number of allowed tokens is the length of the
    list. *)
Theorem allowlist_consistent this deployer t txs :
  let e := escrow (run this ERC20 txs (deploy deployer t)) in
  NoDup (getAllowedTokens e) /\
  (forall a, a ∈ getAllowedTokens e <-> isAllowed e a = true) /\
  isAllowed e 0 = false.
Proof.
  apply (run_invariant this ERC20 (fun w => AllowlistConsistent (escrow w))).
  - rewrite escrow_deploy. unfold AllowlistConsistent, isAllowed. cbn. repeat split.
    + constructor.
    + intros H. inversion H.
    + rewrite lookup_empty. discriminate.
  - intros w tx _. apply allowlist_consistent_step.
Qed.

(** ** Records *)

Lemma ValidRecord_allowlist e e' op :
  (forall a, isAllowed e a = true -> isAllowed e' a = true) ->
  ValidRecord e op -> ValidRecord e' op.
Proof.
  intros Hm (H1 & H2 & H3 & H4 & H5 & H6). repeat split; try tauto; auto.
Qed.

Lemma valid_records_step this w tx :
  map_Forall (fun _ op => ValidRecord (escrow w) op) (operations (escrow w)) ->
  map_Forall (fun _ op => ValidRecord (escrow (step this ERC20 w tx)) op)
             (operations (escrow (step this ERC20 w tx))).
Proof.
  intros Hall.
  destruct (step_cases this ERC20 w tx) as [(e & _ & ->)|Hdone]; [exact Hall|].
  destruct tx as [sender [tk|a b x y|k|k|n|]].
  - apply addToken_done in Hdone as (_ & _ & _ & ->).
    cbn [escrow operations setAllowedTokensList setAllowedTokens].
    intros j op Hj. apply (ValidRecord_allowlist (escrow w)); [|apply (Hall j op Hj)].
    intros a Ha. unfold isAllowed at 1.
    cbn [allowedTokens setAllowedTokensList setAllowedTokens].
    rewrite isAllowed_insert. case_bool_decide; [reflexivity|exact Ha].
  - apply create_done in Hdone as (_ & Ha & Hb & Hab & Hx & Hy & _ & t' & Ht & ->).
    apply ERC20_transferFrom_done in Ht as (Hs & _).
    cbn [escrow operations setOperationCounter recorded setOperationIds
         setOperations newOperation id].
    apply map_Forall_insert_2.
    + unfold ValidRecord. cbn. unfold isAllowed in *. cbn.
      repeat split; try assumption; try congruence; try discriminate;
        try (intros; contradiction).
    + intros j op Hj. apply (ValidRecord_allowlist (escrow w)); [auto|].
      apply (Hall j op Hj).
  - apply complete_done in Hdone as (_ & Hc & Hst & Hsc & t1 & t2 & Ht1 & _ & ->).
    apply ERC20_transferFrom_done in Ht1 as (Hs & _).
    pose proof (Hall _ _ (operationAt_exists _ _ Hc)) as (V1 & V2 & V3 & V4 & V5 & V6 & _).
    cbn [escrow operations setOperations].
    apply map_Forall_insert_2.
    + unfold ValidRecord. cbn. unfold isAllowed in *. cbn.
      repeat split; try assumption; try reflexivity; try (intros; congruence).
    + intros j op Hj. apply (ValidRecord_allowlist (escrow w)); [auto|].
      apply (Hall j op Hj).
  - apply cancel_done in Hdone as (_ & Hc & Hst & Hsc & t1 & _ & ->).
    pose proof (Hall _ _ (operationAt_exists _ _ Hc))
      as (V1 & V2 & V3 & V4 & V5 & V6 & V7 & V8).
    cbn [escrow operations setOperations].
    apply map_Forall_insert_2.
    + unfold ValidRecord. cbn. unfold isAllowed in *. cbn.
      repeat split; try assumption; try discriminate.
      all: intros Hne; apply V8 in Hne; congruence.
    + intros j op Hj. apply (ValidRecord_allowlist (escrow w)); [auto|].
      apply (Hall j op Hj).
  - apply transferOwnership_done in Hdone as (_ & _ & ->).
    intros j op Hj. apply (ValidRecord_allowlist (escrow w)); [auto|].
    apply (Hall j op Hj).
  - apply renounceOwnership_done in Hdone as (_ & ->).
    intros j op Hj. apply (ValidRecord_allowlist (escrow w)); [auto|].
    apply (Hall j op Hj).
Qed.

Lemma records_valid_aux this deployer t txs k op :
  operations (escrow (run this ERC20 txs (deploy deployer t))) !! k = Some op ->
  ValidRecord (escrow (run this ERC20 txs (deploy deployer t))) op.
Proof.
  revert k op.
  apply (run_invariant this ERC20
           (fun w => map_Forall (fun _ op => ValidRecord (escrow w) op)
                                (operations (escrow w)))).
  - rewrite escrow_deploy. cbn. apply map_Forall_empty.
  - intros w tx _. apply valid_records_step.
Qed.

(** X4. Every record stored in a store reached from deployment is sound:
    its two tokens differ and are allowlisted, both amounts are positive, its
    creator is set, and its completer is set exactly when the record is
    [Completed] and is never the creator. *)
Theorem records_are_valid this deployer t txs :
  let e := escrow (run this ERC20 txs (deploy deployer t)) in
  map_Forall (fun _ op => ValidRecord e op) (operations e).
Proof.
  apply (run_invariant this ERC20
           (fun w => map_Forall (fun _ op => ValidRecord (escrow w) op)
                                (operations (escrow w)))).
  - rewrite escrow_deploy. cbn. apply map_Forall_empty.
  - intros w tx _. apply valid_records_step.
Qed.

(** X4 at the sample: operation [0], completed by account [2]. *)
Lemma records_are_valid_witness :
  let e := escrow (run 100 ERC20 sampleTxs (deploy 9 sampleTokens)) in
  operations e !! 0 = Some (mkOperation 0 1 7 8 100 50 Completed 2) /\
  ValidRecord e (mkOperation 0 1 7 8 100 50 Completed 2).
Proof.
  cbv zeta.
  assert (H : operations (escrow (run 100 ERC20 sampleTxs (deploy 9 sampleTokens))) !! 0
              = Some (mkOperation 0 1 7 8 100 50 Completed 2)) by (vm_compute; reflexivity).
  split; [exact H|].
  exact (records_are_valid 100 9 sampleTokens sampleTxs 0 _ H).
Defined.

(** What one transaction can do to a record that exists. *)
Lemma record_step this w tx k :
  WellFormed (escrow w) ->
  k < operationCounter (escrow w) ->
  let op := operationAt (escrow w) k in
  let op' := operationAt (escrow (step this ERC20 w tx)) k in
  k < operationCounter (escrow (step this ERC20 w tx)) /\
  terms op' = terms op /\
  (status op <> Active -> op' = op).
Proof.
  intros Hwf Hk. cbv zeta.
  destruct (step_cases this ERC20 w tx) as [(e & _ & ->)|Hdone]; [auto|].
  destruct tx as [sender [tk|a b x y|j|j|n|]].
  - apply addToken_done in Hdone as (_ & _ & _ & ->). cbn. auto.
  - apply create_done in Hdone as (_ & _ & _ & _ & _ & _ & _ & t' & _ & ->).
    unfold operationAt.
    cbn [escrow operations operationCounter setOperationCounter recorded
         setOperationIds setOperations newOperation id].
    rewrite lookup_insert_ne by lia. split; [lia|auto].
  - apply complete_done in Hdone as (_ & _ & Hact & _ & t1 & t2 & _ & _ & ->).
    cbn [escrow operationCounter setOperations]. split; [exact Hk|].
    destruct (decide (j = k)) as [->|Hne].
    + rewrite operationAt_written. split; [reflexivity|]. intros; contradiction.
    + unfold operationAt. cbn [operations setOperations].
      rewrite lookup_insert_ne by exact Hne. auto.
  - apply cancel_done in Hdone as (_ & _ & Hact & _ & t1 & _ & ->).
    cbn [escrow operationCounter setOperations]. split; [exact Hk|].
    destruct (decide (j = k)) as [->|Hne].
    + rewrite operationAt_written. split; [reflexivity|]. intros; contradiction.
    + unfold operationAt. cbn [operations setOperations].
      rewrite lookup_insert_ne by exact Hne. auto.
  - apply transferOwnership_done in Hdone as (_ & _ & ->). cbn. auto.
  - apply renounceOwnership_done in Hdone as (_ & ->). cbn. auto.
Qed.

Lemma record_run this k later : forall w,
  WellFormed (escrow w) ->
  k < operationCounter (escrow w) ->
  k < operationCounter (escrow (run this ERC20 later w)) /\
  terms (operationAt (escrow (run this ERC20 later w)) k)
    = terms (operationAt (escrow w) k) /\
  (status (operationAt (escrow w) k) <> Active ->
   operationAt (escrow (run this ERC20 later w)) k = operationAt (escrow w) k).
Proof.
  induction later as [|tx later IH]; intros w Hwf Hk; [cbn; auto|].
  change (run this ERC20 (tx :: later) w)
    with (run this ERC20 later (step this ERC20 w tx)).
  destruct (record_step this w tx k Hwf Hk) as (Hk' & Hterms & Hfrozen).
  destruct (IH _ (wf_step this w tx Hwf) Hk') as (Hk2 & Hterms2 & Hfrozen2).
  split; [exact Hk2|]. split; [congruence|].
  intros Hst. rewrite Hfrozen2, Hfrozen; auto. rewrite Hfrozen; auto.
Qed.

(** X5. Records are permanent.  A record that exists in a store reached
    from deployment exists after any further transactions with the same
    [id], [creator], [tokenA], [tokenB], [amountA] and [amountB]; and once it
    is [Completed] or [Cancelled] no transaction changes it at all. *)
Theorem records_are_permanent this deployer t txs later k :
  let w := run this ERC20 txs (deploy deployer t) in
  let w' := run this ERC20 later w in
  k < getOperationCount (escrow w) ->
  k < getOperationCount (escrow w') /\
  terms (operationAt (escrow w') k) = terms (operationAt (escrow w) k) /\
  (status (operationAt (escrow w) k) <> Active ->
   operationAt (escrow w') k = operationAt (escrow w) k).
Proof.
  intros w w' Hk. apply record_run; [apply wf_run | exact Hk].
Qed.

(** X5 at the sample: operation [0], completed in [sampleTxs], through a
    further creation and a cancellation. *)
Lemma records_are_permanent_witness :
  let w := run 100 ERC20 sampleTxs (deploy 9 sampleTokens) in
  let w' := run 100 ERC20 [(2, CreateOperation 8 7 5 5); (1, CancelOperation 1)] w in
  0 < getOperationCount (escrow w) /\
  status (operationAt (escrow w) 0) = Completed /\
  operationAt (escrow w') 0 = operationAt (escrow w) 0.
Proof.
  cbv zeta.
  split; [vm_compute; reflexivity|]. split; [vm_compute; reflexivity|].
  apply (records_are_permanent 100 9 sampleTokens sampleTxs
           [(2, CreateOperation 8 7 5 5); (1, CancelOperation 1)] 0);
    [vm_compute; reflexivity | vm_compute; discriminate].
Defined.

(** X6. An id that was never allocated is rejected everywhere: in a store
    reached from deployment, [completeOperation], [cancelOperation] and
    [getOperation] of an id at or above the counter revert with
    [Operation does not exist], for every caller and whatever the tokens are,
    and the store is unchanged. *)
Theorem unknown_operation_rejected this P deployer t txs sender k :
  let w := run this ERC20 txs (deploy deployer t) in
  getOperationCount (escrow w) <= k ->
  exec this P (sender, CompleteOperation k) w
    = (Reverted (ErrorString "Operation does not exist"), w) /\
  exec this P (sender, CancelOperation k) w
    = (Reverted (ErrorString "Operation does not exist"), w) /\
  getOperation (escrow w) k = Reverted (ErrorString "Operation does not exist") /\
  kind (ErrorString "Operation does not exist") = StateError.
Proof.
  intros w Hk.
  pose proof (wf_run this deployer t txs) as Hwf. fold w in Hwf.
  assert (Hz : creator (operationAt (escrow w) k) = 0).
  { unfold operationAt. destruct (operations (escrow w) !! k) as [op|] eqn:Hl; [|reflexivity].
    assert (Hs : is_Some (operations (escrow w) !! k)) by eauto.
    apply (wf_dom _ Hwf) in Hs. unfold getOperationCount in Hk. lia. }
  rewrite !exec_run, completeOperation_run, cancelOperation_run, (wf_guard _ Hwf).
  unfold getOperation. cbv zeta. rewrite Hz. cbn. auto.
Qed.

(** X6 at the sample, with the id the tests use. *)
Lemma unknown_operation_rejected_witness :
  let w := run 100 ERC20 sampleTxs (deploy 9 sampleTokens) in
  exec 100 ERC20 (2, CompleteOperation 999) w
    = (Reverted (ErrorString "Operation does not exist"), w) /\
  exec 100 ERC20 (1, CancelOperation 999) w
    = (Reverted (ErrorString "Operation does not exist"), w).
Proof.
  cbv zeta.
  destruct (unknown_operation_rejected 100 ERC20 9 sampleTokens sampleTxs 2 999)
    as (H1 & _); [vm_compute; discriminate|].
  destruct (unknown_operation_rejected 100 ERC20 9 sampleTokens sampleTxs 1 999)
    as (_ & H2 & _); [vm_compute; discriminate|].
  split; [exact H1 | exact H2].
Defined.

(** ** Outcomes of [createOperation] *)

(** When a conforming token carries out [transferFrom]. *)
Lemma ERC20_transferFrom_iff token spender from to v t :
  isDone (ERC20_transferFrom token spender from to v t) = true <->
  from <> 0 /\ to <> 0 /\ v <= balanceOf t token from /\
  (MAX_UINT256 <= allowance t token from spender \/
   (v <= allowance t token from spender /\ spender <> 0)).
Proof.
  unfold ERC20_transferFrom, _spendAllowance, _approve, _transfer, balanceOf, setAllowance.
  cbn [_balances].
  repeat match goal with
         | |- context [N.ltb ?a ?b] => destruct (N.ltb_spec a b)
         | |- context [N.eqb ?a ?b] => destruct (N.eqb_spec a b)
         end; cbn [isDone _balances] in *;
    (split; [try discriminate; intros _; repeat split; try assumption; lia
            | try reflexivity; intros (? & ? & ? & [?|[? ?]]); try contradiction; lia]).
Qed.




(** X7. Exactly when [createOperation] goes through with conforming
    tokens: the guard is free, both tokens are allowlisted and differ, both
    amounts are positive, the sender holds [amountA] of [tokenA] and has
    approved the contract for at least that much (or without limit), neither
    address is zero, and the counter is not at its maximum. *)
Theorem createOperation_succeeds_iff this w sender a b x y :
  isDone (fst (exec this ERC20 (sender, CreateOperation a b x y) w)) = true <->
  _entered (escrow w) = false /\
  isAllowed (escrow w) a = true /\ isAllowed (escrow w) b = true /\
  a <> b /\ 0 < x /\ 0 < y /\
  sender <> 0 /\ this <> 0 /\
  x <= balanceOf (tokens w) a sender /\
  (MAX_UINT256 <= allowance (tokens w) a sender this \/
   x <= allowance (tokens w) a sender this) /\
  operationCounter (escrow w) < MAX_UINT256.
Proof.
  split.
  - intros Hd.
    destruct (step_cases this ERC20 w (sender, CreateOperation a b x y))
      as [(e & He & _)|Hdone]; [rewrite He in Hd; discriminate|].
    apply create_done in Hdone as (Hg & Ha & Hb & Hab & Hx & Hy & Hc & t' & Ht & _).
    assert (Hs : isDone (ERC20_transferFrom a this sender this x (tokens w)) = true)
      by (rewrite Ht; reflexivity).
    apply ERC20_transferFrom_iff in Hs as (H1 & H2 & H3 & H4).
    repeat split; try assumption. destruct H4 as [?|[? _]]; auto.
  - intros (Hg & Ha & Hb & Hab & Hx & Hy & Hs & Hthis & Hbal & Hal & Hc).
    assert (Ht : isDone (ERC20_transferFrom a this sender this x (tokens w)) = true).
    { apply ERC20_transferFrom_iff. repeat split; try assumption.
      destruct Hal; auto. }
    destruct (ERC20_transferFrom a this sender this x (tokens w)) as [t'|e] eqn:Ht';
      [|discriminate].
    rewrite exec_run, createOperation_run, Hg, Ha, Hb. cbv zeta.
    destruct (N.eqb_spec a b); [contradiction|]. cbn [negb].
    destruct (N.ltb_spec 0 x); [|lia]. destruct (N.ltb_spec 0 y); [|lia].
    rewrite ERC20_transferFrom_run. norm_store. rewrite Ht'. norm_store.
    destruct (N.ltb_spec (operationCounter (setEntered true (escrow w))) MAX_UINT256)
      as [|Hge]; [reflexivity|].
    exfalso. cbn in Hge. lia.
Qed.



(** X9. The counter cannot wrap: once [operationCounter] is
    [type(uint256).max], a [createOperation] that passes every check and
    whose deposit would be accepted reverts with the arithmetic panic of
    [operationCounter++], and the deposit is not kept. *)
Theorem createOperation_counter_overflow this w sender a b x y t' :
  _entered (escrow w) = false ->
  isAllowed (escrow w) a = true -> isAllowed (escrow w) b = true ->
  a <> b -> 0 < x -> 0 < y ->
  ERC20_transferFrom a this sender this x (tokens w) = Done t' ->
  MAX_UINT256 <= operationCounter (escrow w) ->
  exec this ERC20 (sender, CreateOperation a b x y) w = (Reverted (Panic 17), w) /\
  kind (Panic 17) = ArithmeticError /\
  step this ERC20 w (sender, CreateOperation a b x y) = w.
Proof.
  intros Hg Ha Hb Hab Hx Hy Ht Hc.
  assert (Hexec : exec this ERC20 (sender, CreateOperation a b x y) w
                  = (Reverted (Panic 17), w)).
  { rewrite exec_run, createOperation_run, Hg, Ha, Hb. cbv zeta.
    destruct (N.eqb_spec a b); [contradiction|]. cbn [negb].
    destruct (N.ltb_spec 0 x); [|lia]. destruct (N.ltb_spec 0 y); [|lia].
    rewrite ERC20_transferFrom_run. norm_store. rewrite Ht. norm_store.
    destruct (N.ltb_spec (operationCounter (setEntered true (escrow w))) MAX_UINT256)
      as [Hlt|]; [|reflexivity].
    exfalso. cbn in Hlt. lia. }
  repeat split; [exact Hexec|]. unfold step. rewrite Hexec. reflexivity.
Qed.

(** X9 at the sample store with its counter set to the maximum. *)
Lemma createOperation_counter_overflow_witness :
  let w := withEscrow (setOperationCounter MAX_UINT256)
             (run 100 ERC20 sampleSetup (deploy 9 sampleTokens)) in
  exec 100 ERC20 (1, CreateOperation 7 8 20 5) w = (Reverted (Panic 17), w) /\
  balanceOf (tokens (step 100 ERC20 w (1, CreateOperation 7 8 20 5))) 7 1
    = balanceOf (tokens w) 7 1.
Proof.
  cbv zeta.
  assert (Ht : isDone (ERC20_transferFrom 7 100 1 100 20
                          (tokens (withEscrow (setOperationCounter MAX_UINT256)
                                     (run 100 ERC20 sampleSetup (deploy 9 sampleTokens)))))
               = true)
    by (vm_compute; reflexivity).
  destruct (ERC20_transferFrom 7 100 1 100 20 _) as [t'|e] eqn:Ht'; [|discriminate].
  destruct (createOperation_counter_overflow 100
              (withEscrow (setOperationCounter MAX_UINT256)
                 (run 100 ERC20 sampleSetup (deploy 9 sampleTokens)))
              1 7 8 20 5 t') as (H1 & _ & H3);
    try (vm_compute; reflexivity); try (vm_compute; discriminate).
  - exact Ht'.
  - split; [exact H1|]. rewrite H3. reflexivity.
Defined.

(** ** Settlement *)

Lemma conserved_run this deployer t txs :
  holdsNothing this t = true ->
  external this txs = true ->
  let w := run this ERC20 txs (deploy deployer t) in
  WellFormed (escrow w) /\ Conserved this w.
Proof.
  intros Hzero Hext.
  apply (run_invariant this ERC20 (fun w => WellFormed (escrow w) /\ Conserved this w)).
  - split; [apply wf_deploy | apply conserved_deploy; exact Hzero].
  - intros w1 tx Hin [Hwf Hc]. split.
    + apply wf_step. exact Hwf.
    + apply conserved_step; try assumption.
      apply (external_spec this txs); assumption.
Qed.

(** No record is created by the contract itself when it is only called
    from outside. *)
Lemma creators_external this deployer t txs :
  external this txs = true ->
  let w := run this ERC20 txs (deploy deployer t) in
  forall k op, operations (escrow w) !! k = Some op -> creator op <> this.
Proof.
  intros Hext.
  apply (run_invariant this ERC20
           (fun w => forall k op, operations (escrow w) !! k = Some op -> creator op <> this)).
  - intros k op. rewrite escrow_deploy. cbn. rewrite lookup_empty. discriminate.
  - intros w tx Hin Hcr.
    pose proof (external_spec this txs tx Hext Hin) as Hs.
    destruct (step_cases this ERC20 w tx) as [(e & _ & ->)|Hdone]; [exact Hcr|].
    destruct tx as [sender [tk|a b x y|k|k|n|]]; cbn [fst] in Hs.
    + apply addToken_done in Hdone as (_ & _ & _ & ->). exact Hcr.
    + apply create_done in Hdone as (_ & _ & _ & _ & _ & _ & _ & t' & _ & ->).
      cbn [escrow operations setOperationCounter recorded setOperationIds
           setOperations newOperation id].
      intros j op. rewrite lookup_insert. case_decide; [intros [= <-]; exact Hs | apply Hcr].
    + apply complete_done in Hdone as (_ & Hc & _ & _ & t1 & t2 & _ & _ & ->).
      cbn [escrow operations setOperations].
      intros j op. rewrite lookup_insert. case_decide; [|apply Hcr].
      intros [= <-]. apply (Hcr k _ (operationAt_exists _ _ Hc)).
    + apply cancel_done in Hdone as (_ & Hc & _ & _ & t1 & _ & ->).
      cbn [escrow operations setOperations].
      intros j op. rewrite lookup_insert. case_decide; [|apply Hcr].
      intros [= <-]. apply (Hcr k _ (operationAt_exists _ _ Hc)).
    + apply transferOwnership_done in Hdone as (_ & _ & ->). exact Hcr.
    + apply renounceOwnership_done in Hdone as (_ & ->). exact Hcr.
Qed.

(** Once a record exists the contract's own address is not zero: the
    deposit was transferred to it. *)
Lemma this_nonzero this deployer t txs :
  let w := run this ERC20 txs (deploy deployer t) in
  forall k op, operations (escrow w) !! k = Some op -> this <> 0.
Proof.
  apply (run_invariant this ERC20
           (fun w => forall k op, operations (escrow w) !! k = Some op -> this <> 0)).
  - intros k op. rewrite escrow_deploy. cbn. rewrite lookup_empty. discriminate.
  - intros w tx _ Hnz.
    destruct (step_cases this ERC20 w tx) as [(e & _ & ->)|Hdone]; [exact Hnz|].
    destruct tx as [sender [tk|a b x y|k|k|n|]].
    + apply addToken_done in Hdone as (_ & _ & _ & ->). exact Hnz.
    + apply create_done in Hdone as (_ & _ & _ & _ & _ & _ & _ & t' & Ht & ->).
      apply ERC20_transferFrom_done in Ht as (_ & Hto & _). intros; exact Hto.
    + apply complete_done in Hdone as (_ & Hc & _ & _ & t1 & t2 & _ & _ & ->).
      intros _ _ _. apply (Hnz k _ (operationAt_exists _ _ Hc)).
    + apply cancel_done in Hdone as (_ & Hc & _ & _ & t1 & _ & ->).
      intros _ _ _. apply (Hnz k _ (operationAt_exists _ _ Hc)).
    + apply transferOwnership_done in Hdone as (_ & _ & ->). exact Hnz.
    + apply renounceOwnership_done in Hdone as (_ & ->). exact Hnz.
Qed.

(** X10. What a completed swap moves.  In a store reached from deployment
    by calls from outside, a [completeOperation] by an outside caller that
    goes through pays the creator [amountB] of [tokenB] out of the caller's
    balance and hands the caller the [amountA] of [tokenA] the contract
    held; the creator's [tokenA] and the contract's [tokenB] are untouched. *)
Theorem completeOperation_settles this deployer t txs sender k r w' :
  let w := run this ERC20 txs (deploy deployer t) in
  let op := operationAt (escrow w) k in
  external this txs = true ->
  sender <> this ->
  exec this ERC20 (sender, CompleteOperation k) w = (Done r, w') ->
  amountB op <= balanceOf (tokens w) (tokenB op) sender /\
  amountA op <= balanceOf (tokens w) (tokenA op) this /\
  balanceOf (tokens w') (tokenB op) (creator op)
    = balanceOf (tokens w) (tokenB op) (creator op) + amountB op /\
  balanceOf (tokens w') (tokenB op) sender
    = balanceOf (tokens w) (tokenB op) sender - amountB op /\
  balanceOf (tokens w') (tokenA op) sender
    = balanceOf (tokens w) (tokenA op) sender + amountA op /\
  balanceOf (tokens w') (tokenA op) this
    = balanceOf (tokens w) (tokenA op) this - amountA op /\
  balanceOf (tokens w') (tokenA op) (creator op)
    = balanceOf (tokens w) (tokenA op) (creator op) /\
  balanceOf (tokens w') (tokenB op) this
    = balanceOf (tokens w) (tokenB op) this.
Proof.
  intros w op Hext Hs Hdone.
  pose proof (exec_done_returns _ _ _ _ _ _ Hdone) as ->.
  apply complete_done in Hdone as (_ & Hc & _ & Hsc & t1 & t2 & Ht1 & Ht2 & ->).
  fold op in Hc, Hsc, Ht1, Ht2.
  pose proof (operationAt_exists _ _ Hc) as Hk. fold op in Hk.
  pose proof (creators_external this deployer t txs Hext k op Hk) as Hcthis.
  pose proof (records_valid_aux this deployer t txs k op Hk) as (Hab & _).
  apply ERC20_transferFrom_done in Ht1 as (_ & _ & Hle1 & Hmv1).
  apply ERC20_transfer_done in Ht2 as (_ & _ & Hle2 & Hmv2).
  rewrite Hmv1 in Hle2. cbn [tokens]. rewrite !Hmv2. unfold moved in *.
  rewrite !Hmv1. unfold moved.
  repeat split; repeat case_bool_decide; try congruence; try lia.
Qed.

(** X10 at the sample: account [2] completes operation [0] (100 of token
    [7] against 50 of token [8]). *)
Lemma completeOperation_settles_witness :
  let w := run 100 ERC20 sampleSetup (deploy 9 sampleTokens) in
  let w' := step 100 ERC20 w (2, CompleteOperation 0) in
  balanceOf (tokens w') 8 1 = balanceOf (tokens w) 8 1 + 50 /\
  balanceOf (tokens w') 7 2 = balanceOf (tokens w) 7 2 + 100 /\
  balanceOf (tokens w') 7 100 = 0.
Proof.
  cbv zeta.
  destruct (completeOperation_settles 100 9 sampleTokens sampleSetup 2 0 []
              (step 100 ERC20 (run 100 ERC20 sampleSetup (deploy 9 sampleTokens))
                    (2, CompleteOperation 0)))
    as (_ & _ & H1 & _ & H2 & _);
    [vm_compute; reflexivity | vm_compute; discriminate | vm_compute; reflexivity |].
  split; [exact H1|]. split; [exact H2|]. vm_compute. reflexivity.
Defined.

(** X11. What a cancellation moves.  In a store reached from deployment by
    calls from outside, a [cancelOperation] that goes through was sent by the
    creator and returns to the creator exactly the [amountA] of [tokenA] the
    contract held for the operation. *)
Theorem cancelOperation_refunds this deployer t txs sender k r w' :
  let w := run this ERC20 txs (deploy deployer t) in
  let op := operationAt (escrow w) k in
  external this txs = true ->
  exec this ERC20 (sender, CancelOperation k) w = (Done r, w') ->
  sender = creator op /\
  amountA op <= balanceOf (tokens w) (tokenA op) this /\
  balanceOf (tokens w') (tokenA op) (creator op)
    = balanceOf (tokens w) (tokenA op) (creator op) + amountA op /\
  balanceOf (tokens w') (tokenA op) this
    = balanceOf (tokens w) (tokenA op) this - amountA op.
Proof.
  intros w op Hext Hdone.
  pose proof (exec_done_returns _ _ _ _ _ _ Hdone) as ->.
  apply cancel_done in Hdone as (_ & Hc & _ & Hsc & t1 & Ht1 & ->).
  fold op in Hc, Hsc, Ht1.
  pose proof (operationAt_exists _ _ Hc) as Hk. fold op in Hk.
  pose proof (creators_external this deployer t txs Hext k op Hk) as Hcthis.
  apply ERC20_transfer_done in Ht1 as (_ & _ & Hle1 & Hmv1).
  cbn [tokens]. rewrite !Hmv1. unfold moved.
  repeat split; try assumption; repeat case_bool_decide; try congruence; try lia.
Qed.

(** X11 at the sample: account [1] cancels operation [0] and gets its 100
    of token [7] back. *)
Lemma cancelOperation_refunds_witness :
  let w := run 100 ERC20 sampleSetup (deploy 9 sampleTokens) in
  let w' := step 100 ERC20 w (1, CancelOperation 0) in
  balanceOf (tokens w) 7 1 = 900 /\
  balanceOf (tokens w') 7 1 = balanceOf (tokens w) 7 1 + 100.
Proof.
  cbv zeta. split; [vm_compute; reflexivity|].
  destruct (cancelOperation_refunds 100 9 sampleTokens sampleSetup 1 0 []
              (step 100 ERC20 (run 100 ERC20 sampleSetup (deploy 9 sampleTokens))
                    (1, CancelOperation 0)))
    as (_ & _ & H1 & _);
    [vm_compute; reflexivity | vm_compute; reflexivity |].
  exact H1.
Defined.

(** ** Deposits are never stuck *)

Lemma _transfer_iff token from to v t :
  isDone (_transfer token from to v t) = true <->
  from <> 0 /\ to <> 0 /\ v <= balanceOf t token from.
Proof.
  unfold _transfer.
  destruct (N.eqb_spec from 0) as [->|Hf].
  - split; [discriminate | intros (? & _); contradiction].
  - destruct (N.eqb_spec to 0) as [->|Hto].
    + split; [discriminate | intros (_ & ? & _); contradiction].
    + destruct (N.ltb_spec (balanceOf t token from) v).
      * split; [discriminate | intros (_ & _ & ?); lia].
      * split; [auto | reflexivity].
Qed.

Lemma activeSum_ge X k op (ops : gmap N Operation) :
  ops !! k = Some op -> custodyOf X op <= activeSum X ops.
Proof.
  intros Hk. rewrite <- (insert_delete_id ops k op Hk).
  rewrite activeSum_insert_fresh by apply lookup_delete_eq. lia.
Qed.

(** The contract holds the deposit of every [Active] record. *)
Lemma deposit_held this deployer t txs k :
  holdsNothing this t = true ->
  external this txs = true ->
  let w := run this ERC20 txs (deploy deployer t) in
  let op := operationAt (escrow w) k in
  creator op <> 0 -> status op = Active ->
  amountA op <= balanceOf (tokens w) (tokenA op) this.
Proof.
  intros Hz Hext w op Hc Hst.
  destruct (conserved_run this deployer t txs Hz Hext) as [_ [Hbal _]]. fold w in Hbal.
  rewrite Hbal.
  pose proof (activeSum_ge (tokenA op) k op _ (operationAt_exists _ _ Hc)) as Hge.
  rewrite custodyOf_active in Hge by exact Hst. rewrite N.eqb_refl in Hge. exact Hge.
Qed.

(** X12. No deposit is ever stuck.  In a store reached from deployment
    (the contract starting with no tokens and called from outside only), the
    creator's [cancelOperation] of any [Active] operation goes through: the
    contract always holds what it owes.  The record ends [Cancelled]. *)
Theorem deposit_always_refundable this deployer t txs k :
  let w := run this ERC20 txs (deploy deployer t) in
  let op := operationAt (escrow w) k in
  holdsNothing this t = true ->
  external this txs = true ->
  creator op <> 0 ->
  status op = Active ->
  fst (exec this ERC20 (creator op, CancelOperation k) w) = Done [] /\
  status (operationAt (escrow (step this ERC20 w (creator op, CancelOperation k))) k)
    = Cancelled.
Proof.
  intros w op Hz Hext Hc Hst. subst op w.
  pose proof (wf_run this deployer t txs) as Hwf.
  pose proof (deposit_held this deployer t txs k Hz Hext Hc Hst) as Hheld.
  pose proof (this_nonzero this deployer t txs k _ (operationAt_exists _ _ Hc)) as Hthis.
  cbv zeta in Hheld, Hthis.
  set (w := run this ERC20 txs (deploy deployer t)) in *. clearbody w.
  set (op := operationAt (escrow w) k) in *.
  assert (Ht' : isDone (ERC20_transfer (tokenA op) this (creator op) (amountA op) (tokens w))
                = true).
  { apply _transfer_iff. auto. }
  destruct (ERC20_transfer (tokenA op) this (creator op) (amountA op) (tokens w))
    as [t1|e1] eqn:Ht; [clear Ht'|discriminate].
  assert (Hexec : exec this ERC20 (creator op, CancelOperation k) w
                  = (Done [], finish (OperationCancelled k)
                               (withTokens t1
                                  (note (CallTransfer (tokenA op) (creator op) (amountA op))
                                        (cancelStaged k w))))).
  { rewrite exec_run, cancelOperation_run, (wf_guard _ Hwf). cbv zeta. fold op.
    destruct (N.eqb_spec (creator op) 0); [contradiction|]. cbn [negb].
    rewrite bool_decide_eq_true_2 by exact Hst. rewrite N.eqb_refl.
    rewrite ERC20_transfer_run.
    cbn [escrow tokens logs interactions withEscrow withTokens note cancelStaged].
    rewrite Ht. reflexivity. }
  unfold step. rewrite Hexec. cbn [fst snd]. split; [reflexivity|].
  unfold finish, cancelStaged.
  cbn [escrow tokens logs interactions withEscrow withTokens note].
  change (operationAt (setEntered false ?e) k) with (operationAt e k).
  rewrite operationAt_written. reflexivity.
Qed.

(** X12 at the sample: operation [1], still [Active] after [sampleTxs]. *)
Lemma deposit_always_refundable_witness :
  let w := run 100 ERC20 sampleTxs (deploy 9 sampleTokens) in
  creator (operationAt (escrow w) 1) = 1 /\
  fst (exec 100 ERC20 (1, CancelOperation 1) w) = Done [].
Proof.
  cbv zeta. split; [vm_compute; reflexivity|].
  destruct (deposit_always_refundable 100 9 sampleTokens sampleTxs 1) as (H1 & _);
    [vm_compute; reflexivity | vm_compute; reflexivity
    | vm_compute; discriminate | vm_compute; reflexivity |].
  exact H1.
Defined.

(** X13. The contract's leg of a swap never fails.  In such a store, for an
    outside caller other than the creator, [completeOperation] of an
    [Active] operation goes through exactly when the token accepts the
    caller's payment of [amountB] of [tokenB] to the creator. *)
Theorem completeOperation_succeeds_iff_paid this deployer t txs sender k :
  let w := run this ERC20 txs (deploy deployer t) in
  let op := operationAt (escrow w) k in
  holdsNothing this t = true ->
  external this txs = true ->
  sender <> this ->
  creator op <> 0 ->
  status op = Active ->
  sender <> creator op ->
  (isDone (fst (exec this ERC20 (sender, CompleteOperation k) w)) = true <->
   isDone (ERC20_transferFrom (tokenB op) this sender (creator op) (amountB op) (tokens w))
     = true).
Proof.
  intros w op Hz Hext Hs Hc Hst Hsc. subst op w.
  pose proof (wf_run this deployer t txs) as Hwf.
  pose proof (operationAt_exists _ _ Hc) as Hk.
  pose proof (deposit_held this deployer t txs k Hz Hext Hc Hst) as Hheld.
  pose proof (this_nonzero this deployer t txs k _ Hk) as Hthis.
  pose proof (creators_external this deployer t txs Hext k _ Hk) as Hcthis.
  cbv zeta in Hheld, Hthis, Hcthis.
  set (w := run this ERC20 txs (deploy deployer t)) in *. clearbody w.
  set (op := operationAt (escrow w) k) in *.
  rewrite exec_run, completeOperation_run, (wf_guard _ Hwf). cbv zeta. fold op.
  destruct (N.eqb_spec (creator op) 0); [contradiction|]. cbn [negb].
  rewrite bool_decide_eq_true_2 by exact Hst.
  destruct (N.eqb_spec sender (creator op)); [contradiction|]. cbn [negb].
  rewrite ERC20_transferFrom_run. unfold completeStaged.
  cbn [escrow tokens logs interactions withEscrow withTokens note].
  destruct (ERC20_transferFrom (tokenB op) this sender (creator op) (amountB op) (tokens w))
    as [t1|e1] eqn:Ht1.
  - rewrite ERC20_transfer_run.
    cbn [escrow tokens logs interactions withEscrow withTokens note].
    rewrite operationAt_written.
    cbn [tokenA amountA setCompleter setStatus].
    pose proof Ht1 as Hd. apply ERC20_transferFrom_done in Hd as (Hs0 & _ & _ & Hmv).
    assert (Ht2 : isDone (ERC20_transfer (tokenA op) this sender (amountA op) t1) = true).
    { apply _transfer_iff. repeat split; try assumption.
      rewrite Hmv. unfold moved.
      repeat case_bool_decide; try congruence; lia. }
    fold op. destruct (ERC20_transfer (tokenA op) this sender (amountA op) t1) as [t2|e2];
      [|discriminate].
    cbn. split; reflexivity.
  - cbn. split; discriminate.
Qed.

(** X13 at the sample: account [2] has approved and holds the 50 of token
    [8] that operation [0] asks for. *)
Lemma completeOperation_succeeds_iff_paid_witness :
  let w := run 100 ERC20 sampleSetup (deploy 9 sampleTokens) in
  isDone (fst (exec 100 ERC20 (2, CompleteOperation 0) w)) = true <->
  isDone (ERC20_transferFrom 8 100 2 1 50 (tokens w)) = true.
Proof.
  cbv zeta.
  apply (completeOperation_succeeds_iff_paid 100 9 sampleTokens sampleSetup 2 0);
    try (vm_compute; reflexivity); vm_compute; discriminate.
Defined.

(** ** The event log *)

Lemma logs_step this w tx :
  (exists e, exec this ERC20 tx w = (Reverted e, w) /\
     logs (step this ERC20 w tx) = logs w /\ succeeded this ERC20 [tx] w = []) \/
  (exists ev, announces ev tx /\
     logs (step this ERC20 w tx) = logs w ++ [ev] /\ succeeded this ERC20 [tx] w = [tx]).
Proof.
  cbn [succeeded]. rewrite app_nil_r.
  destruct (step_cases this ERC20 w tx) as [(e & He & Hs)|Hdone].
  - left. exists e. rewrite Hs, He. auto.
  - right. rewrite Hdone. cbn [fst isDone].
    destruct tx as [sender [tk|a b x y|k|k|n|]].
    + apply addToken_done in Hdone as (_ & _ & _ & ->).
      exists (TokenAdded tk). cbn. auto.
    + apply create_done in Hdone as (_ & _ & _ & _ & _ & _ & _ & t' & _ & ->).
      eexists (OperationCreated _ sender a b x y). cbn. auto 10.
    + apply complete_done in Hdone as (_ & _ & _ & _ & t1 & t2 & _ & _ & ->).
      exists (OperationCompleted k sender). cbn. auto.
    + apply cancel_done in Hdone as (_ & _ & _ & _ & t1 & _ & ->).
      exists (OperationCancelled k). cbn. auto.
    + apply transferOwnership_done in Hdone as (_ & _ & ->).
      exists (OwnershipTransferred sender n). cbn. auto.
    + apply renounceOwnership_done in Hdone as (_ & ->).
      exists (OwnershipTransferred sender 0). cbn. auto.
Qed.

Lemma logs_run this txs : forall w,
  exists l, logs (run this ERC20 txs w) = logs w ++ l /\
            Forall2 announces l (succeeded this ERC20 txs w).
Proof.
  induction txs as [|tx txs IH]; intros w.
  - exists []. cbn. rewrite app_nil_r. split; [reflexivity|constructor].
  - change (run this ERC20 (tx :: txs) w)
      with (run this ERC20 txs (step this ERC20 w tx)).
    rewrite succeeded_step.
    destruct (IH (step this ERC20 w tx)) as (l & Hl & Hf).
    destruct (logs_step this w tx) as [(e & _ & Hs & Hn)|(ev & Ha & Hs & Hn)];
      rewrite Hl, Hs, Hn.
    + exists l. auto.
    + exists (ev :: l). rewrite <- app_assoc. split; [reflexivity|].
      constructor; assumption.
Qed.

(** X14. The event log mirrors the accepted calls.  The constructor logs
    [OwnershipTransferred(0, deployer)].  After that, with tokens that do not
    call back, any transactions add to the log exactly one event per
    transaction that went through, in the same order, each naming that
    call's sender and arguments ([TokenAdded], [OperationCreated],
    [OperationCompleted], [OperationCancelled], [OwnershipTransferred]).
    Whatever the tokens send back, a reverted call leaves the log as it was,
    and a call that goes through adds its own event last, after the events
    of the calls the tokens made meanwhile. *)
Theorem events_mirror_accepted_calls this deployer t txs attack w tx :
  let w0 := deploy deployer t in
  let r := exec this (Reentrant this attack) tx w in
  (deployer <> 0 -> logs w0 = [OwnershipTransferred 0 deployer]) /\
  (exists evs, logs (run this ERC20 txs w0) = logs w0 ++ evs /\
               Forall2 announces evs (succeeded this ERC20 txs w0)) /\
  (isDone (fst r) = false -> logs (snd r) = logs w) /\
  (isDone (fst r) = true ->
   exists nested ev, logs (snd r) = logs w ++ nested ++ [ev] /\ announces ev tx).
Proof.
  cbv zeta. split; [|split; [apply logs_run|split]].
  - intros Hd. destruct (deploy_store deployer t) as (_ & _ & _ & ->).
    destruct (N.eqb_spec deployer 0); [contradiction|reflexivity].
  - destruct (exec this (Reentrant this attack) tx w) as [[ret|e] w'] eqn:He;
      [discriminate|].
    intros _. rewrite (exec_reverted _ _ _ _ _ _ He). reflexivity.
  - intros Hd. destruct (callback_exec this attack tx w) as (_ & _ & _ & H).
    destruct (H Hd) as (l & ev & Hl & Ha & _). eauto.
Qed.

(** ** Tokens are neither made nor lost *)

Lemma heldInTotal_setBalance token a v t tok :
  heldInTotal tok (setBalance token a v t) + (if token =? tok then balanceOf t token a else 0)
  = heldInTotal tok t + (if token =? tok then v else 0).
Proof.
  unfold heldInTotal, setBalance, balanceOf. cbn [_balances].
  set (f := fun (k : N * N) (x acc : N) => if fst k =? tok then x + acc else acc).
  assert (Hcomm : forall (m : gmap (N * N) N) j1 j2 z1 z2 y,
             j1 <> j2 -> m !! j1 = Some z1 -> m !! j2 = Some z2 ->
             f j1 z1 (f j2 z2 y) = f j2 z2 (f j1 z1 y)).
  { intros. unfold f. repeat destruct (_ =? _); lia. }
  destruct (_balances t !! (token, a)) as [old|] eqn:Hold; cbn [default Datatypes.id].
  - rewrite <- (insert_delete_eq (_balances t) (token, a) v).
    rewrite <- (insert_delete_id (_balances t) (token, a) old Hold) at 2.
    rewrite !(map_fold_insert_L f) by (eauto using Hcomm || apply lookup_delete_eq).
    unfold f. cbn [fst]. destruct (token =? tok); lia.
  - rewrite (map_fold_insert_L f) by (eauto using Hcomm).
    unfold f. cbn [fst]. destruct (token =? tok); lia.
Qed.

Lemma heldInTotal_transfer token from to v t t' tok :
  _transfer token from to v t = Done t' -> heldInTotal tok t' = heldInTotal tok t.
Proof.
  unfold _transfer.
  destruct (from =? 0); [discriminate|]. destruct (to =? 0); [discriminate|].
  destruct (N.ltb_spec (balanceOf t token from) v) as [|Hv]; [discriminate|].
  intros [= <-].
  pose proof (heldInTotal_setBalance token from (balanceOf t token from - v) t tok) as H1.
  pose proof (heldInTotal_setBalance token to
                (balanceOf (setBalance token from (balanceOf t token from - v) t) token to + v)
                (setBalance token from (balanceOf t token from - v) t) tok) as H2.
  destruct (token =? tok); lia.
Qed.

Lemma heldInTotal_transferFrom token spender from to v t t' tok :
  ERC20_transferFrom token spender from to v t = Done t' ->
  heldInTotal tok t' = heldInTotal tok t.
Proof.
  unfold ERC20_transferFrom.
  destruct (_spendAllowance _ _ _ _ _) as [t1|] eqn:Hs; [|discriminate].
  intros Ht. apply heldInTotal_transfer with (tok := tok) in Ht.
  apply _spendAllowance_done in Hs. unfold heldInTotal in *. rewrite Hs in Ht. exact Ht.
Qed.

Lemma heldInTotal_step this w tx tok :
  heldInTotal tok (tokens (step this ERC20 w tx)) = heldInTotal tok (tokens w).
Proof.
  destruct (step_cases this ERC20 w tx) as [(e & _ & ->)|Hdone]; [reflexivity|].
  destruct tx as [sender [tk|a b x y|k|k|n|]].
  - apply addToken_done in Hdone as (_ & _ & _ & ->). reflexivity.
  - apply create_done in Hdone as (_ & _ & _ & _ & _ & _ & _ & t' & Ht & ->).
    cbn [tokens]. apply (heldInTotal_transferFrom _ _ _ _ _ _ _ _ Ht).
  - apply complete_done in Hdone as (_ & _ & _ & _ & t1 & t2 & Ht1 & Ht2 & ->).
    cbn [tokens]. rewrite (heldInTotal_transfer _ _ _ _ _ _ _ Ht2).
    apply (heldInTotal_transferFrom _ _ _ _ _ _ _ _ Ht1).
  - apply cancel_done in Hdone as (_ & _ & _ & _ & t1 & Ht1 & ->).
    cbn [tokens]. apply (heldInTotal_transfer _ _ _ _ _ _ _ Ht1).
  - apply transferOwnership_done in Hdone as (_ & _ & ->). reflexivity.
  - apply renounceOwnership_done in Hdone as (_ & ->). reflexivity.
Qed.

(** X15. The contract neither makes nor loses tokens: whatever
    transactions run, from any store, the total of each token held by all
    accounts together (the contract included) is what it was. *)
Theorem holdings_are_conserved this txs tok : forall w,
  heldInTotal tok (tokens (run this ERC20 txs w)) = heldInTotal tok (tokens w).
Proof.
  induction txs as [|tx txs IH]; intros w; [reflexivity|].
  change (run this ERC20 (tx :: txs) w)
    with (run this ERC20 txs (step this ERC20 w tx)).
  rewrite IH. apply heldInTotal_step.
Qed.

(** ** Approve, then create *)

(** X16. The deposit flow of the tests and of the front end: once the
    sender has approved the contract for [amountA] of [tokenA] and holds that
    much, a [createOperation] with allowlisted, distinct tokens and positive
    amounts goes through; the new record is returned by [getOperation] with
    exactly the terms given, [Active] and without completer; the deposit
    moves from the sender to the contract and the allowance is used up. *)
Theorem approve_then_create this w sender a b x y t1 :
  let c := operationCounter (escrow w) in
  let w1 := withTokens t1 w in
  let r := exec this ERC20 (sender, CreateOperation a b x y) w1 in
  _entered (escrow w) = false ->
  isAllowed (escrow w) a = true -> isAllowed (escrow w) b = true ->
  a <> b -> 0 < x -> 0 < y -> x < MAX_UINT256 ->
  c < MAX_UINT256 ->
  sender <> this ->
  x <= balanceOf (tokens w) a sender ->
  ERC20_approve a sender this x (tokens w) = Done t1 ->
  fst r = Done [] /\
  getOperation (escrow (snd r)) c = Done (mkOperation c sender a b x y Active 0) /\
  getOperationCount (escrow (snd r)) = c + 1 /\
  balanceOf (tokens (snd r)) a sender = balanceOf (tokens w) a sender - x /\
  balanceOf (tokens (snd r)) a this = balanceOf (tokens w) a this + x /\
  allowance (tokens (snd r)) a sender this = 0.
Proof.
  intros c w1 r Hg Ha Hb Hab Hx Hy Hmax Hc Hst Hbal Happ. subst r w1 c.
  unfold ERC20_approve, _approve in Happ.
  destruct (N.eqb_spec sender 0) as [|Hs0]; [discriminate|].
  destruct (N.eqb_spec this 0) as [|Ht0]; [discriminate|].
  injection Happ as <-.
  set (t1 := setAllowance a sender this x (tokens w)).
  assert (Hal : allowance t1 a sender this = x).
  { unfold allowance, t1, setAllowance. cbn [_allowances].
    rewrite lookup_insert_eq. reflexivity. }
  assert (Hb1 : forall tok acc, balanceOf t1 tok acc = balanceOf (tokens w) tok acc)
    by reflexivity.
  assert (Ht : ERC20_transferFrom a this sender this x t1
               = Done (setBalance a this (balanceOf (tokens w) a this + x)
                         (setBalance a sender (balanceOf (tokens w) a sender - x)
                            (setAllowance a sender this 0 t1)))).
  { unfold ERC20_transferFrom, _spendAllowance, _approve, _transfer. rewrite Hal.
    destruct (N.ltb_spec x MAX_UINT256); [|lia].
    rewrite N.ltb_irrefl.
    destruct (N.eqb_spec sender 0); [contradiction|].
    destruct (N.eqb_spec this 0); [contradiction|].
    rewrite N.sub_diag.
    change (balanceOf (setAllowance a sender this 0 t1) a sender)
      with (balanceOf (tokens w) a sender).
    destruct (N.ltb_spec (balanceOf (tokens w) a sender) x); [lia|].
    rewrite balanceOf_setBalance.
    rewrite bool_decide_eq_false_2 by (intros [_ ?]; congruence).
    reflexivity. }
  rewrite exec_run, createOperation_run. cbv zeta.
  cbn [escrow withTokens]. rewrite Hg, Ha, Hb.
  destruct (N.eqb_spec a b); [contradiction|]. cbn [negb].
  destruct (N.ltb_spec 0 x); [|lia]. destruct (N.ltb_spec 0 y); [|lia].
  rewrite ERC20_transferFrom_run.
  cbn [escrow tokens logs interactions withEscrow withTokens note].
  rewrite Ht.
  cbn [escrow tokens logs interactions withEscrow withTokens note operationCounter setEntered].
  destruct (N.ltb_spec (operationCounter (escrow w)) MAX_UINT256); [|lia].
  cbn [fst snd]. unfold finish, getOperation, getOperationCount.
  cbn [escrow tokens logs interactions withEscrow withTokens note operationCounter
       setEntered setOperationCounter recorded setOperationIds setOperations
       newOperation id].
  split; [reflexivity|].
  split.
  { unfold operationAt.
    cbn [operations setEntered setOperationCounter recorded setOperationIds
         setOperations newOperation id].
    rewrite lookup_insert_eq. cbn [default Datatypes.id creator newOperation].
    destruct (N.eqb_spec sender 0); [contradiction|reflexivity]. }
  split; [reflexivity|].
  rewrite !balanceOf_setBalance.
  repeat split.
  - rewrite bool_decide_eq_false_2 by (intros [_ ?]; congruence).
    rewrite bool_decide_eq_true_2 by auto. reflexivity.
  - rewrite bool_decide_eq_true_2 by auto. reflexivity.
  - unfold allowance, setBalance, setAllowance. cbn [_allowances].
    rewrite lookup_insert_eq. reflexivity.
Qed.

(** X16 at the sample: account [1] approves 300 of token [7] and creates. *)
Lemma approve_then_create_witness :
  let w := run 100 ERC20 [(9, AddToken 7); (9, AddToken 8)] (deploy 9 sampleTokens) in
  let t1 := setAllowance 7 1 100 300 (tokens w) in
  let r := exec 100 ERC20 (1, CreateOperation 7 8 300 40) (withTokens t1 w) in
  fst r = Done [] /\
  getOperation (escrow (snd r)) 0 = Done (mkOperation 0 1 7 8 300 40 Active 0) /\
  balanceOf (tokens (snd r)) 7 100 = 300.
Proof.
  cbv zeta.
  destruct (approve_then_create 100
              (run 100 ERC20 [(9, AddToken 7); (9, AddToken 8)] (deploy 9 sampleTokens))
              1 7 8 300 40
              (setAllowance 7 1 100 300
                 (tokens (run 100 ERC20 [(9, AddToken 7); (9, AddToken 8)]
                            (deploy 9 sampleTokens)))))
    as (H1 & H2 & _ & _ & H5 & _);
    try (vm_compute; reflexivity); try (vm_compute; discriminate).
  split; [exact H1|]. split; [exact H2|].
  rewrite H5. vm_compute. reflexivity.
Defined.

(** ** MockToken *)

Lemma circulating_setHeld s account v :
  circulating (setHeld account v s) + held s account = circulating s + v.
Proof.
  unfold circulating, held, setHeld. cbn [holdings].
  set (f := fun (_ : N) (x acc : N) => x + acc).
  assert (Hcomm : forall (m : gmap N N) j1 j2 z1 z2 y,
             j1 <> j2 -> m !! j1 = Some z1 -> m !! j2 = Some z2 ->
             f j1 z1 (f j2 z2 y) = f j2 z2 (f j1 z1 y)).
  { intros. unfold f. lia. }
  destruct (holdings s !! account) as [old|] eqn:Hold; cbn [default Datatypes.id].
  - rewrite <- (insert_delete_eq (holdings s) account v).
    rewrite <- (insert_delete_id (holdings s) account old Hold) at 2.
    rewrite !(map_fold_insert_L f) by (eauto using Hcomm || apply lookup_delete_eq).
    unfold f. lia.
  - rewrite (map_fold_insert_L f) by (eauto using Hcomm). unfold f. lia.
Qed.

Lemma held_le_circulating s account : held s account <= circulating s.
Proof.
  unfold held, circulating.
  destruct (holdings s !! account) as [old|] eqn:Hold; cbn [default Datatypes.id]; [|lia].
  rewrite <- (insert_delete_id (holdings s) account old Hold).
  rewrite (map_fold_insert_L (fun _ x acc => x + acc)); [lia| |apply lookup_delete_eq].
  intros. lia.
Qed.

Lemma held_setHeld s account v a :
  held (setHeld account v s) a = if bool_decide (a = account) then v else held s a.
Proof.
  unfold held, setHeld. cbn [holdings]. rewrite lookup_insert.
  case_decide; case_bool_decide; subst; try reflexivity; congruence.
Qed.

(** Two accounts together hold no more than all accounts. *)
Lemma held_pair_le_circulating s a b :
  a <> b -> held s a + held s b <= circulating s.
Proof.
  intros Hab.
  pose proof (circulating_setHeld s a 0) as H0.
  pose proof (held_le_circulating (setHeld a 0 s) b) as Hb.
  rewrite held_setHeld in Hb. rewrite bool_decide_eq_false_2 in Hb by congruence. lia.
Qed.

Lemma MAX_UINT256_succ : 2 ^ 256 = MAX_UINT256 + 1.
Proof. reflexivity. Qed.

Lemma _mint_balanced account value s s' :
  Balanced s -> _mint account value s = TokenOk s' ->
  Balanced s' /\
  account <> 0 /\
  tokenOwner s' = tokenOwner s /\
  held s' account = held s account + value /\
  _totalSupply s' = _totalSupply s + value /\
  (forall other, other <> account -> held s' other = held s other).
Proof.
  intros (Hsum & Hmax). unfold _mint, _update.
  destruct (N.eqb_spec account 0) as [|Ha]; [discriminate|]. cbn [N.eqb].
  destruct (N.ltb_spec MAX_UINT256 (_totalSupply s + value)) as [|Hroom]; [discriminate|].
  intros [= <-].
  pose proof (held_le_circulating s account) as Hle.
  change (held (setSupply (_totalSupply s + value) s) account) with (held s account).
  assert (Hmod : (held s account + value) mod 2 ^ 256 = held s account + value).
  { apply N.mod_small. rewrite MAX_UINT256_succ. lia. }
  rewrite Hmod.
  pose proof (circulating_setHeld s account (held s account + value)) as Hins.
  unfold Balanced.
  change (circulating (setHeld account (held s account + value)
                         (setSupply (_totalSupply s + value) s)))
    with (circulating (setHeld account (held s account + value) s)).
  cbn [tokenOwner _totalSupply setHeld setSupply].
  repeat split; try assumption; try lia.
  - rewrite held_setHeld. rewrite bool_decide_eq_true_2 by reflexivity. reflexivity.
  - intros other Hne. rewrite held_setHeld.
    rewrite bool_decide_eq_false_2 by exact Hne. reflexivity.
Qed.

Lemma _burn_balanced account value s s' :
  Balanced s -> _burn account value s = TokenOk s' ->
  Balanced s' /\
  value <= held s account /\
  tokenOwner s' = tokenOwner s /\
  held s' account = held s account - value /\
  _totalSupply s' = _totalSupply s - value /\
  (forall other, other <> account -> held s' other = held s other).
Proof.
  intros (Hsum & Hmax). unfold _burn, _update.
  destruct (N.eqb_spec account 0) as [|Ha]; [discriminate|]. cbn [N.eqb].
  destruct (N.ltb_spec (held s account) value) as [|Hv]; [discriminate|].
  intros [= <-].
  pose proof (held_le_circulating s account) as Hle.
  cbn [_totalSupply setHeld].
  assert (Hmod : (_totalSupply s + 2 ^ 256 - value) mod 2 ^ 256 = _totalSupply s - value).
  { replace (_totalSupply s + 2 ^ 256 - value)
      with (_totalSupply s - value + 1 * 2 ^ 256) by lia.
    rewrite N.Div0.mod_add. apply N.mod_small. rewrite MAX_UINT256_succ. lia. }
  rewrite Hmod.
  pose proof (circulating_setHeld s account (held s account - value)) as Hins.
  unfold Balanced.
  change (circulating (setSupply (_totalSupply s - value)
                         (setHeld account (held s account - value) s)))
    with (circulating (setHeld account (held s account - value) s)).
  change (held (setSupply (_totalSupply s - value)
                  (setHeld account (held s account - value) s)))
    with (held (setHeld account (held s account - value) s)).
  cbn [tokenOwner _totalSupply setHeld setSupply].
  repeat split; try assumption; try lia.
  - rewrite held_setHeld. rewrite bool_decide_eq_true_2 by reflexivity. reflexivity.
  - intros other Hne. rewrite held_setHeld.
    rewrite bool_decide_eq_false_2 by exact Hne. reflexivity.
Qed.

(** A transfer keeps the books, the owner and the allowances, and moves
    [value] from [from] to [to]. *)
Lemma tokenTransfer_balanced from to value s s' :
  Balanced s -> tokenTransfer from to value s = TokenOk s' ->
  Balanced s' /\
  from <> 0 /\ to <> 0 /\ value <= held s from /\
  tokenOwner s' = tokenOwner s /\
  approvals s' = approvals s /\
  _totalSupply s' = _totalSupply s /\
  (forall a, a <> from -> held s a <= held s' a) /\
  (forall a, a <> from -> a <> to -> held s' a = held s a) /\
  held s' from <= held s from.
Proof.
  intros (Hsum & Hmax). unfold tokenTransfer, _update.
  destruct (N.eqb_spec from 0) as [|Hf]; [discriminate|].
  destruct (N.eqb_spec to 0) as [|Ht]; [discriminate|].
  destruct (N.ltb_spec (held s from) value) as [|Hv]; [discriminate|].
  intros [= <-].
  set (s1 := setHeld from (held s from - value) s).
  pose proof (circulating_setHeld s from (held s from - value)) as H1. fold s1 in H1.
  pose proof (circulating_setHeld s1 to (held s1 to + value)) as H2.
  pose proof (held_le_circulating s from) as Hlf.
  assert (Hto : held s1 to + value <= circulating s).
  { unfold s1. rewrite held_setHeld. case_bool_decide as Heq.
    - lia.
    - pose proof (held_pair_le_circulating s to from Heq). lia. }
  assert (Hmod : (held s1 to + value) mod 2 ^ 256 = held s1 to + value).
  { apply N.mod_small. rewrite MAX_UINT256_succ. lia. }
  rewrite Hmod. unfold Balanced.
  assert (Hsup : forall a v u, _totalSupply (setHeld a v u) = _totalSupply u)
    by reflexivity.
  rewrite !Hsup. change (_totalSupply s1) with (_totalSupply s).
  split_and!; try assumption; try lia; try reflexivity.
  - intros a Ha. rewrite held_setHeld. unfold s1.
    case_bool_decide; subst; rewrite held_setHeld;
      rewrite bool_decide_eq_false_2 by exact Ha; lia.
  - intros a Ha Hb. rewrite held_setHeld.
    rewrite bool_decide_eq_false_2 by exact Hb. unfold s1. rewrite held_setHeld.
    rewrite bool_decide_eq_false_2 by exact Ha. reflexivity.
  - rewrite held_setHeld. unfold s1. case_bool_decide.
    + subst. rewrite held_setHeld, bool_decide_eq_true_2 by reflexivity. lia.
    + rewrite held_setHeld, bool_decide_eq_true_2 by reflexivity. lia.
Qed.

Lemma tokenApprove_done sender spender value s s' :
  tokenApprove sender spender value s = TokenOk s' ->
  tokenOwner s' = tokenOwner s /\ _totalSupply s' = _totalSupply s /\
  holdings s' = holdings s.
Proof.
  unfold tokenApprove.
  destruct (sender =? 0); [discriminate|]. destruct (spender =? 0); [discriminate|].
  intros [= <-]. auto.
Qed.

(** [transferFrom] moves the tokens of [from] within the allowance that
    [from] gave the caller. *)
Lemma tokenTransferFrom_balanced sender from to value s s' :
  Balanced s -> tokenTransferFrom sender from to value s = TokenOk s' ->
  Balanced s' /\
  value <= held s from /\ value <= approved s from sender /\
  tokenOwner s' = tokenOwner s /\
  _totalSupply s' = _totalSupply s /\
  (forall a, a <> from -> held s a <= held s' a).
Proof.
  intros Hb. unfold tokenTransferFrom.
  destruct (N.ltb_spec (approved s from sender) MAX_UINT256) as [Hfin|Hinf].
  - destruct (N.ltb_spec (approved s from sender) value) as [|Hge]; [discriminate|].
    destruct (tokenApprove from sender (approved s from sender - value) s)
      as [s1|e] eqn:Ha; [|discriminate].
    apply tokenApprove_done in Ha as (Ho & Hs & Hh).
    intros Ht. apply tokenTransfer_balanced in Ht
      as (Hb' & _ & _ & Hv & Ho' & _ & Hs' & Hup & _).
    + unfold held in *. rewrite Hh in *. split_and!; try assumption; congruence.
    + destruct Hb as (Hsum & Hmax). unfold Balanced, circulating in *.
      rewrite Hh, Hs. auto.
  - intros Ht. apply tokenTransfer_balanced in Ht
      as (Hb' & _ & _ & Hv & Ho' & _ & Hs' & Hup & _); [|exact Hb].
    split_and!; try assumption.
    destruct Hb as (Hsum & Hmax). pose proof (held_le_circulating s from). lia.
Qed.

Lemma constructor_balanced deployer initialSupply s :
  MockToken_constructor deployer initialSupply = TokenOk s ->
  Balanced s /\ tokenOwner s = deployer /\
  held s deployer = initialSupply /\ _totalSupply s = initialSupply.
Proof.
  unfold MockToken_constructor.
  destruct (N.eqb_spec deployer 0); [discriminate|]. intros Hm.
  apply _mint_balanced in Hm as (Hb & _ & Ho & Hh & Hs & _).
  - split; [exact Hb|]. split; [exact Ho|].
    split; [rewrite Hh | rewrite Hs]; reflexivity.
  - unfold Balanced, circulating. cbn. rewrite map_fold_empty. split; [reflexivity|lia].
Qed.

Lemma tokenStep_balanced s tx : Balanced s -> Balanced (tokenStep s tx).
Proof.
  intros Hb. unfold tokenStep.
  destruct (tokenExec tx s) as [s'|e] eqn:He; [|exact Hb].
  revert He. unfold tokenExec.
  destruct tx as [sender [to amount|amount|to value|from to value|spender value|n|]];
    cbn [fst snd].
  - unfold mint. destruct (tokenOwner s =? sender); [|discriminate].
    intros Hm. apply (_mint_balanced _ _ _ _ Hb Hm).
  - unfold burn. intros Hm. apply (_burn_balanced _ _ _ _ Hb Hm).
  - intros Hm. apply (tokenTransfer_balanced _ _ _ _ _ Hb Hm).
  - intros Hm. apply (tokenTransferFrom_balanced _ _ _ _ _ _ Hb Hm).
  - intros Hm. apply tokenApprove_done in Hm as (_ & Hs & Hh).
    destruct Hb as (Hsum & Hmax). unfold Balanced, circulating in *.
    rewrite Hh, Hs. auto.
  - unfold tokenTransferOwnership.
    destruct (tokenOwner s =? sender); [|discriminate].
    destruct (n =? 0); [discriminate|]. intros [= <-]. exact Hb.
  - unfold tokenRenounceOwnership.
    destruct (tokenOwner s =? sender); [|discriminate]. intros [= <-]. exact Hb.
Qed.

Lemma tokenRun_balanced txs : forall s, Balanced s -> Balanced (tokenRun txs s).
Proof.
  induction txs as [|tx txs IH]; intros s Hb; [exact Hb|].
  cbn [tokenRun fold_left]. apply IH. apply tokenStep_balanced. exact Hb.
Qed.

(** Only a call by which the owner gives the ownership away changes the
    owner. *)
Lemma tokenStep_owner s tx :
  Balanced s -> givesAway (tokenOwner s) tx = false ->
  tokenOwner (tokenStep s tx) = tokenOwner s.
Proof.
  intros Hb Hg. unfold tokenStep.
  destruct (tokenExec tx s) as [s'|e] eqn:He; [|reflexivity].
  revert He Hg. unfold tokenExec, givesAway.
  destruct tx as [sender [to amount|amount|to value|from to value|spender value|n|]];
    cbn [fst snd].
  - unfold mint. destruct (tokenOwner s =? sender); [|discriminate].
    intros Hm _. apply (_mint_balanced _ _ _ _ Hb Hm).
  - unfold burn. intros Hm _. apply (_burn_balanced _ _ _ _ Hb Hm).
  - intros Hm _. apply (tokenTransfer_balanced _ _ _ _ _ Hb Hm).
  - intros Hm _. apply (tokenTransferFrom_balanced _ _ _ _ _ _ Hb Hm).
  - intros Hm _. apply tokenApprove_done in Hm as (Ho & _). exact Ho.
  - unfold tokenTransferOwnership. intros He Hg.
    rewrite N.eqb_sym in Hg. rewrite Hg in He. discriminate.
  - unfold tokenRenounceOwnership. intros He Hg.
    rewrite N.eqb_sym in Hg. rewrite Hg in He. discriminate.
Qed.

Lemma tokenRun_owner txs : forall s,
  Balanced s -> existsb (givesAway (tokenOwner s)) txs = false ->
  tokenOwner (tokenRun txs s) = tokenOwner s.
Proof.
  induction txs as [|tx txs IH]; intros s Hb Hg; [reflexivity|].
  cbn [existsb] in Hg. apply orb_false_iff in Hg as [Hg1 Hg2].
  cbn [tokenRun fold_left].
  pose proof (tokenStep_owner s tx Hb Hg1) as Ho.
  fold (tokenRun txs (tokenStep s tx)).
  rewrite (IH (tokenStep s tx)); [exact Ho | apply tokenStep_balanced; exact Hb|].
  rewrite Ho. exact Hg2.
Qed.

(** X17. The books of a MockToken always balance.  After the constructor
    and any calls by anyone ([mint], [burn] and the inherited [transfer],
    [transferFrom], [approve], [transferOwnership] and [renounceOwnership]),
    the balances add up to the total supply, which fits a [uint256] (so no
    [unchecked] addition or subtraction of [ERC20._update] has wrapped); and
    the owner is still the deployer unless the deployer gave the ownership
    away, as it cannot in a run of [mint] and [burn] calls. *)
Theorem MockToken_supply_is_sum_of_balances deployer initialSupply s0 txs :
  MockToken_constructor deployer initialSupply = TokenOk s0 ->
  let s := tokenRun txs s0 in
  circulating s = _totalSupply s /\
  _totalSupply s <= MAX_UINT256 /\
  (existsb (givesAway deployer) txs = false -> tokenOwner s = deployer) /\
  held s0 deployer = initialSupply /\ _totalSupply s0 = initialSupply.
Proof.
  intros Hc s.
  apply constructor_balanced in Hc as (Hb & Ho & Hh & Hs).
  destruct (tokenRun_balanced txs s0 Hb) as (Hsum & Hmax).
  repeat split; try assumption.
  intros Hg. unfold s. rewrite tokenRun_owner; [exact Ho | exact Hb|].
  rewrite Ho. exact Hg.
Qed.

(** X17 for a token deployed by account [9] with supply 1000, then minted,
    burnt and transferred. *)
Lemma MockToken_supply_is_sum_of_balances_witness :
  let s0 := mkMockToken 9 1000 {[ 9 := 1000 ]} ∅ in
  let s := tokenRun [(9, Mint 1 300); (1, Burn 100); (2, Mint 2 50); (1, Burn 500);
                     (9, Approve 2 40); (2, TransferFrom 9 3 25); (1, Transfer 2 10)] s0 in
  MockToken_constructor 9 1000 = TokenOk s0 /\
  circulating s = _totalSupply s /\
  _totalSupply s = 1200 /\
  tokenOwner s = 9.
Proof.
  cbv zeta.
  assert (Hc : MockToken_constructor 9 1000 = TokenOk (mkMockToken 9 1000 {[ 9 := 1000 ]} ∅))
    by (vm_compute; reflexivity).
  split; [exact Hc|].
  destruct (MockToken_supply_is_sum_of_balances 9 1000 _
              [(9, Mint 1 300); (1, Burn 100); (2, Mint 2 50); (1, Burn 500);
               (9, Approve 2 40); (2, TransferFrom 9 3 25); (1, Transfer 2 10)] Hc)
    as (H1 & _ & H3 & _).
  split; [exact H1|]. split; [vm_compute; reflexivity|].
  apply H3. vm_compute. reflexivity.
Defined.

(** X18. Only the owner can mint.  In a MockToken reached from its
    constructor by any calls, a call that is not sent by the current owner
    neither raises the total supply nor changes the owner, and when it is a
    [mint] it reverts with [OwnableUnauthorizedAccount].  Such a call lowers
    the balance of an account only when that account sent it ([burn],
    [transfer]) or had given the caller an allowance that covers the amount
    ([transferFrom]). *)
Theorem MockToken_only_owner_mints deployer initialSupply s0 txs tx :
  MockToken_constructor deployer initialSupply = TokenOk s0 ->
  let s := tokenRun txs s0 in
  let s' := tokenStep s tx in
  fst tx <> tokenOwner s ->
  _totalSupply s' <= _totalSupply s /\
  tokenOwner s' = tokenOwner s /\
  (forall to amount, snd tx = Mint to amount ->
     tokenExec tx s = TokenReverted (OwnableUnauthorizedAccount (fst tx))) /\
  (forall a, held s' a < held s a ->
     a = fst tx \/
     exists to value, snd tx = TransferFrom a to value /\
                      value <= approved s a (fst tx)).
Proof.
  intros Hc s s' Hne.
  apply constructor_balanced in Hc as (Hb & _ & _ & _).
  pose proof (tokenRun_balanced txs s0 Hb) as Hbs. fold s in Hbs.
  subst s'. clearbody s. unfold tokenStep, tokenExec.
  destruct tx as [sender [to amount|amount|to value|from to value|spender value|n|]];
    cbn [fst snd] in *.
  - unfold mint. destruct (N.eqb_spec (tokenOwner s) sender) as [|_]; [congruence|].
    split_and!; try reflexivity; intros; lia.
  - unfold burn. destruct (_burn sender amount s) as [s1|e] eqn:Hm;
      [|split_and!; try reflexivity; try discriminate; intros; lia].
    apply (_burn_balanced _ _ _ _ Hbs) in Hm as (_ & Hle & Ho & Hh & Hts & Hoth).
    split_and!; [lia | exact Ho | discriminate |].
    intros a Ha. left. destruct (N.eq_dec a sender) as [|Hd]; [assumption|].
    rewrite Hoth in Ha by exact Hd. lia.
  - destruct (tokenTransfer sender to value s) as [s1|e] eqn:Hm;
      [|split_and!; try reflexivity; try discriminate; intros; lia].
    apply (tokenTransfer_balanced _ _ _ _ _ Hbs) in Hm
      as (_ & _ & _ & _ & Ho & _ & Hts & Hup & _).
    split_and!; [lia | exact Ho | discriminate |].
    intros a Ha. left. destruct (N.eq_dec a sender) as [|Hd]; [assumption|].
    specialize (Hup a Hd). lia.
  - destruct (tokenTransferFrom sender from to value s) as [s1|e] eqn:Hm;
      [|split_and!; try reflexivity; try discriminate; intros; lia].
    apply (tokenTransferFrom_balanced _ _ _ _ _ _ Hbs) in Hm
      as (_ & _ & Hal & Ho & Hts & Hup).
    split_and!; [lia | exact Ho | discriminate |].
    intros a Ha. right. destruct (N.eq_dec a from) as [->|Hd]; [eauto|].
    specialize (Hup a Hd). lia.
  - destruct (tokenApprove sender spender value s) as [s1|e] eqn:Hm;
      [|split_and!; try reflexivity; try discriminate; intros; lia].
    apply tokenApprove_done in Hm as (Ho & Hts & Hh).
    split_and!; [lia | exact Ho | discriminate |].
    intros a. unfold held. rewrite Hh. lia.
  - unfold tokenTransferOwnership.
    destruct (N.eqb_spec (tokenOwner s) sender) as [|_]; [congruence|].
    split_and!; try reflexivity; try discriminate; intros; lia.
  - unfold tokenRenounceOwnership.
    destruct (N.eqb_spec (tokenOwner s) sender) as [|_]; [congruence|].
    split_and!; try reflexivity; try discriminate; intros; lia.
Qed.

(** X18 on a token of account [9]: account [1] cannot mint, and still
    cannot once account [9] has handed the ownership to account [2], who
    can. *)
Lemma MockToken_only_owner_mints_witness :
  let s0 := mkMockToken 9 1000 {[ 9 := 1000 ]} ∅ in
  let s := tokenRun [(9, Mint 1 300); (9, TokenTransferOwnership 2)] s0 in
  tokenExec (1, Mint 1 50) s = TokenReverted (OwnableUnauthorizedAccount 1) /\
  tokenExec (9, Mint 1 50) s = TokenReverted (OwnableUnauthorizedAccount 9) /\
  _totalSupply (tokenStep s (2, Mint 1 50)) = _totalSupply s + 50 /\
  _totalSupply (tokenStep s (1, Transfer 9 100)) <= _totalSupply s.
Proof.
  cbv zeta.
  assert (Hc : MockToken_constructor 9 1000 = TokenOk (mkMockToken 9 1000 {[ 9 := 1000 ]} ∅))
    by (vm_compute; reflexivity).
  destruct (MockToken_only_owner_mints 9 1000 _
              [(9, Mint 1 300); (9, TokenTransferOwnership 2)] (1, Mint 1 50) Hc)
    as (_ & _ & H1 & _); [vm_compute; discriminate|].
  destruct (MockToken_only_owner_mints 9 1000 _
              [(9, Mint 1 300); (9, TokenTransferOwnership 2)] (9, Mint 1 50) Hc)
    as (_ & _ & H2 & _); [vm_compute; discriminate|].
  destruct (MockToken_only_owner_mints 9 1000 _
              [(9, Mint 1 300); (9, TokenTransferOwnership 2)] (1, Transfer 9 100) Hc)
    as (H3 & _); [vm_compute; discriminate|].
  split; [apply (H1 1 50); reflexivity|].
  split; [apply (H2 1 50); reflexivity|].
  split; [vm_compute; reflexivity | exact H3].
Defined.



(** ** What a callback cannot reach *)

